(** * USB command line interpreter: usbd_cli.c and usbd_cli_commands.c

    A shallow embedding of the line buffer, the dispatcher and the output
    sequencer, followed by the properties of the specification.

    Conventions of the embedding.
    - A byte is an [ascii]; an array is a [list ascii] of the array's size.
    - A C operation whose behaviour is undefined (an access outside an
      array, a string function applied to bytes with no terminator, the read
      of an uninitialised local) yields [None]; every function of the program
      therefore returns an [option].
    - The [uint16_t] variables are integers of [Z]; the wrap-around of each
      assignment is written with [u16].
    - A pointer handed out by the interpreter is a value of [pointer]; the
      bytes it designates are read with [string_at]. *)

From Stdlib Require Import ZArith List Ascii String Bool Lia.
Import ListNotations.
Local Open Scope Z_scope.

(** ** Bytes, arrays and the C string functions *)

Definition bytes := list ascii.

Definition NUL : ascii := Ascii.zero.
Definition SP : ascii := " "%char.
Definition CR : ascii := "013"%char.
Definition LF : ascii := "010"%char.

Definition u16 (x : Z) : Z := x mod 65536.

Notation "x <- e ;; k" :=
  (match e with Some x => k | None => None end)
  (at level 61, e at next level, right associativity, only parsing).
Notation "' p <- e ;; k" :=
  (match e with Some p => k | None => None end)
  (at level 61, p pattern, e at next level, right associativity, only parsing).

(** The characters of a literal, and the array a C literal initialises
    (the characters followed by the terminator). *)
Definition lit (s : string) : bytes := list_ascii_of_string s.
Definition lit0 (s : string) : bytes := lit s ++ [NUL].

(** [a[i] = c]; outside the array the behaviour is undefined. *)
Fixpoint poke (a : bytes) (i : nat) (c : ascii) : option bytes :=
  match a, i with
  | [], _ => None
  | _ :: a', O => Some (c :: a')
  | x :: a', S i' => option_map (cons x) (poke a' i' c)
  end.

(** [a[i]]. *)
Definition peek (a : bytes) (i : nat) : option ascii := nth_error a i.

(** [strlen(s)], [s] being the bytes from the pointer to the end of its
    array. *)
Fixpoint strlen (s : bytes) : option nat :=
  match s with
  | [] => None
  | c :: s' => if Ascii.eqb c NUL then Some 0%nat else option_map S (strlen s')
  end.

(** The characters of the string at a pointer. *)
Definition cstr (s : bytes) : option bytes :=
  n <- strlen s ;; Some (firstn n s).

(** [strchr(s, c)] for [c] other than the terminator: the offset of the
    first [c], [Some None] for a null result. *)
Fixpoint strchr (s : bytes) (c : ascii) : option (option nat) :=
  match s with
  | [] => None
  | x :: s' =>
      if Ascii.eqb x c then Some (Some 0%nat)
      else if Ascii.eqb x NUL then Some None
      else r <- strchr s' c ;; Some (option_map S r)
  end.

Fixpoint bytes_eqb (a b : bytes) : bool :=
  match a, b with
  | [], [] => true
  | x :: a', y :: b' => Ascii.eqb x y && bytes_eqb a' b'
  | _, _ => false
  end.

(** [strcmp(a, b) == 0]. *)
Definition strcmp_eq (a b : bytes) : option bool :=
  x <- cstr a ;; y <- cstr b ;; Some (bytes_eqb x y).

Fixpoint is_prefix (n s : bytes) : bool :=
  match n, s with
  | [], _ => true
  | x :: n', y :: s' => Ascii.eqb x y && is_prefix n' s'
  | _ :: _, [] => false
  end.

(** Offset of the first occurrence of the characters [n] in the
    characters [s]. *)
Fixpoint find_sub (n s : bytes) : option nat :=
  if is_prefix n s then Some 0%nat
  else match s with
       | [] => None
       | _ :: s' => option_map S (find_sub n s')
       end.

(** [strstr(h, n)]: [Some None] for a null result. *)
Definition strstr (h n : bytes) : option (option nat) :=
  hs <- cstr h ;; ns <- cstr n ;; Some (find_sub ns hs).

(** [memset(a, 0, n)] over an array of [n] bytes. *)
Definition zeros (n : nat) : bytes := repeat NUL n.

(** ** Declarations of usbd_cli.h, usbd_cli_commands.h and usbd_def.h *)

(** Modelled from the spec: usbd_cli.h is missing; the spec names the
    handler return codes OK, INVALID and FAIL. *)
Inductive CLI_Result := CLI_RESULT_OK | CLI_RESULT_FAIL | CLI_RESULT_INVALID.

Definition CLI_Result_eqb (a b : CLI_Result) : bool :=
  match a, b with
  | CLI_RESULT_OK, CLI_RESULT_OK
  | CLI_RESULT_FAIL, CLI_RESULT_FAIL
  | CLI_RESULT_INVALID, CLI_RESULT_INVALID => true
  | _, _ => false
  end.

(** Modelled from the spec: usbd_def.h is missing; [CLI_Input] reports
    to its caller with a status of the USB device library, of which the
    source uses [USBD_OK] only. *)
Inductive USBD_Status := USBD_OK | USBD_BUSY | USBD_FAIL.

(** The type of the command functions, from a pointer to the argument
    string and a pointer to the response array to a code.  The handler
    receives the string at [pArg] ([None] for a null pointer) and the
    response array, and returns its code with the array as it leaves it;
    [None] when it writes outside the array.  A handler is taken to read
    its argument only: it does not write into the command array through
    [pArg]. *)
Definition CommandFxn := option bytes -> bytes -> option (CLI_Result * bytes).

Record CommandUnit := {
  name : string;          (* the literal the table entry points to *)
  command : CommandFxn
}.

(** The constants of the missing header and the command table. *)
Record Config := {
  CLI_COMMAND_LENGTH : nat;
  CLI_RESPONSE_LENGTH : nat;
  CLI_STRING_NEWLINE : string;
  CLI_STRING_PROMPT : string;
  CommandSet : list CommandUnit
}.

Definition NumOfCommands (cfg : Config) : nat := List.length (CommandSet cfg).

(** ** Private defines *)

Definition STRING_CMD_OVERFLOW : string := "Error : Command buffer overflow.".
Definition STRING_OTHER : string := "Error : Unexpected problem occured.".
Definition STRING_CMD_NOTFOUND : string := "Error : Command not found.".
Definition STRING_ARG_INVALID : string := "Error : Argument invalid.".

Definition ERRNO_CMD_NOTFOUND : Z := 0.
Definition ERRNO_ARG_INVALID : Z := 1.

Definition CLI_STATUS_ECHO : Z := 0x1.
Definition CLI_STATUS_NEWLINE : Z := 0x2.
Definition CLI_STATUS_PROMPT : Z := 0x4.
Definition CLI_STATUS_RESPONSE : Z := 0x8.
Definition CLI_STATUS_BREAK : Z := 0x10.
Definition CLI_STATUS_BUSY : Z := 0x20.
Definition CLI_STATUS_CMDOVF : Z := 0x100.
Definition CLI_STATUS_ERROR_MASK : Z := 0xF00.

(** ** Private variables *)

Definition String_Newline (cfg : Config) : bytes := lit0 (CLI_STRING_NEWLINE cfg).
Definition String_Prompt (cfg : Config) : bytes := lit0 (CLI_STRING_PROMPT cfg).
Definition ErrorMessage_CmdOvf : bytes := lit0 STRING_CMD_OVERFLOW.
Definition ErrorMessage_Other : bytes := lit0 STRING_OTHER.
Definition ErrorMessage_CmdNotFound : bytes := lit0 STRING_CMD_NOTFOUND.
Definition ErrorMessage_ArgInvalid : bytes := lit0 STRING_ARG_INVALID.

Inductive pointer :=
| NULL
| CommandBuffer_at (i : Z)      (* &CommandBuffer[i] *)
| ResponseBuffer_ptr
| String_Newline_ptr
| String_Prompt_ptr
| ErrorMessage_CmdOvf_ptr
| ErrorMessage_Other_ptr.

Record state := {
  CommandBuffer : bytes;
  ResponseBuffer : bytes;
  CmdBufIdxIn : Z;
  CmdBufIdxOut : Z;
  CLI_Status : Z;
  pResponse : pointer
}.

Definition set_CommandBuffer (st : state) (b : bytes) : state :=
  {| CommandBuffer := b; ResponseBuffer := ResponseBuffer st;
     CmdBufIdxIn := CmdBufIdxIn st; CmdBufIdxOut := CmdBufIdxOut st;
     CLI_Status := CLI_Status st; pResponse := pResponse st |}.

Definition set_ResponseBuffer (st : state) (b : bytes) : state :=
  {| CommandBuffer := CommandBuffer st; ResponseBuffer := b;
     CmdBufIdxIn := CmdBufIdxIn st; CmdBufIdxOut := CmdBufIdxOut st;
     CLI_Status := CLI_Status st; pResponse := pResponse st |}.

Definition set_CmdBufIdxIn (st : state) (i : Z) : state :=
  {| CommandBuffer := CommandBuffer st; ResponseBuffer := ResponseBuffer st;
     CmdBufIdxIn := i; CmdBufIdxOut := CmdBufIdxOut st;
     CLI_Status := CLI_Status st; pResponse := pResponse st |}.

Definition set_CmdBufIdxOut (st : state) (i : Z) : state :=
  {| CommandBuffer := CommandBuffer st; ResponseBuffer := ResponseBuffer st;
     CmdBufIdxIn := CmdBufIdxIn st; CmdBufIdxOut := i;
     CLI_Status := CLI_Status st; pResponse := pResponse st |}.

Definition set_CLI_Status (st : state) (s : Z) : state :=
  {| CommandBuffer := CommandBuffer st; ResponseBuffer := ResponseBuffer st;
     CmdBufIdxIn := CmdBufIdxIn st; CmdBufIdxOut := CmdBufIdxOut st;
     CLI_Status := s; pResponse := pResponse st |}.

Definition set_pResponse (st : state) (p : pointer) : state :=
  {| CommandBuffer := CommandBuffer st; ResponseBuffer := ResponseBuffer st;
     CmdBufIdxIn := CmdBufIdxIn st; CmdBufIdxOut := CmdBufIdxOut st;
     CLI_Status := CLI_Status st; pResponse := p |}.

(** The statics before the first call: zero-initialised. *)
Definition initial_state (cfg : Config) : state :=
  {| CommandBuffer := zeros (CLI_COMMAND_LENGTH cfg);
     ResponseBuffer := zeros (CLI_RESPONSE_LENGTH cfg);
     CmdBufIdxIn := 0; CmdBufIdxOut := 0;
     CLI_Status := 0; pResponse := NULL |}.

(** ** Private macros *)

Definition IS_STATUS (st : state) (flag : Z) : bool :=
  Z.land (CLI_Status st) flag =? flag.

Definition IS_ANY_STATUS (st : state) (flag : Z) : bool :=
  negb (Z.land (CLI_Status st) flag =? 0).

Definition SET_STATUS (st : state) (flag : Z) : state :=
  set_CLI_Status st (u16 (Z.lor (CLI_Status st) flag)).

Definition CLEAR_STATUS (st : state) (flag : Z) : state :=
  set_CLI_Status st (u16 (Z.land (CLI_Status st) (Z.lnot flag))).

Definition UPDATE_STATUS (st : state) (sflag cflag : Z) : state :=
  let tmp := u16 (Z.land (CLI_Status st) (Z.lnot cflag)) in
  set_CLI_Status st (u16 (Z.lor tmp sflag)).

Definition IS_CHAR_VALID (c : ascii) : bool :=
  Ascii.eqb c CR || Ascii.eqb c LF
  || ((N_of_ascii SP <=? N_of_ascii c)%N && (N_of_ascii c <=? N_of_ascii "~"%char)%N).

(** ** Private functions *)

(** [StrTrim(&p)], [s] being the bytes from [p] on: the number of
    positions [p] advances.  The loop test of the source compares the
    pointer itself with zero, which never stops the loop; the loop ends at
    the first byte that is not a space. *)
Fixpoint StrTrim (s : bytes) : option nat :=
  match s with
  | [] => None
  | c :: s' => if Ascii.eqb c SP then option_map S (StrTrim s') else Some 0%nat
  end.

(** The loop of [StrTrimR]: [k] is the distance from [pStr] to [pEnd]. *)
Fixpoint StrTrimR_loop (a : bytes) (pStr k : nat) : option bytes :=
  match k with
  | O => Some a
  | S k' =>
      let pEnd := (pStr + k')%nat in
      c <- peek a pEnd ;;
      if Ascii.eqb c SP then
        a' <- poke a pEnd NUL ;; StrTrimR_loop a' pStr k'
      else Some a
  end.

(** [StrTrimR(pStr)] with [pStr] at offset [pStr] of the array [a]. *)
Definition StrTrimR (a : bytes) (pStr : nat) : option bytes :=
  n <- strlen (skipn pStr a) ;; StrTrimR_loop a pStr n.

(** The copy loop of [ResponseError], from index [i] on. *)
Fixpoint copy_bytes (pMsg : bytes) (i : nat) (pRes : bytes) : option bytes :=
  match pMsg with
  | [] => Some pRes
  | c :: m => r <- poke pRes i c ;; copy_bytes m (S i) r
  end.

Definition ResponseError (pRes : bytes) (ErrNo : Z) : option bytes :=
  if ErrNo =? ERRNO_CMD_NOTFOUND then copy_bytes ErrorMessage_CmdNotFound 0 pRes
  else if ErrNo =? ERRNO_ARG_INVALID then copy_bytes ErrorMessage_ArgInvalid 0 pRes
  else Some pRes.

Definition ResponseError_CmdNotFound : CommandFxn :=
  fun _ pRes =>
    r <- ResponseError pRes ERRNO_CMD_NOTFOUND ;; Some (CLI_RESULT_OK, r).

(** The loop of [BufferInput] over the [length] bytes at [pInput]. *)
Fixpoint BufferInput (cfg : Config) (pInput : bytes) (st : state)
  : option (CLI_Result * state) :=
  match pInput with
  | [] => Some (CLI_RESULT_OK, st)
  | c :: rest =>
      if IS_CHAR_VALID c then
        b <- poke (CommandBuffer st) (Z.to_nat (CmdBufIdxIn st)) c ;;
        let st' := set_CmdBufIdxIn (set_CommandBuffer st b) (u16 (CmdBufIdxIn st + 1)) in
        if Z.of_nat (CLI_COMMAND_LENGTH cfg) <=? CmdBufIdxIn st'
        then Some (CLI_RESULT_FAIL, st')
        else BufferInput cfg rest st'
      else BufferInput cfg rest st
  end.

(** The table scan of [InvokeCommand]: [s] is the bytes from [pCmd] on. *)
Fixpoint seek (s : bytes) (set : list CommandUnit) (Command : CommandFxn)
  : option CommandFxn :=
  match set with
  | [] => Some Command
  | u :: rest =>
      e <- strcmp_eq s (lit0 (name u)) ;;
      seek s rest (if e then command u else Command)
  end.

(** Lines 294 to 317 of [InvokeCommand]: the trimming and the split of the
    line in place.  The result is the array, the offset of [pCmd] and,
    unless the line is blank, the offset of [pArg] ([None] for null). *)
Definition InvokeCommand_split (a : bytes) : option (bytes * nat * option (option nat)) :=
  pCmd <- StrTrim a ;;
  a1 <- StrTrimR a pCmd ;;
  n <- strlen (skipn pCmd a1) ;;
  if u16 (Z.of_nat n) =? 0 then Some (a1, pCmd, None)
  else
    r <- strchr (skipn pCmd a1) SP ;;
    match r with
    | None => Some (a1, pCmd, Some None)
    | Some k =>
        a2 <- poke a1 (pCmd + k) NUL ;;
        t <- StrTrim (skipn (pCmd + k + 1) a2) ;;
        Some (a2, pCmd, Some (Some (pCmd + k + 1 + t)%nat))
    end.

(** What the handler receives for [pArg]: nothing for the null pointer,
    else the string at offset [i] of the array. *)
Definition arg_string (a : bytes) (pArg : option nat) : option (option bytes) :=
  match pArg with
  | None => Some None
  | Some i => s <- cstr (skipn i a) ;; Some (Some s)
  end.

Definition InvokeCommand (cfg : Config) (st : state) : option (pointer * state) :=
  '(a, pCmd, args) <- InvokeCommand_split (CommandBuffer st) ;;
  let st1 := set_CommandBuffer st a in
  match args with
  | None =>
      r <- poke (ResponseBuffer st1) 0 NUL ;;
      Some (ResponseBuffer_ptr, set_ResponseBuffer st1 r)
  | Some pArg =>
      Command <- seek (skipn pCmd a) (CommandSet cfg) ResponseError_CmdNotFound ;;
      arg <- arg_string a pArg ;;
      '(result, r) <- Command arg (ResponseBuffer st1) ;;
      r1 <- (if CLI_Result_eqb result CLI_RESULT_INVALID
             then ResponseError r ERRNO_ARG_INVALID else Some r) ;;
      r2 <- poke r1 (CLI_RESPONSE_LENGTH cfg - 1) NUL ;;
      Some (ResponseBuffer_ptr, set_ResponseBuffer st1 r2)
  end.

Definition ResetBuffer (cfg : Config) (st : state) : state :=
  let st1 := set_CmdBufIdxIn st 0 in
  let st2 := set_CmdBufIdxOut st1 0 in
  let st3 := set_CommandBuffer st2 (zeros (CLI_COMMAND_LENGTH cfg)) in
  set_ResponseBuffer st3 (zeros (CLI_RESPONSE_LENGTH cfg)).

(** ** Exported functions *)

(** [CLI_Input(pInput, length)]: [pInput] is the list of the [length]
    bytes at the pointer. *)
Definition CLI_Input (cfg : Config) (pInput : bytes) (st : state)
  : option (USBD_Status * state) :=
  if IS_STATUS st CLI_STATUS_BUSY || (List.length pInput =? 0)%nat then
    Some (USBD_OK, st)
  else
    '(res, st1) <- BufferInput cfg pInput st ;;
    if negb (CLI_Result_eqb res CLI_RESULT_OK) then
      Some (USBD_OK, SET_STATUS st1 (Z.lor CLI_STATUS_BUSY CLI_STATUS_CMDOVF))
    else
      r <- strstr (CommandBuffer st1) (String_Newline cfg) ;;
      match r with
      | None => Some (USBD_OK, st1)
      | Some pNL =>
          a <- poke (CommandBuffer st1) pNL NUL ;;
          '(p, st2) <- InvokeCommand cfg (set_CommandBuffer st1 a) ;;
          Some (USBD_OK,
                SET_STATUS (set_pResponse st2 p)
                           (Z.lor CLI_STATUS_BUSY CLI_STATUS_BREAK))
      end.

Definition CLI_Output (cfg : Config) (st : state) : option (pointer * state) :=
  if IS_ANY_STATUS st CLI_STATUS_ERROR_MASK then
    (* error_status is assigned in the overflow case only *)
    if IS_STATUS st CLI_STATUS_CMDOVF then
      let st1 := set_pResponse st ErrorMessage_CmdOvf_ptr in
      let error_status := CLI_STATUS_CMDOVF in
      Some (NULL,
            UPDATE_STATUS st1 (Z.lor CLI_STATUS_RESPONSE CLI_STATUS_NEWLINE)
                          (Z.lor error_status CLI_STATUS_ECHO))
    else None
  else if IS_STATUS st CLI_STATUS_ECHO then
    if CmdBufIdxOut st <? CmdBufIdxIn st then
      let pOutput := CommandBuffer_at (CmdBufIdxOut st) in
      n <- strlen (skipn (Z.to_nat (CmdBufIdxOut st)) (CommandBuffer st)) ;;
      let st1 := set_CmdBufIdxOut st (u16 (CmdBufIdxOut st + u16 (Z.of_nat n))) in
      if IS_STATUS st1 CLI_STATUS_BREAK then
        m <- strlen (skipn (Z.to_nat (CmdBufIdxOut st)) (CommandBuffer st1)) ;;
        let next_status :=
          if 0 <? u16 (Z.of_nat m) then CLI_STATUS_RESPONSE else CLI_STATUS_PROMPT in
        Some (pOutput,
              UPDATE_STATUS st1 (Z.lor next_status CLI_STATUS_NEWLINE)
                            (Z.lor CLI_STATUS_ECHO CLI_STATUS_BREAK))
      else Some (pOutput, st1)
    else Some (NULL, st)
  else if IS_STATUS st CLI_STATUS_NEWLINE then
    Some (String_Newline_ptr, CLEAR_STATUS st CLI_STATUS_NEWLINE)
  else if IS_STATUS st CLI_STATUS_RESPONSE then
    Some (pResponse st,
          UPDATE_STATUS st (Z.lor CLI_STATUS_NEWLINE CLI_STATUS_PROMPT)
                        CLI_STATUS_RESPONSE)
  else if IS_STATUS st CLI_STATUS_PROMPT then
    Some (String_Prompt_ptr,
          UPDATE_STATUS (ResetBuffer cfg st) CLI_STATUS_ECHO
                        (Z.lor CLI_STATUS_PROMPT CLI_STATUS_BUSY))
  else
    let st1 := set_pResponse st ErrorMessage_Other_ptr in
    Some (NULL,
          SET_STATUS st1 (Z.lor (Z.lor CLI_STATUS_RESPONSE CLI_STATUS_NEWLINE)
                                CLI_STATUS_BUSY)).

(** The string a returned pointer designates, read in the state the call
    leaves; [None] for the null pointer. *)
Definition string_at (cfg : Config) (st : state) (p : pointer) : option bytes :=
  match p with
  | NULL => None
  | CommandBuffer_at i =>
      if i <? 0 then None else cstr (skipn (Z.to_nat i) (CommandBuffer st))
  | ResponseBuffer_ptr => cstr (ResponseBuffer st)
  | String_Newline_ptr => cstr (String_Newline cfg)
  | String_Prompt_ptr => cstr (String_Prompt cfg)
  | ErrorMessage_CmdOvf_ptr => cstr ErrorMessage_CmdOvf
  | ErrorMessage_Other_ptr => cstr ErrorMessage_Other
  end.

(** ** usbd_cli_commands.c *)

(** The loop of [TEST]: [n] iterations remain, [i] is the counter. *)
Fixpoint TEST_loop (n i : nat) (pRes : bytes) : option bytes :=
  match n with
  | O => Some pRes
  | S n' =>
      r <- poke pRes i (ascii_of_nat ((i + nat_of_ascii "a"%char) mod 256)) ;;
      TEST_loop n' (S i) r
  end.

Definition TEST : CommandFxn :=
  fun pArg pRes =>
    match pArg with
    | Some _ => Some (CLI_RESULT_INVALID, pRes)
    | None => r <- TEST_loop 26 0 pRes ;; Some (CLI_RESULT_OK, r)
    end.

Definition repo_CommandSet : list CommandUnit :=
  [ {| name := "GET_LOG"; command := TEST |} ].

(** The repository's table with the header's constants as parameters. *)
Definition repo_config (ncmd nresp : nat) (newline prompt : string) : Config :=
  {| CLI_COMMAND_LENGTH := ncmd; CLI_RESPONSE_LENGTH := nresp;
     CLI_STRING_NEWLINE := newline; CLI_STRING_PROMPT := prompt;
     CommandSet := repo_CommandSet |}.

(** ** Driving the interpreter *)

(** Polls [CLI_Output] until it returns the null pointer, at most [fuel]
    times, and collects the strings returned before it. *)
Fixpoint drain (cfg : Config) (fuel : nat) (st : state)
  : option (list bytes * state) :=
  match fuel with
  | O => None
  | S fuel' =>
      '(p, st1) <- CLI_Output cfg st ;;
      match p with
      | NULL => Some ([], st1)
      | _ =>
          f <- string_at cfg st1 p ;;
          '(fs, st2) <- drain cfg fuel' st1 ;;
          Some (f :: fs, st2)
      end
  end.

(** Successive [CLI_Input] calls, one per chunk. *)
Fixpoint feed (cfg : Config) (chunks : list bytes) (st : state) : option state :=
  match chunks with
  | [] => Some st
  | c :: rest => '(_, st1) <- CLI_Input cfg c st ;; feed cfg rest st1
  end.

Definition CRLF : string := String CR (String LF EmptyString).

(** A configuration to evaluate on: 64-byte arrays, the terminator of the
    spec's scenario and a two-character prompt. *)
Definition demo : Config := repo_config 64 64 CRLF "> ".

(** The state a completed cycle leaves: both arrays reset, the indices at
    zero, the echo flag alone set; [p] is what [pResponse] still holds. *)
Definition completed_cycle (cfg : Config) (p : pointer) : state :=
  {| CommandBuffer := zeros (CLI_COMMAND_LENGTH cfg);
     ResponseBuffer := zeros (CLI_RESPONSE_LENGTH cfg);
     CmdBufIdxIn := 0; CmdBufIdxOut := 0;
     CLI_Status := CLI_STATUS_ECHO; pResponse := p |}.

(** The states the two entry points reach from the initial one. *)
Inductive reachable (cfg : Config) : state -> Prop :=
| reach_init : reachable cfg (initial_state cfg)
| reach_input st pInput r st' :
    reachable cfg st -> CLI_Input cfg pInput st = Some (r, st') ->
    reachable cfg st'
| reach_output st p st' :
    reachable cfg st -> CLI_Output cfg st = Some (p, st') ->
    reachable cfg st'.

(** What the interpreter expects of its command functions: they stay
    inside the response array. *)
Definition handlers_ok (cfg : Config) : Prop :=
  forall u arg pRes,
    In u (CommandSet cfg) ->
    List.length pRes = CLI_RESPONSE_LENGTH cfg ->
    exists res r, command u arg pRes = Some (res, r)
                  /\ List.length r = List.length pRes.

(** What the interpreter expects of the sizes: the write index fits its
    16 bits and the response array holds each fixed message. *)
Definition sizes_ok (cfg : Config) : Prop :=
  0 < Z.of_nat (CLI_COMMAND_LENGTH cfg) <= 65535
  /\ (List.length ErrorMessage_CmdNotFound <= CLI_RESPONSE_LENGTH cfg)%nat.

(** Every byte of [a] from index [i] on is zero. *)
Definition zero_from (a : bytes) (i : nat) : Prop :=
  forall j, (i <= j)%nat -> nth j a NUL = NUL.

(** The invariant of the reachable states. *)
Record Inv (cfg : Config) (st : state) : Prop := {
  inv_cmd_len : List.length (CommandBuffer st) = CLI_COMMAND_LENGTH cfg;
  inv_resp_len : List.length (ResponseBuffer st) = CLI_RESPONSE_LENGTH cfg;
  inv_out : 0 <= CmdBufIdxOut st <= CmdBufIdxIn st;
  inv_in : CmdBufIdxIn st <= Z.of_nat (CLI_COMMAND_LENGTH cfg);
  inv_zero : zero_from (CommandBuffer st) (Z.to_nat (CmdBufIdxIn st));
  inv_err : Z.land (CLI_Status st) 0xE00 = 0;
  inv_accept : IS_STATUS st CLI_STATUS_BUSY = false ->
               CmdBufIdxIn st < Z.of_nat (CLI_COMMAND_LENGTH cfg);
  inv_full : CmdBufIdxIn st = Z.of_nat (CLI_COMMAND_LENGTH cfg) ->
             IS_STATUS st CLI_STATUS_CMDOVF = true
             \/ IS_STATUS st CLI_STATUS_ECHO = false
}.

(** [a'] is [a] with some bytes set to zero. *)
Definition zeroing (a a' : bytes) : Prop :=
  List.length a' = List.length a
  /\ forall j, nth j a' NUL = nth j a NUL \/ nth j a' NUL = NUL.


(** The state [st] with the characters [w] in the command array, zeros
    after them, and the write index after the last of them. *)
Definition with_line (cfg : Config) (st : state) (w : bytes) : state :=
  set_CmdBufIdxIn
    (set_CommandBuffer st (w ++ zeros (CLI_COMMAND_LENGTH cfg - List.length w)))
    (Z.of_nat (List.length w)).

(** The cursor property of the line buffer. *)
Definition cursors_ok (cfg : Config) (st : state) : Prop :=
  0 <= CmdBufIdxOut st <= CmdBufIdxIn st
  /\ CmdBufIdxIn st <= Z.of_nat (CLI_COMMAND_LENGTH cfg).

(** A call reports failure when it returns a status other than
    [USBD_OK]. *)
Definition reports_failure (r : option (USBD_Status * state)) : Prop :=
  exists s st', r = Some (s, st') /\ s <> USBD_OK.

(** The state a [CLI_Input] call leaves ([st] itself where the call is
    undefined). *)
Definition after_input (cfg : Config) (pInput : bytes) (st : state) : state :=
  match CLI_Input cfg pInput st with
  | Some (_, st') => st'
  | None => st
  end.

(** The state after the line [GET_LOG 1] arrives in one call. *)
Definition name_arg_dispatched : state :=
  Eval vm_compute in
    after_input demo (lit "GET_LOG 1" ++ [CR; LF]) (completed_cycle demo NULL).

(** The states on which [CLI_Input] calls [InvokeCommand] for the lines
    [FOO] and [GET_LOG 1]: the terminator's first byte already replaced. *)
Definition unknown_line : state :=
  with_line demo (completed_cycle demo NULL) (lit "FOO" ++ [NUL; LF]).

Definition invalid_line : state :=
  with_line demo (completed_cycle demo NULL) (lit "GET_LOG 1" ++ [NUL; LF]).

Definition alphabet : string := "abcdefghijklmnopqrstuvwxyz".

(** What [CLI_Input] does once the buffered characters [W] hold the
    terminator at offset [pNL]: lines 108 to 114. *)
Definition dispatch_line (cfg : Config) (st : state) (W : bytes) (pNL : nat)
  : option (USBD_Status * state) :=
  a <- poke (W ++ zeros (CLI_COMMAND_LENGTH cfg - List.length W)) pNL NUL ;;
  '(p, st2) <- InvokeCommand cfg (set_CommandBuffer (with_line cfg st W) a) ;;
  Some (USBD_OK,
        SET_STATUS (set_pResponse st2 p) (Z.lor CLI_STATUS_BUSY CLI_STATUS_BREAK)).

(** The state [InvokeCommand] leaves for the line [GET_LOG 1]. *)
Definition invalid_invoked : state :=
  Eval vm_compute in
    match InvokeCommand demo invalid_line with
    | Some (_, st') => st'
    | None => invalid_line
    end.

(** What the reachable states keep beside [Inv]: the response array holds
    a terminator, the response pointer never points into the command
    array, and while a line is being typed the bytes still to be echoed
    hold no terminator. *)
Record Inv2 (cfg : Config) (st : state) : Prop := {
  inv2_inv : Inv cfg st;
  inv2_resp : exists j, (j < List.length (ResponseBuffer st))%nat
                        /\ nth j (ResponseBuffer st) NUL = NUL;
  inv2_ptr : forall i, pResponse st <> CommandBuffer_at i;
  inv2_pending :
    IS_STATUS st CLI_STATUS_ECHO = true ->
    IS_STATUS st CLI_STATUS_BREAK = false ->
    IS_STATUS st CLI_STATUS_CMDOVF = false ->
    forall j, (Z.to_nat (CmdBufIdxOut st) <= j < Z.to_nat (CmdBufIdxIn st))%nat ->
              nth j (CommandBuffer st) NUL <> NUL
}.

(** A bound on the fragments the polls still return before one returns
    nothing. *)
Definition polls_left (st : state) : nat :=
  if IS_ANY_STATUS st CLI_STATUS_ERROR_MASK then 0
  else if IS_STATUS st CLI_STATUS_ECHO then
    if CmdBufIdxOut st <? CmdBufIdxIn st
    then (if IS_STATUS st CLI_STATUS_BREAK then 5 else 1)
    else 0
  else
    (if IS_STATUS st CLI_STATUS_NEWLINE then 1 else 0)
    + (if IS_STATUS st CLI_STATUS_RESPONSE then 3
       else if IS_STATUS st CLI_STATUS_PROMPT then 1 else 0).

(** * Properties *)

(** ** Arrays *)

Lemma poke_length a i c a' : poke a i c = Some a' -> List.length a' = List.length a.
Proof.
  revert i a'; induction a as [|x a IH]; intros [|i] a' H; simpl in H; try discriminate.
  - injection H as <-; reflexivity.
  - destruct (poke a i c) eqn:E; simpl in H; [|discriminate].
    injection H as <-; simpl; f_equal; eauto.
Qed.

Lemma poke_defined a i c : (i < List.length a)%nat -> exists a', poke a i c = Some a'.
Proof.
  revert i; induction a as [|x a IH]; intros [|i] H; simpl in *; try lia.
  - eauto.
  - destruct (IH i) as [a' E]; [lia|]. rewrite E; simpl; eauto.
Qed.

Lemma poke_inside a i c a' : poke a i c = Some a' -> (i < List.length a)%nat.
Proof.
  revert i a'; induction a as [|x a IH]; intros [|i] a' H; simpl in *; try discriminate; try lia.
  destruct (poke a i c) eqn:E; simpl in H; [|discriminate].
  apply IH in E; lia.
Qed.

Lemma poke_nth a i c a' j d :
  poke a i c = Some a' -> nth j a' d = if (j =? i)%nat then c else nth j a d.
Proof.
  revert i a' j; induction a as [|x a IH]; intros [|i] a' [|j] H; simpl in H; try discriminate.
  - injection H as <-; reflexivity.
  - injection H as <-; reflexivity.
  - destruct (poke a i c) eqn:E; simpl in H; [|discriminate]. injection H as <-; reflexivity.
  - destruct (poke a i c) eqn:E; simpl in H; [|discriminate]. injection H as <-.
    simpl. erewrite IH by eassumption. reflexivity.
Qed.

Lemma poke_app a i c a' r : poke a i c = Some a' -> poke (a ++ r) i c = Some (a' ++ r).
Proof.
  revert i a'; induction a as [|x a IH]; intros [|i] a' H; simpl in H; try discriminate.
  - injection H as <-; reflexivity.
  - destruct (poke a i c) eqn:E; simpl in H; [|discriminate]. injection H as <-.
    simpl. rewrite (IH _ _ E). reflexivity.
Qed.

Lemma poke_middle l x r c : poke (l ++ x :: r) (List.length l) c = Some (l ++ c :: r).
Proof.
  induction l as [|y l IH]; simpl; [reflexivity|]. rewrite IH; reflexivity.
Qed.

Lemma peek_app a i c r : peek a i = Some c -> peek (a ++ r) i = Some c.
Proof.
  unfold peek; intros H. rewrite nth_error_app1; [assumption|].
  apply nth_error_Some; congruence.
Qed.

Lemma peek_nth a i : (i < List.length a)%nat -> peek a i = Some (nth i a NUL).
Proof. intros H; unfold peek; apply nth_error_nth'; assumption. Qed.

Lemma nth_skipn (a : bytes) o j d : nth j (skipn o a) d = nth (o + j) a d.
Proof.
  revert a; induction o as [|o IH]; intros a; simpl; [reflexivity|].
  destruct a as [|x a]; simpl; [destruct j; reflexivity|]. apply IH.
Qed.

Lemma skipn_app_defined (a r : bytes) o :
  (o <= List.length a)%nat -> skipn o (a ++ r) = skipn o a ++ r.
Proof.
  intros H. rewrite skipn_app. replace (o - List.length a)%nat with 0%nat by lia. reflexivity.
Qed.

Lemma zeroing_refl a : zeroing a a.
Proof. split; auto. Qed.

Lemma zeroing_trans a b c : zeroing a b -> zeroing b c -> zeroing a c.
Proof.
  intros [L1 H1] [L2 H2]; split; [congruence|].
  intros j. destruct (H2 j) as [E|E]; [rewrite E; apply H1 | auto].
Qed.

Lemma zeroing_poke a i a' : poke a i NUL = Some a' -> zeroing a a'.
Proof.
  intros H; split; [eapply poke_length; eassumption|].
  intros j. rewrite (poke_nth _ _ _ _ j NUL H). destruct (j =? i)%nat; auto.
Qed.

Lemma zeroing_zero_from a a' i : zeroing a a' -> zero_from a i -> zero_from a' i.
Proof.
  intros [_ H] Hz j Hj. destruct (H j) as [E|E]; [rewrite E; auto | assumption].
Qed.

(** ** Strings *)

Lemma eqb_NUL_SP : Ascii.eqb NUL SP = false.
Proof. reflexivity. Qed.

Lemma strlen_spec s n :
  strlen s = Some n ->
  (n < List.length s)%nat /\ nth n s NUL = NUL
  /\ forall j, (j < n)%nat -> nth j s NUL <> NUL.
Proof.
  revert n; induction s as [|c s IH]; intros n H; simpl in H; [discriminate|].
  destruct (Ascii.eqb_spec c NUL) as [->|Hc].
  - injection H as <-. simpl; repeat split; [lia | intros; lia].
  - destruct (strlen s) as [m|] eqn:E; simpl in H; [|discriminate].
    injection H as <-. destruct (IH m eq_refl) as (A & B & C).
    simpl; repeat split; [lia | assumption |].
    intros [|j] Hj; [assumption | apply C; lia].
Qed.

Lemma strlen_found s j :
  (j < List.length s)%nat -> nth j s NUL = NUL ->
  exists n, strlen s = Some n /\ (n <= j)%nat.
Proof.
  revert j; induction s as [|c s IH]; intros j Hj Hn; simpl in *; [lia|].
  destruct (Ascii.eqb_spec c NUL) as [->|Hc].
  - exists 0%nat; split; [reflexivity | lia].
  - destruct j as [|j]; [congruence|].
    destruct (IH j) as (n & E & Hle); [lia | assumption |].
    rewrite E; simpl. exists (S n); split; [reflexivity | lia].
Qed.

Lemma strlen_at a o j :
  (o <= j)%nat -> (j < List.length a)%nat -> nth j a NUL = NUL ->
  exists n, strlen (skipn o a) = Some n /\ (o + n <= j)%nat.
Proof.
  intros Ho Hj Hn.
  destruct (strlen_found (skipn o a) (j - o)) as (n & E & Hle).
  - rewrite length_skipn; lia.
  - rewrite nth_skipn. replace (o + (j - o))%nat with j by lia. assumption.
  - exists n; split; [assumption | lia].
Qed.

Lemma strlen_at_spec a o n :
  strlen (skipn o a) = Some n ->
  (o + n < List.length a)%nat /\ nth (o + n) a NUL = NUL
  /\ forall j, (o <= j < o + n)%nat -> nth j a NUL <> NUL.
Proof.
  intros H. destruct (strlen_spec _ _ H) as (A & B & C).
  rewrite length_skipn in A. rewrite nth_skipn in B.
  repeat split; [lia | assumption |].
  intros j Hj. specialize (C (j - o)%nat). rewrite nth_skipn in C.
  replace (o + (j - o))%nat with j in C by lia. apply C; lia.
Qed.

Lemma strlen_app s n r : strlen s = Some n -> strlen (s ++ r) = Some n.
Proof.
  revert n; induction s as [|c s IH]; intros n H; simpl in *; [discriminate|].
  destruct (Ascii.eqb c NUL); [assumption|].
  destruct (strlen s) as [m|]; simpl in H; [|discriminate].
  rewrite (IH m eq_refl); assumption.
Qed.

Lemma strlen_chars l r : Forall (fun c => c <> NUL) l -> strlen (l ++ NUL :: r) = Some (List.length l).
Proof.
  induction 1 as [|c l Hc Hl IH]; simpl; [reflexivity|].
  destruct (Ascii.eqb_spec c NUL); [contradiction|]. rewrite IH; reflexivity.
Qed.

Lemma cstr_app s x r : cstr s = Some x -> cstr (s ++ r) = Some x.
Proof.
  unfold cstr; intros H. destruct (strlen s) as [n|] eqn:E; [|discriminate].
  rewrite (strlen_app _ _ r E). injection H as <-.
  destruct (strlen_spec _ _ E) as (A & _).
  rewrite firstn_app. replace (n - List.length s)%nat with 0%nat by lia.
  simpl; rewrite app_nil_r; reflexivity.
Qed.

Lemma cstr_chars l r : Forall (fun c => c <> NUL) l -> cstr (l ++ NUL :: r) = Some l.
Proof.
  intros H; unfold cstr. rewrite strlen_chars by assumption.
  rewrite firstn_app, firstn_all, Nat.sub_diag; simpl. rewrite app_nil_r; reflexivity.
Qed.

Lemma cstr_lit0_defined s : exists x, cstr (lit0 s) = Some x.
Proof.
  unfold cstr, lit0.
  destruct (strlen_found (lit s ++ [NUL]) (List.length (lit s))) as (n & E & _).
  - rewrite length_app; simpl; lia.
  - rewrite app_nth2, Nat.sub_diag by lia; reflexivity.
  - rewrite E; eauto.
Qed.

(** ** The status word, bit by bit *)

Lemma land_pow2 s k :
  0 <= k -> Z.land s (2 ^ k) = if Z.testbit s k then 2 ^ k else 0.
Proof.
  intros Hk. apply Z.bits_inj'; intros n Hn.
  rewrite Z.land_spec, Z.pow2_bits_eqb by assumption.
  destruct (Z.eqb_spec k n) as [->|Hne].
  - destruct (Z.testbit s n); simpl.
    + rewrite Z.pow2_bits_eqb, Z.eqb_refl by assumption; reflexivity.
    + rewrite Z.bits_0; reflexivity.
  - rewrite andb_false_r. destruct (Z.testbit s k).
    + rewrite Z.pow2_bits_eqb by assumption.
      destruct (Z.eqb_spec k n); [contradiction | reflexivity].
    + rewrite Z.bits_0; reflexivity.
Qed.

Lemma IS_STATUS_bit st k :
  0 <= k -> IS_STATUS st (2 ^ k) = Z.testbit (CLI_Status st) k.
Proof.
  intros Hk; unfold IS_STATUS. rewrite land_pow2 by assumption.
  destruct (Z.testbit (CLI_Status st) k).
  - apply Z.eqb_refl.
  - apply Z.eqb_neq. assert (0 < 2 ^ k) by (apply Z.pow_pos_nonneg; lia). lia.
Qed.

Lemma IS_ECHO st : IS_STATUS st CLI_STATUS_ECHO = Z.testbit (CLI_Status st) 0.
Proof. apply (IS_STATUS_bit st 0); lia. Qed.
Lemma IS_NEWLINE st : IS_STATUS st CLI_STATUS_NEWLINE = Z.testbit (CLI_Status st) 1.
Proof. apply (IS_STATUS_bit st 1); lia. Qed.
Lemma IS_PROMPT st : IS_STATUS st CLI_STATUS_PROMPT = Z.testbit (CLI_Status st) 2.
Proof. apply (IS_STATUS_bit st 2); lia. Qed.
Lemma IS_RESPONSE st : IS_STATUS st CLI_STATUS_RESPONSE = Z.testbit (CLI_Status st) 3.
Proof. apply (IS_STATUS_bit st 3); lia. Qed.
Lemma IS_BREAK st : IS_STATUS st CLI_STATUS_BREAK = Z.testbit (CLI_Status st) 4.
Proof. apply (IS_STATUS_bit st 4); lia. Qed.
Lemma IS_BUSY st : IS_STATUS st CLI_STATUS_BUSY = Z.testbit (CLI_Status st) 5.
Proof. apply (IS_STATUS_bit st 5); lia. Qed.
Lemma IS_CMDOVF st : IS_STATUS st CLI_STATUS_CMDOVF = Z.testbit (CLI_Status st) 8.
Proof. apply (IS_STATUS_bit st 8); lia. Qed.

Lemma err_bits s :
  Z.land s 0xE00 = 0 <->
  Z.testbit s 9 = false /\ Z.testbit s 10 = false /\ Z.testbit s 11 = false.
Proof.
  change 0xE00 with (Z.lor (Z.lor (2 ^ 9) (2 ^ 10)) (2 ^ 11)).
  rewrite !Z.land_lor_distr_r, !Z.lor_eq_0_iff, !land_pow2 by lia.
  destruct (Z.testbit s 9), (Z.testbit s 10), (Z.testbit s 11);
    split; intros H; (repeat split; try reflexivity); destruct H as ((? & ?) & ?) || destruct H as (? & ? & ?);
    discriminate.
Qed.

Lemma IS_ANY_error st :
  Z.land (CLI_Status st) 0xE00 = 0 ->
  IS_ANY_STATUS st CLI_STATUS_ERROR_MASK = Z.testbit (CLI_Status st) 8.
Proof.
  intros H; unfold IS_ANY_STATUS.
  change CLI_STATUS_ERROR_MASK with (Z.lor (2 ^ 8) 0xE00).
  rewrite Z.land_lor_distr_r, H, Z.lor_0_r, land_pow2 by lia.
  destruct (Z.testbit (CLI_Status st) 8); reflexivity.
Qed.

Lemma testbit_u16 x k : 0 <= k < 16 -> Z.testbit (u16 x) k = Z.testbit x k.
Proof.
  intros Hk; unfold u16. change 65536 with (2 ^ 16).
  apply Z.mod_pow2_bits_low; lia.
Qed.

Lemma bit_SET st f k :
  0 <= k < 16 ->
  Z.testbit (CLI_Status (SET_STATUS st f)) k
  = Z.testbit (CLI_Status st) k || Z.testbit f k.
Proof. intros Hk; simpl. rewrite testbit_u16, Z.lor_spec by assumption; reflexivity. Qed.

Lemma bit_CLEAR st f k :
  0 <= k < 16 ->
  Z.testbit (CLI_Status (CLEAR_STATUS st f)) k
  = Z.testbit (CLI_Status st) k && negb (Z.testbit f k).
Proof.
  intros Hk; simpl.
  rewrite testbit_u16, Z.land_spec, Z.lnot_spec by lia; reflexivity.
Qed.

Lemma bit_UPDATE st sf cf k :
  0 <= k < 16 ->
  Z.testbit (CLI_Status (UPDATE_STATUS st sf cf)) k
  = (Z.testbit (CLI_Status st) k && negb (Z.testbit cf k)) || Z.testbit sf k.
Proof.
  intros Hk; simpl.
  rewrite testbit_u16, Z.lor_spec, testbit_u16, Z.land_spec, Z.lnot_spec by lia.
  reflexivity.
Qed.

(** Rewrites every flag test into the bit it reads. *)
Ltac flags :=
  rewrite ?IS_ECHO, ?IS_NEWLINE, ?IS_PROMPT, ?IS_RESPONSE, ?IS_BREAK, ?IS_BUSY,
    ?IS_CMDOVF in *;
  rewrite ?bit_SET, ?bit_CLEAR, ?bit_UPDATE by lia.

(** ** The line buffer *)

Lemma IS_CHAR_VALID_not_NUL c : IS_CHAR_VALID c = true -> c <> NUL.
Proof. intros H ->; discriminate. Qed.

Lemma filter_valid_not_NUL l : Forall (fun c => c <> NUL) (filter IS_CHAR_VALID l).
Proof.
  apply Forall_forall; intros c Hc. apply filter_In in Hc.
  apply IS_CHAR_VALID_not_NUL, Hc.
Qed.

Lemma u16_small x : 0 <= x < 65536 -> u16 x = x.
Proof. intros H; unfold u16; apply Z.mod_small; assumption. Qed.

Lemma zeros_S n : zeros (S n) = NUL :: zeros n.
Proof. reflexivity. Qed.

Lemma zeros_length n : List.length (zeros n) = n.
Proof. apply repeat_length. Qed.

Lemma nth_zeros n j : nth j (zeros n) NUL = NUL.
Proof.
  revert j; induction n as [|n IH]; intros [|j]; simpl; auto.
Qed.

Lemma zero_from_shape a i :
  zero_from a i -> (i <= List.length a)%nat ->
  a = firstn i a ++ zeros (List.length a - i).
Proof.
  intros Hz Hi. apply (nth_ext _ _ NUL NUL).
  - rewrite length_app, length_firstn, zeros_length; lia.
  - intros j Hj. destruct (Nat.lt_ge_cases j i) as [Hlt|Hge].
    + rewrite app_nth1 by (rewrite length_firstn; lia).
      rewrite nth_firstn. destruct (Nat.ltb_spec j i); [reflexivity | lia].
    + rewrite app_nth2 by (rewrite length_firstn; lia).
      rewrite nth_zeros. apply Hz; assumption.
Qed.

Lemma zero_from_line (w : bytes) n i :
  (List.length w <= i)%nat -> zero_from (w ++ zeros n) i.
Proof.
  intros Hi j Hj. rewrite app_nth2 by lia. apply nth_zeros.
Qed.

(** What [BufferInput] does to a buffer holding the characters [w]: it
    appends the accepted bytes of the input until the array is full. *)
Lemma BufferInput_with_line cfg pInput st w :
  (List.length w < CLI_COMMAND_LENGTH cfg)%nat ->
  Z.of_nat (CLI_COMMAND_LENGTH cfg) <= 65535 ->
  BufferInput cfg pInput (with_line cfg st w)
  = Some (if (List.length (w ++ filter IS_CHAR_VALID pInput) <? CLI_COMMAND_LENGTH cfg)%nat
          then CLI_RESULT_OK else CLI_RESULT_FAIL,
          with_line cfg st (firstn (CLI_COMMAND_LENGTH cfg)
                                   (w ++ filter IS_CHAR_VALID pInput))).
Proof.
  intros Hw HN. revert w Hw; induction pInput as [|c rest IH]; intros w Hw.
  - simpl. rewrite app_nil_r.
    destruct (Nat.ltb_spec (List.length w) (CLI_COMMAND_LENGTH cfg)); [|lia].
    rewrite firstn_all2 by lia. reflexivity.
  - simpl. destruct (IS_CHAR_VALID c) eqn:Hc; [|apply IH; assumption].
    rewrite Nat2Z.id.
    replace (CLI_COMMAND_LENGTH cfg - List.length w)%nat
      with (S (CLI_COMMAND_LENGTH cfg - S (List.length w))) by lia.
    rewrite zeros_S, poke_middle.
    rewrite u16_small by lia.
    assert (E : set_CmdBufIdxIn
                  (set_CommandBuffer (with_line cfg st w)
                     (w ++ c :: zeros (CLI_COMMAND_LENGTH cfg - S (List.length w))))
                  (Z.of_nat (List.length w) + 1)
                = with_line cfg st (w ++ [c])).
    { unfold with_line, set_CmdBufIdxIn, set_CommandBuffer; simpl.
      rewrite <- app_assoc, length_app; simpl.
      replace (List.length w + 1)%nat with (S (List.length w)) by lia.
      f_equal. lia. }
    rewrite E.
    replace (w ++ c :: filter IS_CHAR_VALID rest)
      with ((w ++ [c]) ++ filter IS_CHAR_VALID rest)
      by (rewrite <- app_assoc; reflexivity).
    assert (L : List.length (w ++ [c]) = S (List.length w))
      by (rewrite length_app; simpl; lia).
    destruct (Z.leb_spec (Z.of_nat (CLI_COMMAND_LENGTH cfg))
                         (Z.of_nat (List.length w) + 1)) as [Hfull|Hfull].
    + destruct (Nat.ltb_spec (List.length ((w ++ [c]) ++ filter IS_CHAR_VALID rest))
                             (CLI_COMMAND_LENGTH cfg)) as [Hlt|_].
      * rewrite length_app, L in Hlt; lia.
      * rewrite firstn_app, firstn_all2 by lia.
        replace (CLI_COMMAND_LENGTH cfg - List.length (w ++ [c]))%nat with 0%nat by lia.
        rewrite firstn_0, app_nil_r. reflexivity.
    + apply IH. lia.
Qed.

(** ** The dispatcher: every step stays inside a terminated array *)

Lemma zeroing_keeps_NUL a a' j : zeroing a a' -> nth j a NUL = NUL -> nth j a' NUL = NUL.
Proof. intros [_ H] Hj. destruct (H j) as [E|E]; congruence. Qed.

Lemma skipn_app_nonempty (a r : bytes) o :
  skipn o a <> [] -> skipn o (a ++ r) = skipn o a ++ r.
Proof.
  intros H. apply skipn_app_defined.
  destruct (Nat.le_gt_cases o (List.length a)); [assumption|].
  exfalso; apply H, skipn_all2; lia.
Qed.

Lemma StrTrim_bound s n : strlen s = Some n -> exists t, StrTrim s = Some t /\ (t <= n)%nat.
Proof.
  revert n; induction s as [|c s IH]; intros n H; simpl in *; [discriminate|].
  destruct (Ascii.eqb_spec c NUL) as [->|Hc].
  - rewrite eqb_NUL_SP. exists 0%nat; split; [reflexivity | lia].
  - destruct (strlen s) as [m|]; simpl in H; [|discriminate]. injection H as <-.
    destruct (Ascii.eqb c SP).
    + destruct (IH m eq_refl) as (t & E & Ht). rewrite E; simpl.
      exists (S t); split; [reflexivity | lia].
    + exists 0%nat; split; [reflexivity | lia].
Qed.

Lemma StrTrim_at a o j :
  (o <= j)%nat -> (j < List.length a)%nat -> nth j a NUL = NUL ->
  exists t, StrTrim (skipn o a) = Some t /\ (o + t <= j)%nat.
Proof.
  intros Ho Hj Hn. destruct (strlen_at a o j Ho Hj Hn) as (n & E & Hle).
  destruct (StrTrim_bound _ _ E) as (t & Et & Ht). exists t; split; [assumption | lia].
Qed.

Lemma StrTrim_app s t r : StrTrim s = Some t -> StrTrim (s ++ r) = Some t.
Proof.
  revert t; induction s as [|c s IH]; intros t H; simpl in *; [discriminate|].
  destruct (Ascii.eqb c SP); [|assumption].
  destruct (StrTrim s) as [u|]; simpl in H; [|discriminate].
  rewrite (IH u eq_refl); assumption.
Qed.

Lemma StrTrimR_loop_defined a pStr k :
  (pStr + k <= List.length a)%nat ->
  exists a', StrTrimR_loop a pStr k = Some a' /\ zeroing a a'.
Proof.
  revert a; induction k as [|k IH]; intros a H; simpl.
  - exists a; split; [reflexivity | apply zeroing_refl].
  - rewrite peek_nth by lia.
    destruct (Ascii.eqb (nth (pStr + k) a NUL) SP).
    + destruct (poke_defined a (pStr + k) NUL) as [a1 E]; [lia|]. rewrite E.
      destruct (IH a1) as (a' & E' & Hz).
      * rewrite (poke_length _ _ _ _ E); lia.
      * exists a'; split; [assumption|].
        eapply zeroing_trans; [eapply zeroing_poke|]; eassumption.
    + exists a; split; [reflexivity | apply zeroing_refl].
Qed.

Lemma StrTrimR_loop_app a pStr k a' r :
  StrTrimR_loop a pStr k = Some a' -> StrTrimR_loop (a ++ r) pStr k = Some (a' ++ r).
Proof.
  revert a a'; induction k as [|k IH]; intros a a' H; simpl in *.
  - injection H as <-; reflexivity.
  - destruct (peek a (pStr + k)) as [c|] eqn:Ec; [|discriminate].
    rewrite (peek_app _ _ _ r Ec).
    destruct (Ascii.eqb c SP).
    + destruct (poke a (pStr + k) NUL) as [a1|] eqn:Ep; [|discriminate].
      rewrite (poke_app _ _ _ _ r Ep). apply IH; assumption.
    + injection H as <-; reflexivity.
Qed.

Lemma strchr_bound s n :
  strlen s = Some n ->
  exists r, strchr s SP = Some r /\ forall k, r = Some k -> (k < n)%nat.
Proof.
  revert n; induction s as [|c s IH]; intros n H; simpl in *; [discriminate|].
  destruct (Ascii.eqb_spec c NUL) as [->|Hc].
  - rewrite eqb_NUL_SP. exists None; split; [reflexivity | discriminate].
  - destruct (strlen s) as [m|]; simpl in H; [|discriminate]. injection H as <-.
    destruct (Ascii.eqb c SP).
    + exists (Some 0%nat); split; [reflexivity|]. intros k [= <-]; lia.
    + destruct (IH m eq_refl) as (r & E & Hr). rewrite E.
      exists (option_map S r); split; [reflexivity|].
      intros k Hk. destruct r as [k'|]; simpl in Hk; [|discriminate].
      injection Hk as <-. specialize (Hr k' eq_refl). lia.
Qed.

Lemma strchr_app s c x r : strchr s c = Some x -> strchr (s ++ r) c = Some x.
Proof.
  revert x; induction s as [|y s IH]; intros x H; simpl in *; [discriminate|].
  destruct (Ascii.eqb y c); [assumption|].
  destruct (Ascii.eqb y NUL); [assumption|].
  destruct (strchr s c) as [u|]; [|discriminate].
  rewrite (IH u eq_refl); assumption.
Qed.

Lemma cstr_at a o j :
  (o <= j)%nat -> (j < List.length a)%nat -> nth j a NUL = NUL ->
  exists x, cstr (skipn o a) = Some x.
Proof.
  intros Ho Hj Hn. destruct (strlen_at a o j Ho Hj Hn) as (n & E & _).
  unfold cstr; rewrite E; eauto.
Qed.

Lemma strlen_skipn_app a o n r :
  strlen (skipn o a) = Some n -> strlen (skipn o (a ++ r)) = Some n.
Proof.
  intros H. rewrite skipn_app_nonempty; [apply strlen_app; assumption|].
  intros E; rewrite E in H; discriminate.
Qed.

Lemma StrTrim_skipn_app a o t r :
  StrTrim (skipn o a) = Some t -> StrTrim (skipn o (a ++ r)) = Some t.
Proof.
  intros H. rewrite skipn_app_nonempty; [apply StrTrim_app; assumption|].
  intros E; rewrite E in H; discriminate.
Qed.

Lemma strchr_skipn_app a o c x r :
  strchr (skipn o a) c = Some x -> strchr (skipn o (a ++ r)) c = Some x.
Proof.
  intros H. rewrite skipn_app_nonempty; [apply strchr_app; assumption|].
  intros E; rewrite E in H; discriminate.
Qed.

Lemma cstr_skipn_app a o x r :
  cstr (skipn o a) = Some x -> cstr (skipn o (a ++ r)) = Some x.
Proof.
  intros H. rewrite skipn_app_nonempty; [apply cstr_app; assumption|].
  intros E; rewrite E in H; discriminate.
Qed.

(** On an array that holds a terminator the split is defined, only sets
    bytes to zero, and leaves a string at each pointer it returns. *)
Lemma InvokeCommand_split_defined a j :
  (j < List.length a)%nat -> nth j a NUL = NUL ->
  exists a' pCmd args,
    InvokeCommand_split a = Some (a', pCmd, args)
    /\ zeroing a a'
    /\ (exists x, cstr (skipn pCmd a') = Some x)
    /\ (forall i, args = Some (Some i) -> exists x, cstr (skipn i a') = Some x).
Proof.
  intros Hj Hn. unfold InvokeCommand_split, StrTrimR.
  destruct (StrTrim_at a 0 j) as (pCmd & Et & Hp); [lia | assumption | assumption |].
  simpl in Et, Hp. rewrite Et.
  destruct (strlen_at a pCmd j) as (n & En & Hle); [lia | assumption | assumption |].
  rewrite En.
  destruct (StrTrimR_loop_defined a pCmd n) as (a1 & E1 & Hz1); [lia|].
  rewrite E1.
  assert (L1 : List.length a1 = List.length a) by apply Hz1.
  assert (N1 : nth j a1 NUL = NUL) by (eapply zeroing_keeps_NUL; eassumption).
  destruct (strlen_at a1 pCmd j) as (n1 & En1 & Hle1); [lia | lia | assumption |].
  rewrite En1.
  destruct (u16 (Z.of_nat n1) =? 0).
  - exists a1, pCmd, None. repeat split; try apply Hz1.
    + unfold cstr; rewrite En1; eauto.
    + discriminate.
  - destruct (strchr_bound _ _ En1) as (r & Er & Hr). rewrite Er.
    destruct r as [k|].
    + specialize (Hr k eq_refl).
      destruct (strlen_at_spec _ _ _ En1) as (B1 & B2 & _).
      destruct (poke_defined a1 (pCmd + k) NUL) as (a2 & E2); [lia|]. rewrite E2.
      assert (Hz2 : zeroing a1 a2) by (eapply zeroing_poke; eassumption).
      assert (L2 : List.length a2 = List.length a1) by apply Hz2.
      assert (N2 : nth (pCmd + n1) a2 NUL = NUL) by (eapply zeroing_keeps_NUL; eassumption).
      destruct (StrTrim_at a2 (pCmd + k + 1) (pCmd + n1)) as (t & Et2 & Ht2);
        [lia | lia | assumption |].
      rewrite Et2.
      exists a2, pCmd, (Some (Some (pCmd + k + 1 + t)%nat)).
      repeat split.
      * congruence.
      * intros i. destruct Hz2 as [_ Hz2]. destruct Hz1 as [_ Hz1].
        destruct (Hz2 i) as [E|E]; [rewrite E; apply Hz1 | auto].
      * apply (cstr_at a2 pCmd (pCmd + n1)); [lia | lia | assumption].
      * intros i [= <-]. apply (cstr_at a2 _ (pCmd + n1)); [lia | lia | assumption].
    + exists a1, pCmd, (Some None). repeat split; try apply Hz1.
      * unfold cstr; rewrite En1; eauto.
      * discriminate.
Qed.

(** The split reads and writes nothing beyond the array it is defined on. *)
Lemma InvokeCommand_split_app a a' pCmd args r :
  InvokeCommand_split a = Some (a', pCmd, args) ->
  InvokeCommand_split (a ++ r) = Some (a' ++ r, pCmd, args).
Proof.
  unfold InvokeCommand_split, StrTrimR. intros H.
  destruct (StrTrim a) as [p|] eqn:Et; [|discriminate].
  rewrite (StrTrim_app _ _ r Et).
  destruct (strlen (skipn p a)) as [n|] eqn:En; [|discriminate].
  rewrite (strlen_skipn_app _ _ _ r En).
  destruct (StrTrimR_loop a p n) as [a1|] eqn:E1; [|discriminate].
  rewrite (StrTrimR_loop_app _ _ _ _ r E1).
  destruct (strlen (skipn p a1)) as [n1|] eqn:En1; [|discriminate].
  rewrite (strlen_skipn_app _ _ _ r En1).
  destruct (u16 (Z.of_nat n1) =? 0).
  - injection H as <- <- <-; reflexivity.
  - destruct (strchr (skipn p a1) SP) as [x|] eqn:Ec; [|discriminate].
    rewrite (strchr_skipn_app _ _ _ _ r Ec).
    destruct x as [k|].
    + destruct (poke a1 (p + k) NUL) as [a2|] eqn:E2; [|discriminate].
      rewrite (poke_app _ _ _ _ r E2).
      destruct (StrTrim (skipn (p + k + 1) a2)) as [t|] eqn:Et2; [|discriminate].
      rewrite (StrTrim_skipn_app _ _ _ r Et2).
      injection H as <- <- <-; reflexivity.
    + injection H as <- <- <-; reflexivity.
Qed.

Lemma StrTrim_inside s t : StrTrim s = Some t -> (t < List.length s)%nat.
Proof.
  revert t; induction s as [|c s IH]; intros t H; simpl in *; [discriminate|].
  destruct (Ascii.eqb c SP); [|injection H as <-; lia].
  destruct (StrTrim s) as [u|]; simpl in H; [|discriminate].
  injection H as <-. specialize (IH u eq_refl). lia.
Qed.

Lemma StrTrimR_loop_length a pStr k a' :
  StrTrimR_loop a pStr k = Some a' -> List.length a' = List.length a.
Proof.
  revert a a'; induction k as [|k IH]; intros a a' H; simpl in *.
  - injection H as <-; reflexivity.
  - destruct (peek a (pStr + k)) as [c|]; [|discriminate].
    destruct (Ascii.eqb c SP); [|injection H as <-; reflexivity].
    destruct (poke a (pStr + k) NUL) as [a1|] eqn:Ep; [|discriminate].
    rewrite (IH _ _ H). eapply poke_length; eassumption.
Qed.

Lemma InvokeCommand_split_inside a a' pCmd args :
  InvokeCommand_split a = Some (a', pCmd, args) ->
  List.length a' = List.length a /\ (pCmd < List.length a)%nat
  /\ forall i, args = Some (Some i) -> (i < List.length a)%nat.
Proof.
  unfold InvokeCommand_split, StrTrimR. intros H.
  destruct (StrTrim a) as [p|] eqn:Et; [|discriminate].
  apply StrTrim_inside in Et.
  destruct (strlen (skipn p a)) as [n|] eqn:En; [|discriminate].
  destruct (StrTrimR_loop a p n) as [a1|] eqn:E1; [|discriminate].
  apply StrTrimR_loop_length in E1.
  destruct (strlen (skipn p a1)) as [n1|] eqn:En1; [|discriminate].
  destruct (u16 (Z.of_nat n1) =? 0).
  - injection H as <- <- <-. repeat split; [assumption | assumption | discriminate].
  - destruct (strchr (skipn p a1) SP) as [x|] eqn:Ec; [|discriminate].
    destruct x as [k|].
    + destruct (poke a1 (p + k) NUL) as [a2|] eqn:E2; [|discriminate].
      apply poke_length in E2.
      destruct (StrTrim (skipn (p + k + 1) a2)) as [t|] eqn:Et2; [|discriminate].
      apply StrTrim_inside in Et2. rewrite length_skipn in Et2.
      injection H as <- <- <-. repeat split; [congruence | assumption |].
      intros i [= <-]. lia.
    + injection H as <- <- <-. repeat split; [assumption | assumption | discriminate].
Qed.

Lemma copy_bytes_spec pMsg : forall l x r,
  List.length x = List.length pMsg ->
  copy_bytes pMsg (List.length l) (l ++ x ++ r) = Some (l ++ pMsg ++ r).
Proof.
  induction pMsg as [|c m IH]; intros l x r Hx.
  - destruct x; [reflexivity | discriminate].
  - destruct x as [|y x]; [discriminate|]. simpl in Hx.
    simpl. rewrite poke_middle.
    replace (l ++ c :: x ++ r) with ((l ++ [c]) ++ x ++ r)
      by (rewrite <- app_assoc; reflexivity).
    replace (S (List.length l)) with (List.length (l ++ [c]))
      by (rewrite length_app; simpl; lia).
    rewrite IH by lia. rewrite <- app_assoc; reflexivity.
Qed.

Lemma copy_bytes_start pMsg pRes :
  (List.length pMsg <= List.length pRes)%nat ->
  copy_bytes pMsg 0 pRes = Some (pMsg ++ skipn (List.length pMsg) pRes).
Proof.
  intros H.
  rewrite <- (firstn_skipn (List.length pMsg) pRes) at 1.
  apply (copy_bytes_spec pMsg []). rewrite length_firstn; lia.
Qed.

Lemma copy_bytes_length (pMsg pRes : bytes) :
  (List.length pMsg <= List.length pRes)%nat ->
  List.length (pMsg ++ skipn (List.length pMsg) pRes) = List.length pRes.
Proof. intros H. rewrite length_app, length_skipn; lia. Qed.

Lemma ResponseError_notfound pRes :
  (List.length ErrorMessage_CmdNotFound <= List.length pRes)%nat ->
  ResponseError pRes ERRNO_CMD_NOTFOUND
  = Some (ErrorMessage_CmdNotFound ++ skipn (List.length ErrorMessage_CmdNotFound) pRes).
Proof.
  intros H. unfold ResponseError.
  change (ERRNO_CMD_NOTFOUND =? ERRNO_CMD_NOTFOUND) with true.
  apply copy_bytes_start; assumption.
Qed.

Lemma ResponseError_invalid pRes :
  (List.length ErrorMessage_ArgInvalid <= List.length pRes)%nat ->
  ResponseError pRes ERRNO_ARG_INVALID
  = Some (ErrorMessage_ArgInvalid ++ skipn (List.length ErrorMessage_ArgInvalid) pRes).
Proof.
  intros H. unfold ResponseError.
  change (ERRNO_ARG_INVALID =? ERRNO_CMD_NOTFOUND) with false.
  change (ERRNO_ARG_INVALID =? ERRNO_ARG_INVALID) with true.
  apply copy_bytes_start; assumption.
Qed.

Lemma seek_app s set C C' r :
  seek s set C = Some C' -> seek (s ++ r) set C = Some C'.
Proof.
  revert C; induction set as [|u set IH]; intros C H; simpl in *; [assumption|].
  unfold strcmp_eq in *.
  destruct (cstr s) as [x|] eqn:Ex; [|discriminate].
  rewrite (cstr_app _ _ r Ex).
  destruct (cstr (lit0 (name u))) as [y|]; [|discriminate].
  apply IH; assumption.
Qed.

Lemma seek_defined s x set C :
  cstr s = Some x ->
  exists C', seek s set C = Some C'
             /\ (C' = C \/ exists u, In u set /\ C' = command u).
Proof.
  intros Hx. revert C; induction set as [|u set IH]; intros C; simpl.
  - eauto.
  - unfold strcmp_eq. rewrite Hx.
    destruct (cstr_lit0_defined (name u)) as [y Ey]. rewrite Ey.
    destruct (IH (if bytes_eqb x y then command u else C)) as (C' & E & HC).
    exists C'; split; [assumption|].
    destruct HC as [->|(v & Hv & ->)].
    + destruct (bytes_eqb x y); eauto.
    + eauto.
Qed.

(** On a command array that holds a terminator, with handlers that stay
    inside the response array, [InvokeCommand] is defined; it sets bytes of
    the command array to zero and touches nothing else but the response. *)
Lemma InvokeCommand_defined cfg st j :
  handlers_ok cfg -> sizes_ok cfg ->
  List.length (ResponseBuffer st) = CLI_RESPONSE_LENGTH cfg ->
  (j < List.length (CommandBuffer st))%nat -> nth j (CommandBuffer st) NUL = NUL ->
  exists a r,
    InvokeCommand cfg st
    = Some (ResponseBuffer_ptr, set_ResponseBuffer (set_CommandBuffer st a) r)
    /\ zeroing (CommandBuffer st) a
    /\ List.length r = CLI_RESPONSE_LENGTH cfg.
Proof.
  intros Hh [_ Hs] Hr Hj Hn. unfold InvokeCommand.
  change (List.length ErrorMessage_CmdNotFound) with 27%nat in Hs.
  destruct (InvokeCommand_split_defined _ _ Hj Hn) as (a & pCmd & args & E & Hz & Hc & Ha).
  rewrite E. destruct args as [pArg|]; simpl.
  - destruct Hc as [x Hx].
    destruct (seek_defined _ _ (CommandSet cfg) ResponseError_CmdNotFound Hx)
      as (C & EC & HC).
    rewrite EC.
    assert (Harg : exists arg, arg_string a pArg = Some arg).
    { unfold arg_string. destruct pArg as [i|]; [|eauto].
      destruct (Ha i eq_refl) as [y Ey]. rewrite Ey; eauto. }
    destruct Harg as [arg ->].
    assert (Hcall : exists res r, C arg (ResponseBuffer st) = Some (res, r)
                                  /\ List.length r = CLI_RESPONSE_LENGTH cfg).
    { destruct HC as [->|(u & Hu & ->)].
      - unfold ResponseError_CmdNotFound.
        rewrite ResponseError_notfound by (change (List.length ErrorMessage_CmdNotFound) with 27%nat; lia).
        eexists _, _; split; [reflexivity|].
        rewrite copy_bytes_length; [assumption|].
        change (List.length ErrorMessage_CmdNotFound) with 27%nat; lia.
      - destruct (Hh u arg (ResponseBuffer st) Hu Hr) as (res & r & Er & Lr).
        exists res, r; split; [assumption | congruence]. }
    destruct Hcall as (res & r & -> & Lr).
    assert (Hr1 : exists r1,
               (if CLI_Result_eqb res CLI_RESULT_INVALID
                then ResponseError r ERRNO_ARG_INVALID else Some r) = Some r1
               /\ List.length r1 = CLI_RESPONSE_LENGTH cfg).
    { destruct (CLI_Result_eqb res CLI_RESULT_INVALID); [|eauto].
      rewrite ResponseError_invalid by (change (List.length ErrorMessage_ArgInvalid) with 26%nat; lia).
      eexists; split; [reflexivity|].
      rewrite copy_bytes_length; [assumption|].
      change (List.length ErrorMessage_ArgInvalid) with 26%nat; lia. }
    destruct Hr1 as (r1 & -> & Lr1).
    destruct (poke_defined r1 (CLI_RESPONSE_LENGTH cfg - 1) NUL) as [r2 E2]; [lia|].
    rewrite E2. exists a, r2; repeat split; try apply Hz.
    rewrite (poke_length _ _ _ _ E2); assumption.
  - destruct (poke_defined (ResponseBuffer st) 0 NUL) as [r Er]; [lia|].
    rewrite Er. exists a, r; repeat split; try apply Hz.
    rewrite (poke_length _ _ _ _ Er); assumption.
Qed.

(** ** The invariant *)

Arguments u16 : simpl never.
Arguments IS_STATUS : simpl never.
Arguments IS_ANY_STATUS : simpl never.
Arguments SET_STATUS : simpl never.
Arguments CLEAR_STATUS : simpl never.
Arguments UPDATE_STATUS : simpl never.

Lemma SET_STATUS_fields st f :
  CommandBuffer (SET_STATUS st f) = CommandBuffer st
  /\ ResponseBuffer (SET_STATUS st f) = ResponseBuffer st
  /\ CmdBufIdxIn (SET_STATUS st f) = CmdBufIdxIn st
  /\ CmdBufIdxOut (SET_STATUS st f) = CmdBufIdxOut st
  /\ pResponse (SET_STATUS st f) = pResponse st.
Proof. repeat split. Qed.

Lemma CLEAR_STATUS_fields st f :
  CommandBuffer (CLEAR_STATUS st f) = CommandBuffer st
  /\ ResponseBuffer (CLEAR_STATUS st f) = ResponseBuffer st
  /\ CmdBufIdxIn (CLEAR_STATUS st f) = CmdBufIdxIn st
  /\ CmdBufIdxOut (CLEAR_STATUS st f) = CmdBufIdxOut st
  /\ pResponse (CLEAR_STATUS st f) = pResponse st.
Proof. repeat split. Qed.

Lemma UPDATE_STATUS_fields st s c :
  CommandBuffer (UPDATE_STATUS st s c) = CommandBuffer st
  /\ ResponseBuffer (UPDATE_STATUS st s c) = ResponseBuffer st
  /\ CmdBufIdxIn (UPDATE_STATUS st s c) = CmdBufIdxIn st
  /\ CmdBufIdxOut (UPDATE_STATUS st s c) = CmdBufIdxOut st
  /\ pResponse (UPDATE_STATUS st s c) = pResponse st.
Proof. repeat split. Qed.

(** Reduces the fields of a state built by the setters and the status
    macros, and every flag test to a bit of the status before the call. *)
Ltac fields :=
  repeat first
    [ rewrite (proj1 (SET_STATUS_fields _ _))
    | rewrite (proj1 (proj2 (SET_STATUS_fields _ _)))
    | rewrite (proj1 (proj2 (proj2 (SET_STATUS_fields _ _))))
    | rewrite (proj1 (proj2 (proj2 (proj2 (SET_STATUS_fields _ _)))))
    | rewrite (proj1 (CLEAR_STATUS_fields _ _))
    | rewrite (proj1 (proj2 (CLEAR_STATUS_fields _ _)))
    | rewrite (proj1 (proj2 (proj2 (CLEAR_STATUS_fields _ _))))
    | rewrite (proj1 (proj2 (proj2 (proj2 (CLEAR_STATUS_fields _ _)))))
    | rewrite (proj1 (UPDATE_STATUS_fields _ _ _))
    | rewrite (proj1 (proj2 (UPDATE_STATUS_fields _ _ _)))
    | rewrite (proj1 (proj2 (proj2 (UPDATE_STATUS_fields _ _ _))))
    | rewrite (proj1 (proj2 (proj2 (proj2 (UPDATE_STATUS_fields _ _ _))))) ];
  cbn [CommandBuffer ResponseBuffer CmdBufIdxIn CmdBufIdxOut CLI_Status pResponse
       set_CommandBuffer set_ResponseBuffer set_CmdBufIdxIn set_CmdBufIdxOut
       set_pResponse set_CLI_Status ResetBuffer with_line].

Ltac eval_bits :=
  repeat match goal with
  | |- context [Z.testbit ?f ?k] =>
      lazymatch f with
      | CLI_Status _ => fail
      | _ => let v := eval vm_compute in (Z.testbit f k) in
             change (Z.testbit f k) with v
      end
  end.

Ltac bits :=
  flags; fields; eval_bits;
  cbn [negb];
  rewrite ?andb_true_r, ?andb_false_r, ?orb_false_r, ?orb_true_r.

Lemma Inv_initial cfg : sizes_ok cfg -> Inv cfg (initial_state cfg).
Proof.
  intros [HN _]. constructor; simpl.
  - apply zeros_length.
  - apply zeros_length.
  - lia.
  - lia.
  - intros j _; apply nth_zeros.
  - reflexivity.
  - intros _; lia.
  - intros E; lia.
Qed.

Lemma Inv_CLI_Output cfg st :
  sizes_ok cfg -> Inv cfg st ->
  exists p st', CLI_Output cfg st = Some (p, st') /\ Inv cfg st'.
Proof.
  intros [HN HR] I. pose proof I as [Lc Lr Ho Hi Hz He Ha Hf].
  pose proof (proj1 (err_bits _) He) as (E9 & E10 & E11).
  unfold CLI_Output. rewrite (IS_ANY_error st He). flags.
  destruct (Z.testbit (CLI_Status st) 8) eqn:B8.
  { eexists _, _; split; [reflexivity|].
    constructor; fields; try assumption.
    - apply err_bits. bits. auto.
    - bits. assumption.
    - intros _. right. bits. reflexivity. }
  destruct (Z.testbit (CLI_Status st) 0) eqn:B0.
  { destruct (Z.ltb_spec (CmdBufIdxOut st) (CmdBufIdxIn st)) as [Hlt|Hge].
    2:{ eexists _, _; split; [reflexivity | exact I]. }
    assert (HinN : CmdBufIdxIn st < Z.of_nat (CLI_COMMAND_LENGTH cfg)).
    { destruct (Z.eq_dec (CmdBufIdxIn st) (Z.of_nat (CLI_COMMAND_LENGTH cfg))) as [E|E]; [|lia].
      destruct (Hf E); discriminate. }
    destruct (strlen_at (CommandBuffer st) (Z.to_nat (CmdBufIdxOut st))
                (Z.to_nat (CmdBufIdxIn st))) as (n & En & Hn); [lia | lia | apply Hz; lia |].
    rewrite En. fields. rewrite En.
    assert (Eout : u16 (CmdBufIdxOut st + u16 (Z.of_nat n)) = CmdBufIdxOut st + Z.of_nat n).
    { rewrite (u16_small (Z.of_nat n)) by lia. apply u16_small; lia. }
    rewrite Eout. flags; fields.
    destruct (Z.testbit (CLI_Status st) 4) eqn:B4.
    - eexists _, _; split; [reflexivity|].
      constructor; fields; try assumption; try lia.
      apply err_bits. destruct (0 <? u16 (Z.of_nat n)); bits; auto.
    - eexists _, _; split; [reflexivity|].
      constructor; flags; fields; try assumption; try lia. }
  destruct (Z.testbit (CLI_Status st) 1) eqn:B1.
  { eexists _, _; split; [reflexivity|].
    constructor; fields; try assumption.
    - apply err_bits. bits. auto.
    - bits. assumption.
    - intros E. right. bits. assumption. }
  destruct (Z.testbit (CLI_Status st) 3) eqn:B3.
  { eexists _, _; split; [reflexivity|].
    constructor; fields; try assumption.
    - apply err_bits. bits. auto.
    - bits. assumption.
    - intros E. right. bits. assumption. }
  destruct (Z.testbit (CLI_Status st) 2) eqn:B2.
  { eexists _, _; split; [reflexivity|].
    constructor; fields.
    - apply zeros_length.
    - apply zeros_length.
    - lia.
    - lia.
    - intros j _; apply nth_zeros.
    - apply err_bits. bits. auto.
    - intros _; lia.
    - intros E; lia. }
  eexists _, _; split; [reflexivity|].
  constructor; fields; try assumption.
  - apply err_bits. bits. auto.
  - bits. discriminate.
  - intros E. right. bits. assumption.
Qed.

Lemma with_line_self cfg st :
  List.length (CommandBuffer st) = CLI_COMMAND_LENGTH cfg ->
  0 <= CmdBufIdxIn st <= Z.of_nat (CLI_COMMAND_LENGTH cfg) ->
  zero_from (CommandBuffer st) (Z.to_nat (CmdBufIdxIn st)) ->
  with_line cfg st (firstn (Z.to_nat (CmdBufIdxIn st)) (CommandBuffer st)) = st.
Proof.
  intros L Hi Hz. destruct st as [a r i o s p]; simpl in *.
  unfold with_line, set_CmdBufIdxIn, set_CommandBuffer; simpl.
  assert (Lf : List.length (firstn (Z.to_nat i) a) = Z.to_nat i)
    by (rewrite length_firstn; lia).
  rewrite Lf. f_equal.
  - rewrite <- L. symmetry; apply zero_from_shape; [assumption | lia].
  - lia.
Qed.

Lemma find_sub_bound n s p : find_sub n s = Some p -> (p <= List.length s)%nat.
Proof.
  revert p; induction s as [|c s IH]; intros p H; simpl in H.
  - destruct (is_prefix n []); [injection H as <-; simpl; lia | discriminate].
  - destruct (is_prefix n (c :: s)); [injection H as <-; simpl; lia|].
    destruct (find_sub n s) as [q|]; simpl in H; [|discriminate].
    injection H as <-. specialize (IH q eq_refl). simpl; lia.
Qed.

(** The terminator scan is defined on an array that holds a zero, and a
    match lies before that zero. *)
Lemma strstr_defined h s j :
  (j < List.length h)%nat -> nth j h NUL = NUL ->
  exists r, strstr h (lit0 s) = Some r
            /\ forall p, r = Some p -> (p <= j)%nat.
Proof.
  intros Hj Hn. unfold strstr, cstr.
  destruct (strlen_found h j Hj Hn) as (n & En & Hle). rewrite En.
  destruct (cstr_lit0_defined s) as [y Ey]. unfold cstr in Ey.
  destruct (strlen (lit0 s)) as [m|]; [|discriminate].
  eexists; split; [reflexivity|].
  intros p Hp. apply find_sub_bound in Hp. rewrite length_firstn in Hp. lia.
Qed.

Lemma Inv_CLI_Input cfg pInput st :
  handlers_ok cfg -> sizes_ok cfg -> Inv cfg st ->
  exists st', CLI_Input cfg pInput st = Some (USBD_OK, st') /\ Inv cfg st'.
Proof.
  intros Hh Hs I. pose proof Hs as [HN HR]. pose proof I as [Lc Lr Ho Hi Hz He Ha Hf].
  pose proof (proj1 (err_bits _) He) as (E9 & E10 & E11).
  unfold CLI_Input. flags.
  destruct (Z.testbit (CLI_Status st) 5) eqn:B5; simpl; [eauto|].
  destruct (List.length pInput =? 0)%nat; [eauto|].
  specialize (Ha eq_refl).
  set (w := firstn (Z.to_nat (CmdBufIdxIn st)) (CommandBuffer st)).
  assert (Lw : List.length w = Z.to_nat (CmdBufIdxIn st))
    by (unfold w; rewrite length_firstn; lia).
  pose proof (BufferInput_with_line cfg pInput st w) as HB.
  unfold w in HB at 2. rewrite with_line_self in HB by (assumption || lia).
  rewrite HB by lia. clear HB.
  set (f := filter IS_CHAR_VALID pInput).
  destruct (Nat.ltb_spec (List.length (w ++ f)) (CLI_COMMAND_LENGTH cfg)) as [Hroom|Hfull];
    cbn [CLI_Result_eqb negb].
  - rewrite firstn_all2 by lia.
    assert (LW : List.length ((w ++ f) ++ zeros (CLI_COMMAND_LENGTH cfg - List.length (w ++ f)))
                 = CLI_COMMAND_LENGTH cfg)
      by (rewrite length_app, zeros_length; lia).
    assert (Lwf : (List.length w <= List.length (w ++ f))%nat)
      by (rewrite length_app; lia).
    destruct (strstr_defined
                (CommandBuffer (with_line cfg st (w ++ f))) (CLI_STRING_NEWLINE cfg)
                (List.length (w ++ f))) as (r & Er & Hr).
    { fields. lia. }
    { fields. apply (zero_from_line (w ++ f) _ (List.length (w ++ f))); lia. }
    unfold String_Newline. rewrite Er.
    destruct r as [pNL|].
    + specialize (Hr pNL eq_refl).
      destruct (poke_defined (CommandBuffer (with_line cfg st (w ++ f))) pNL NUL)
        as [a Ea]; [fields; lia|].
      rewrite Ea.
      destruct (InvokeCommand_defined cfg
                  (set_CommandBuffer (with_line cfg st (w ++ f)) a) pNL Hh Hs)
        as (a' & r' & E' & Hz' & Lr').
      { fields; assumption. }
      { fields. rewrite (poke_length _ _ _ _ Ea). fields. lia. }
      { fields. rewrite (poke_nth _ _ _ _ pNL NUL Ea), Nat.eqb_refl; reflexivity. }
      rewrite E'. eexists; split; [reflexivity|].
      assert (Za : zeroing (CommandBuffer (with_line cfg st (w ++ f))) a)
        by (eapply zeroing_poke; eassumption).
      cbn [CommandBuffer set_CommandBuffer] in Hz'.
      pose proof (zeroing_trans _ _ _ Za Hz') as Zt. fields; cbn [CommandBuffer with_line set_CommandBuffer set_CmdBufIdxIn] in Zt.
      constructor; fields; try assumption; try lia.
      * destruct Zt as [-> _]. assumption.
      * eapply zeroing_zero_from; [eassumption|].
        apply zero_from_line; rewrite ?LW; lia.
      * apply err_bits. bits. auto.
    + eexists; split; [reflexivity|].
      constructor; fields; try assumption; try lia.
      apply zero_from_line; rewrite ?LW; lia.
  - assert (LW : List.length (firstn (CLI_COMMAND_LENGTH cfg) (w ++ f)) = CLI_COMMAND_LENGTH cfg)
      by (rewrite length_firstn; lia).
    eexists; split; [reflexivity|].
    constructor; fields; rewrite ?LW; try assumption; try lia.
    + rewrite Nat.sub_diag, length_app, LW; simpl; lia.
    + apply zero_from_line; rewrite ?LW; lia.
    + apply err_bits. bits. auto.
    + bits. discriminate.
    + intros _. left. bits. reflexivity.
Qed.

Lemma reachable_Inv cfg st :
  handlers_ok cfg -> sizes_ok cfg -> reachable cfg st -> Inv cfg st.
Proof.
  intros Hh Hs R. induction R as [|st pInput r st' R IH E|st p st' R IH E].
  - apply Inv_initial; assumption.
  - destruct (Inv_CLI_Input cfg pInput st Hh Hs IH) as (st2 & E2 & I2).
    rewrite E2 in E. injection E as _ <-. assumption.
  - destruct (Inv_CLI_Output cfg st Hs IH) as (p2 & st2 & E2 & I2).
    rewrite E2 in E. injection E as _ <-. assumption.
Qed.

Lemma TEST_loop_defined n : forall i pRes,
  (i + n <= List.length pRes)%nat ->
  exists r, TEST_loop n i pRes = Some r /\ List.length r = List.length pRes.
Proof.
  induction n as [|n IH]; intros i pRes H; cbn [TEST_loop].
  - eauto.
  - destruct (poke_defined pRes i
                (ascii_of_nat ((i + nat_of_ascii "a"%char) mod 256))) as [r E]; [lia|].
    rewrite E. pose proof (poke_length _ _ _ _ E) as L.
    destruct (IH (S i) r) as (r' & E' & L'); [lia|].
    exists r'; split; [assumption | congruence].
Qed.

(** The repository's command stays inside a response array of 26 bytes
    or more. *)
Lemma repo_handlers_ok ncmd nresp newline prompt :
  (26 <= nresp)%nat -> handlers_ok (repo_config ncmd nresp newline prompt).
Proof.
  intros H u arg pRes [<-|[]] L; simpl in *.
  destruct arg as [s|]; unfold TEST.
  - eauto.
  - destruct (TEST_loop_defined 26 0 pRes) as (r & E & Lr); [lia|].
    rewrite E. eauto.
Qed.

Lemma demo_handlers_ok : handlers_ok demo.
Proof. apply repo_handlers_ok; lia. Qed.

Lemma demo_sizes_ok : sizes_ok demo.
Proof. split; simpl; lia. Qed.

(** ** The cursors *)

(** C8.  In every state reached from the initial one the cursors satisfy
    0 <= read index <= write index <= capacity; from such a state every
    [CLI_Input] call and every [CLI_Output] call is defined and leaves a
    state with the same property. *)
Theorem cursor_invariant cfg st :
  handlers_ok cfg -> sizes_ok cfg -> reachable cfg st ->
  cursors_ok cfg st
  /\ (forall pInput, exists st',
        CLI_Input cfg pInput st = Some (USBD_OK, st') /\ cursors_ok cfg st')
  /\ (exists p st', CLI_Output cfg st = Some (p, st') /\ cursors_ok cfg st').
Proof.
  intros Hh Hs R. pose proof (reachable_Inv cfg st Hh Hs R) as I.
  split; [|split].
  - destruct I; split; assumption.
  - intros pInput. destruct (Inv_CLI_Input cfg pInput st Hh Hs I) as (st' & E & I').
    exists st'; split; [assumption|]. destruct I'; split; assumption.
  - destruct (Inv_CLI_Output cfg st Hs I) as (p & st' & E & I').
    exists p, st'; split; [assumption|]. destruct I'; split; assumption.
Qed.

Lemma cursor_invariant_witness :
  cursors_ok demo (initial_state demo)
  /\ (forall pInput, exists st',
        CLI_Input demo pInput (initial_state demo) = Some (USBD_OK, st')
        /\ cursors_ok demo st')
  /\ (exists p st', CLI_Output demo (initial_state demo) = Some (p, st')
                    /\ cursors_ok demo st').
Proof.
  exact (cursor_invariant demo (initial_state demo)
           demo_handlers_ok demo_sizes_ok (reach_init demo)).
Defined.

(** ** The zero fill *)

(** C10.  In every state reached from the initial one, when the write
    index is below the capacity every byte of the command array from the
    write index on is zero; hence the terminator scan that follows a
    successful append is defined, and in the echo step the length
    computation is defined and the fragment ends at or before the write
    index. *)
Theorem zero_fill_invariant cfg st :
  handlers_ok cfg -> sizes_ok cfg -> reachable cfg st ->
  (CmdBufIdxIn st < Z.of_nat (CLI_COMMAND_LENGTH cfg) ->
   forall j, (Z.to_nat (CmdBufIdxIn st) <= j < CLI_COMMAND_LENGTH cfg)%nat ->
             nth_error (CommandBuffer st) j = Some NUL)
  /\ (forall pInput st1,
        IS_STATUS st CLI_STATUS_BUSY = false ->
        BufferInput cfg pInput st = Some (CLI_RESULT_OK, st1) ->
        exists r, strstr (CommandBuffer st1) (String_Newline cfg) = Some r)
  /\ (IS_ANY_STATUS st CLI_STATUS_ERROR_MASK = false ->
      IS_STATUS st CLI_STATUS_ECHO = true ->
      CmdBufIdxOut st < CmdBufIdxIn st ->
      exists n, strlen (skipn (Z.to_nat (CmdBufIdxOut st)) (CommandBuffer st)) = Some n
                /\ CmdBufIdxOut st + Z.of_nat n <= CmdBufIdxIn st).
Proof.
  intros Hh Hs R. pose proof (reachable_Inv cfg st Hh Hs R) as I.
  pose proof Hs as [HN HR]. pose proof I as [Lc Lr Ho Hi Hz He Ha Hf].
  split; [|split].
  - intros _ j Hj. rewrite (nth_error_nth' _ NUL) by lia. f_equal. apply Hz; lia.
  - intros pInput st1 Hb E. specialize (Ha Hb).
    set (w := firstn (Z.to_nat (CmdBufIdxIn st)) (CommandBuffer st)).
    assert (Lw : List.length w = Z.to_nat (CmdBufIdxIn st))
      by (unfold w; rewrite length_firstn; lia).
    pose proof (BufferInput_with_line cfg pInput st w) as HB.
    unfold w in HB at 2. rewrite with_line_self in HB by (assumption || lia).
    rewrite HB in E by lia. clear HB.
    destruct (Nat.ltb_spec (List.length (w ++ filter IS_CHAR_VALID pInput))
                           (CLI_COMMAND_LENGTH cfg)) as [Hroom|Hfull];
      [|discriminate].
    injection E as <-. rewrite firstn_all2 by lia.
    destruct (strstr_defined
                (CommandBuffer (with_line cfg st (w ++ filter IS_CHAR_VALID pInput)))
                (CLI_STRING_NEWLINE cfg)
                (List.length (w ++ filter IS_CHAR_VALID pInput))) as (r & Er & _).
    + fields. rewrite !length_app, zeros_length. rewrite length_app in Hroom. lia.
    + fields. apply (zero_from_line _ _ (List.length (w ++ filter IS_CHAR_VALID pInput))); lia.
    + exists r; assumption.
  - intros Herr Hecho Hlt.
    rewrite (IS_ANY_error st He) in Herr.
    assert (HinN : CmdBufIdxIn st < Z.of_nat (CLI_COMMAND_LENGTH cfg)).
    { destruct (Z.eq_dec (CmdBufIdxIn st) (Z.of_nat (CLI_COMMAND_LENGTH cfg))) as [E|E]; [|lia].
      rewrite IS_CMDOVF in Hf. destruct (Hf E); congruence. }
    destruct (strlen_at (CommandBuffer st) (Z.to_nat (CmdBufIdxOut st))
                (Z.to_nat (CmdBufIdxIn st))) as (n & En & Hn); [lia | lia | apply Hz; lia |].
    exists n; split; [assumption | lia].
Qed.

Lemma zero_fill_invariant_witness :
  (CmdBufIdxIn (initial_state demo) < Z.of_nat (CLI_COMMAND_LENGTH demo) ->
   forall j, (Z.to_nat (CmdBufIdxIn (initial_state demo)) <= j < CLI_COMMAND_LENGTH demo)%nat ->
             nth_error (CommandBuffer (initial_state demo)) j = Some NUL)
  /\ (forall pInput st1,
        IS_STATUS (initial_state demo) CLI_STATUS_BUSY = false ->
        BufferInput demo pInput (initial_state demo) = Some (CLI_RESULT_OK, st1) ->
        exists r, strstr (CommandBuffer st1) (String_Newline demo) = Some r)
  /\ (IS_ANY_STATUS (initial_state demo) CLI_STATUS_ERROR_MASK = false ->
      IS_STATUS (initial_state demo) CLI_STATUS_ECHO = true ->
      CmdBufIdxOut (initial_state demo) < CmdBufIdxIn (initial_state demo) ->
      exists n, strlen (skipn (Z.to_nat (CmdBufIdxOut (initial_state demo)))
                              (CommandBuffer (initial_state demo))) = Some n
                /\ CmdBufIdxOut (initial_state demo) + Z.of_nat n
                   <= CmdBufIdxIn (initial_state demo)).
Proof.
  exact (zero_fill_invariant demo (initial_state demo)
           demo_handlers_ok demo_sizes_ok (reach_init demo)).
Defined.

(** ** Backpressure *)

(** C6.  A [CLI_Input] call made while the busy flag is set, or with no
    input byte, returns [USBD_OK] and leaves the whole state as it was. *)
Theorem CLI_Input_backpressure cfg pInput st :
  IS_STATUS st CLI_STATUS_BUSY = true \/ List.length pInput = 0%nat ->
  CLI_Input cfg pInput st = Some (USBD_OK, st).
Proof.
  intros [H|H]; unfold CLI_Input; rewrite H; simpl; [reflexivity|].
  rewrite orb_true_r; reflexivity.
Qed.

Lemma CLI_Input_backpressure_witness :
  (IS_STATUS (SET_STATUS (initial_state demo) CLI_STATUS_BUSY) CLI_STATUS_BUSY = true
   \/ List.length (lit "GET_LOG") = 0%nat)
  /\ CLI_Input demo (lit "GET_LOG") (SET_STATUS (initial_state demo) CLI_STATUS_BUSY)
     = Some (USBD_OK, SET_STATUS (initial_state demo) CLI_STATUS_BUSY).
Proof.
  assert (H : IS_STATUS (SET_STATUS (initial_state demo) CLI_STATUS_BUSY) CLI_STATUS_BUSY = true
              \/ List.length (lit "GET_LOG") = 0%nat)
    by (left; vm_compute; reflexivity).
  split; [exact H|].
  exact (CLI_Input_backpressure demo (lit "GET_LOG")
           (SET_STATUS (initial_state demo) CLI_STATUS_BUSY) H).
Defined.

(** ** Overflow on append *)

(** C3, as the code has it.  In an accepting state whose array is zero
    from the write index on, an input whose accepted bytes fill the array
    makes [CLI_Input] stop at the byte that reaches the capacity: the array
    keeps the bytes appended so far, the write index is the capacity, the
    overflow and busy flags are set, nothing else changes, and the call
    returns [USBD_OK] as on every other path. *)
Theorem CLI_Input_overflow cfg pInput st :
  List.length (CommandBuffer st) = CLI_COMMAND_LENGTH cfg ->
  0 <= CmdBufIdxIn st < Z.of_nat (CLI_COMMAND_LENGTH cfg) ->
  Z.of_nat (CLI_COMMAND_LENGTH cfg) <= 65535 ->
  zero_from (CommandBuffer st) (Z.to_nat (CmdBufIdxIn st)) ->
  IS_STATUS st CLI_STATUS_BUSY = false ->
  (CLI_COMMAND_LENGTH cfg
   <= Z.to_nat (CmdBufIdxIn st) + List.length (filter IS_CHAR_VALID pInput))%nat ->
  exists st',
    CLI_Input cfg pInput st = Some (USBD_OK, st')
    /\ CommandBuffer st'
       = firstn (Z.to_nat (CmdBufIdxIn st)) (CommandBuffer st)
         ++ firstn (CLI_COMMAND_LENGTH cfg - Z.to_nat (CmdBufIdxIn st))
                   (filter IS_CHAR_VALID pInput)
    /\ CmdBufIdxIn st' = Z.of_nat (CLI_COMMAND_LENGTH cfg)
    /\ IS_STATUS st' CLI_STATUS_CMDOVF = true
    /\ IS_STATUS st' CLI_STATUS_BUSY = true
    /\ ResponseBuffer st' = ResponseBuffer st
    /\ CmdBufIdxOut st' = CmdBufIdxOut st
    /\ pResponse st' = pResponse st.
Proof.
  intros Lc Hi HN Hz Hb Hfull. unfold CLI_Input. rewrite Hb.
  destruct pInput as [|c rest]; [simpl in Hfull; lia|].
  cbn [List.length Nat.eqb orb].
  set (pInput := c :: rest) in *.
  set (w := firstn (Z.to_nat (CmdBufIdxIn st)) (CommandBuffer st)).
  assert (Lw : List.length w = Z.to_nat (CmdBufIdxIn st))
    by (unfold w; rewrite length_firstn; lia).
  pose proof (BufferInput_with_line cfg pInput st w) as HB.
  unfold w in HB at 2. rewrite with_line_self in HB by (assumption || lia).
  rewrite HB by lia. clear HB.
  destruct (Nat.ltb_spec (List.length (w ++ filter IS_CHAR_VALID pInput))
                         (CLI_COMMAND_LENGTH cfg)) as [Hroom|_].
  { rewrite length_app in Hroom; lia. }
  cbn [CLI_Result_eqb negb].
  eexists; split; [reflexivity|].
  assert (LW : List.length (firstn (CLI_COMMAND_LENGTH cfg) (w ++ filter IS_CHAR_VALID pInput))
               = CLI_COMMAND_LENGTH cfg)
    by (rewrite length_firstn, length_app; lia).
  repeat split; fields; rewrite ?LW; try reflexivity.
  - rewrite Nat.sub_diag; simpl. rewrite app_nil_r.
    rewrite firstn_app, Lw. rewrite (firstn_all2 w) by lia. reflexivity.
  - bits. reflexivity.
  - bits. reflexivity.
Qed.

Lemma CLI_Input_overflow_witness :
  exists st',
    CLI_Input demo (repeat "a"%char 70) (completed_cycle demo NULL) = Some (USBD_OK, st')
    /\ CommandBuffer st' = repeat "a"%char 64
    /\ CmdBufIdxIn st' = 64
    /\ IS_STATUS st' CLI_STATUS_CMDOVF = true
    /\ IS_STATUS st' CLI_STATUS_BUSY = true
    /\ ResponseBuffer st' = zeros 64
    /\ CmdBufIdxOut st' = 0
    /\ pResponse st' = NULL.
Proof.
  refine (CLI_Input_overflow demo (repeat "a"%char 70) (completed_cycle demo NULL)
            _ _ _ _ _ _).
  - reflexivity.
  - simpl; lia.
  - simpl; lia.
  - intros j _; apply nth_zeros.
  - reflexivity.
  - vm_compute; lia.
Defined.

(** Against C3 as the specification states it: on an overflowing input
    the buffer routine fails, and [CLI_Input] still returns [USBD_OK]. *)
Lemma CLI_Input_overflow_reports_ok :
  (exists st1, BufferInput demo (repeat "a"%char 70) (completed_cycle demo NULL)
               = Some (CLI_RESULT_FAIL, st1))
  /\ ~ reports_failure
         (CLI_Input demo (repeat "a"%char 70) (completed_cycle demo NULL)).
Proof.
  split.
  - eexists. vm_compute. reflexivity.
  - intros (s & st' & E & Hs). vm_compute in E.
    injection E as <- _. apply Hs; reflexivity.
Qed.

(** ** Echo *)

(** C5, as the code has it.  A [CLI_Output] call taken in the echo state
    with the read index behind the write index returns the pointer at
    the read index, whose string is the bytes from there up to the
    terminator, and moves the read index onto that terminator, not past it.
    When the line has been dispatched (the break flag is set) the same call
    clears the echo and break flags and arms the newline with the response,
    or with the prompt for an empty fragment, so that no further part of
    the line is echoed; otherwise the status is unchanged. *)
Theorem CLI_Output_echo cfg st n :
  IS_ANY_STATUS st CLI_STATUS_ERROR_MASK = false ->
  IS_STATUS st CLI_STATUS_ECHO = true ->
  0 <= CmdBufIdxOut st < CmdBufIdxIn st ->
  strlen (skipn (Z.to_nat (CmdBufIdxOut st)) (CommandBuffer st)) = Some n ->
  CmdBufIdxOut st + Z.of_nat n < 65536 ->
  exists st',
    CLI_Output cfg st = Some (CommandBuffer_at (CmdBufIdxOut st), st')
    /\ string_at cfg st' (CommandBuffer_at (CmdBufIdxOut st))
       = Some (firstn n (skipn (Z.to_nat (CmdBufIdxOut st)) (CommandBuffer st)))
    /\ CmdBufIdxOut st' = CmdBufIdxOut st + Z.of_nat n
    /\ nth_error (CommandBuffer st') (Z.to_nat (CmdBufIdxOut st')) = Some NUL
    /\ CommandBuffer st' = CommandBuffer st
    /\ CmdBufIdxIn st' = CmdBufIdxIn st
    /\ (IS_STATUS st CLI_STATUS_BREAK = false -> CLI_Status st' = CLI_Status st)
    /\ (IS_STATUS st CLI_STATUS_BREAK = true ->
        IS_STATUS st' CLI_STATUS_ECHO = false
        /\ IS_STATUS st' CLI_STATUS_BREAK = false
        /\ IS_STATUS st' CLI_STATUS_NEWLINE = true
        /\ IS_STATUS st' (if (0 <? n)%nat then CLI_STATUS_RESPONSE
                          else CLI_STATUS_PROMPT) = true).
Proof.
  intros Herr Hecho Ho En Hn. unfold CLI_Output.
  rewrite Herr, Hecho.
  destruct (Z.ltb_spec (CmdBufIdxOut st) (CmdBufIdxIn st)) as [_|Hge]; [|lia].
  rewrite En. fields. rewrite En.
  assert (Hu : u16 (Z.of_nat n) = Z.of_nat n) by (apply u16_small; lia).
  rewrite Hu. rewrite (u16_small (CmdBufIdxOut st + Z.of_nat n)) by lia.
  destruct (strlen_at_spec _ _ _ En) as (A & B & _).
  assert (Hstr : forall st',
             CommandBuffer st' = CommandBuffer st ->
             string_at cfg st' (CommandBuffer_at (CmdBufIdxOut st))
             = Some (firstn n (skipn (Z.to_nat (CmdBufIdxOut st)) (CommandBuffer st)))).
  { intros st' E. unfold string_at, cstr.
    destruct (Z.ltb_spec (CmdBufIdxOut st) 0); [lia|]. rewrite E, En. reflexivity. }
  assert (Hnul : nth_error (CommandBuffer st) (Z.to_nat (CmdBufIdxOut st + Z.of_nat n))
                 = Some NUL).
  { replace (Z.to_nat (CmdBufIdxOut st + Z.of_nat n))
      with (Z.to_nat (CmdBufIdxOut st) + n)%nat by lia.
    rewrite (nth_error_nth' _ NUL) by lia. f_equal; assumption. }
  rewrite IS_BREAK. fields.
  destruct (Z.testbit (CLI_Status st) 4) eqn:B4.
  - destruct (Z.ltb_spec 0 (Z.of_nat n)), (Nat.ltb_spec 0 n); try lia.
    all: eexists; split; [reflexivity|].
    all: split; [apply Hstr; reflexivity|].
    all: repeat split; intros; flags; fields;
      try assumption; try reflexivity; try congruence.
    all: bits; reflexivity.
  - eexists; split; [reflexivity|].
    split; [apply Hstr; reflexivity|].
    repeat split; fields; try assumption; try reflexivity.
    all: intros; flags; congruence.
Qed.

Lemma CLI_Output_echo_witness :
  exists st',
    CLI_Output demo name_arg_dispatched = Some (CommandBuffer_at 0, st')
    /\ string_at demo st' (CommandBuffer_at 0) = Some (lit "GET_LOG")
    /\ CmdBufIdxOut st' = 7
    /\ nth_error (CommandBuffer st') (Z.to_nat (CmdBufIdxOut st')) = Some NUL
    /\ CommandBuffer st' = CommandBuffer name_arg_dispatched
    /\ CmdBufIdxIn st' = 11
    /\ (IS_STATUS name_arg_dispatched CLI_STATUS_BREAK = false ->
        CLI_Status st' = CLI_Status name_arg_dispatched)
    /\ (IS_STATUS name_arg_dispatched CLI_STATUS_BREAK = true ->
        IS_STATUS st' CLI_STATUS_ECHO = false
        /\ IS_STATUS st' CLI_STATUS_BREAK = false
        /\ IS_STATUS st' CLI_STATUS_NEWLINE = true
        /\ IS_STATUS st' CLI_STATUS_RESPONSE = true).
Proof.
  refine (CLI_Output_echo demo name_arg_dispatched 7 _ _ _ _ _).
  - reflexivity.
  - reflexivity.
  - simpl; lia.
  - reflexivity.
  - simpl; lia.
Defined.

(** Against C5 as the specification states it, on the line [GET_LOG 1]
    delivered in one call: the first poll returns the name and leaves the read index on the
    terminator at index 7, not past it, and no later poll returns the
    argument. *)
Lemma echo_name_arg_counterexample :
  exists st2 frags st3,
    CLI_Output demo name_arg_dispatched = Some (CommandBuffer_at 0, st2)
    /\ string_at demo st2 (CommandBuffer_at 0) = Some (lit "GET_LOG")
    /\ CmdBufIdxOut st2 = 7
    /\ CmdBufIdxOut st2 <> 7 + 1
    /\ drain demo 10 name_arg_dispatched = Some (frags, st3)
    /\ frags = [lit "GET_LOG"; lit CRLF; lit STRING_ARG_INVALID; lit CRLF; lit "> "]
    /\ ~ In (lit "1") frags.
Proof.
  eexists _, _, _.
  split; [vm_compute; reflexivity|].
  split; [vm_compute; reflexivity|].
  split; [reflexivity|].
  split; [simpl; lia|].
  split; [vm_compute; reflexivity|].
  split; [reflexivity|].
  intros H. simpl in H.
  repeat (destruct H as [H|H]; [discriminate|]). exact H.
Qed.

(** ** Error messages *)

Lemma poke_app_r (a b : bytes) k c :
  poke (a ++ b) (List.length a + k) c = option_map (app a) (poke b k c).
Proof.
  induction a as [|x a IH]; simpl.
  - destruct (poke b k c); reflexivity.
  - rewrite IH. destruct (poke b k c); reflexivity.
Qed.

(** Forcing a terminator at or after the end of a string leaves the
    string. *)
Lemma cstr_poke_after l rest i x :
  Forall (fun c => c <> NUL) l -> (List.length l <= i)%nat ->
  poke (l ++ NUL :: rest) i NUL = Some x -> cstr x = Some l.
Proof.
  intros Hl Hi H.
  replace i with (List.length l + (i - List.length l))%nat in H by lia.
  rewrite poke_app_r in H.
  destruct (i - List.length l)%nat as [|k]; simpl in H.
  - injection H as <-. apply cstr_chars; assumption.
  - destruct (poke rest k NUL) as [rest'|]; simpl in H; [|discriminate].
    injection H as <-. apply cstr_chars; assumption.
Qed.

Lemma seek_no_match s set C :
  (forall u, In u set -> strcmp_eq s (lit0 (name u)) = Some false) ->
  seek s set C = Some C.
Proof.
  revert C; induction set as [|u set IH]; intros C H; simpl; [reflexivity|].
  rewrite (H u) by (left; reflexivity). apply IH.
  intros v Hv; apply H; right; assumption.
Qed.

Lemma InvokeCommand_split_strings buf a pCmd args :
  InvokeCommand_split buf = Some (a, pCmd, args) ->
  (exists x, cstr (skipn pCmd a) = Some x)
  /\ exists arg, forall pArg, args = Some pArg -> arg_string a pArg = Some arg.
Proof.
  intros H.
  assert (Hnul : exists j, (j < List.length buf)%nat /\ nth j buf NUL = NUL).
  { unfold InvokeCommand_split, StrTrimR in H.
    destruct (StrTrim buf) as [p|]; [|discriminate].
    destruct (strlen (skipn p buf)) as [n|] eqn:En; [|discriminate].
    destruct (strlen_at_spec _ _ _ En) as (A & B & _). eauto. }
  destruct Hnul as (j & Hj & Hn).
  destruct (InvokeCommand_split_defined buf j Hj Hn) as (a' & p' & args' & E & _ & Hc & Ha).
  rewrite E in H. injection H as -> -> ->.
  split; [assumption|].
  destruct args as [[i|]|].
  - destruct (Ha i eq_refl) as [x Ex]. exists (Some x).
    intros pArg [= <-]. unfold arg_string. rewrite Ex; reflexivity.
  - exists None. intros pArg [= <-]. reflexivity.
  - exists None. intros pArg [=].
Qed.

Lemma message_chars :
  Forall (fun c => c <> NUL) (lit STRING_CMD_NOTFOUND)
  /\ Forall (fun c => c <> NUL) (lit STRING_ARG_INVALID).
Proof.
  split; apply Forall_forall; intros c Hc ->; vm_compute in Hc;
    repeat (destruct Hc as [Hc|Hc]; [discriminate|]); exact Hc.
Qed.

(** C9.  When the split line names a command that matches no entry of
    the table, the response read as a string is the command-not-found
    message; when the handler the table scan selects returns INVALID, the
    response read as a string is the argument-invalid message, whatever the
    handler left in the array. *)
Theorem error_messages cfg st a pCmd pArg :
  InvokeCommand_split (CommandBuffer st) = Some (a, pCmd, Some pArg) ->
  List.length (ResponseBuffer st) = CLI_RESPONSE_LENGTH cfg ->
  (List.length ErrorMessage_CmdNotFound <= CLI_RESPONSE_LENGTH cfg)%nat ->
  ((forall u, In u (CommandSet cfg) ->
              strcmp_eq (skipn pCmd a) (lit0 (name u)) = Some false) ->
   exists st',
     InvokeCommand cfg st = Some (ResponseBuffer_ptr, st')
     /\ string_at cfg st' ResponseBuffer_ptr = Some (lit STRING_CMD_NOTFOUND))
  /\ (forall h arg r,
        seek (skipn pCmd a) (CommandSet cfg) ResponseError_CmdNotFound = Some h ->
        arg_string a pArg = Some arg ->
        h arg (ResponseBuffer st) = Some (CLI_RESULT_INVALID, r) ->
        List.length r = CLI_RESPONSE_LENGTH cfg ->
        exists st',
          InvokeCommand cfg st = Some (ResponseBuffer_ptr, st')
          /\ string_at cfg st' ResponseBuffer_ptr = Some (lit STRING_ARG_INVALID)).
Proof.
  intros Hsplit Lr HR.
  change (List.length ErrorMessage_CmdNotFound) with 27%nat in HR.
  destruct (InvokeCommand_split_strings _ _ _ _ Hsplit) as (_ & arg0 & Harg0).
  specialize (Harg0 pArg eq_refl).
  split.
  - intros Hno. unfold InvokeCommand. rewrite Hsplit.
    rewrite (seek_no_match _ _ _ Hno), Harg0.
    unfold ResponseError_CmdNotFound. cbn [ResponseBuffer set_CommandBuffer].
    rewrite ResponseError_notfound
      by (change (List.length ErrorMessage_CmdNotFound) with 27%nat; lia).
    cbn [CLI_Result_eqb].
    destruct (poke_defined
                (ErrorMessage_CmdNotFound
                 ++ skipn (List.length ErrorMessage_CmdNotFound) (ResponseBuffer st))
                (CLI_RESPONSE_LENGTH cfg - 1) NUL) as [r2 E2].
    { rewrite copy_bytes_length
        by (change (List.length ErrorMessage_CmdNotFound) with 27%nat; lia). lia. }
    rewrite E2. eexists; split; [reflexivity|].
    cbn [string_at ResponseBuffer set_ResponseBuffer].
    unfold ErrorMessage_CmdNotFound, lit0 in E2. rewrite <- app_assoc in E2.
    refine (cstr_poke_after _ _ _ _ (proj1 message_chars) _ E2).
    change (List.length (lit STRING_CMD_NOTFOUND)) with 26%nat. lia.
  - intros h arg r Hseek Harg Hcall Lr1. unfold InvokeCommand. rewrite Hsplit.
    rewrite Hseek, Harg. cbn [ResponseBuffer set_CommandBuffer].
    rewrite Hcall. cbn [CLI_Result_eqb].
    rewrite ResponseError_invalid
      by (change (List.length ErrorMessage_ArgInvalid) with 26%nat; lia).
    destruct (poke_defined
                (ErrorMessage_ArgInvalid
                 ++ skipn (List.length ErrorMessage_ArgInvalid) r)
                (CLI_RESPONSE_LENGTH cfg - 1) NUL) as [r2 E2].
    { rewrite copy_bytes_length
        by (change (List.length ErrorMessage_ArgInvalid) with 26%nat; lia). lia. }
    rewrite E2. eexists; split; [reflexivity|].
    cbn [string_at ResponseBuffer set_ResponseBuffer].
    unfold ErrorMessage_ArgInvalid, lit0 in E2. rewrite <- app_assoc in E2.
    refine (cstr_poke_after _ _ _ _ (proj2 message_chars) _ E2).
    change (List.length (lit STRING_ARG_INVALID)) with 25%nat. lia.
Qed.

Lemma error_messages_witness :
  (exists st',
     InvokeCommand demo unknown_line = Some (ResponseBuffer_ptr, st')
     /\ string_at demo st' ResponseBuffer_ptr = Some (lit STRING_CMD_NOTFOUND))
  /\ (exists st',
        InvokeCommand demo invalid_line = Some (ResponseBuffer_ptr, st')
        /\ string_at demo st' ResponseBuffer_ptr = Some (lit STRING_ARG_INVALID)).
Proof.
  split.
  - refine (proj1 (error_messages demo unknown_line
                     (lit "FOO" ++ [NUL; LF] ++ zeros 59) 0 None _ _ _) _).
    + reflexivity.
    + reflexivity.
    + vm_compute; lia.
    + intros u [<-|[]]. reflexivity.
  - refine (proj2 (error_messages demo invalid_line
                     (lit "GET_LOG" ++ [NUL] ++ lit "1" ++ [NUL; LF] ++ zeros 53)
                     0 (Some 8%nat) _ _ _)
                  TEST (Some (lit "1")) (zeros 64) _ _ _ _).
    + reflexivity.
    + reflexivity.
    + vm_compute; lia.
    + reflexivity.
    + reflexivity.
    + reflexivity.
    + reflexivity.
Defined.

(** ** [CLI_Input] on an accepting state *)

Lemma drain_more cfg fuel : forall st k x,
  drain cfg fuel st = Some x -> drain cfg (fuel + k) st = Some x.
Proof.
  induction fuel as [|fuel IH]; intros st k x H; simpl in *; [discriminate|].
  destruct (CLI_Output cfg st) as [[p st1]|]; [|discriminate].
  destruct p; try assumption;
    (destruct (string_at cfg st1 _) as [f|]; [|discriminate];
     destruct (drain cfg fuel st1) as [[fs st2]|] eqn:E; [|discriminate];
     rewrite (IH _ k _ E); assumption).
Qed.

Lemma strstr_line W n nl s :
  Forall (fun c => c <> NUL) W -> cstr (lit0 s) = Some nl ->
  strstr (W ++ zeros (S n)) (lit0 s) = Some (find_sub nl W).
Proof.
  intros HW Hs. unfold strstr. rewrite zeros_S, (cstr_chars _ _ HW), Hs. reflexivity.
Qed.

(** What a [CLI_Input] call does in a state that accepts input and holds
    the characters [w]. *)
Lemma CLI_Input_accepting cfg pInput st w :
  (List.length w < CLI_COMMAND_LENGTH cfg)%nat ->
  Z.of_nat (CLI_COMMAND_LENGTH cfg) <= 65535 ->
  IS_STATUS st CLI_STATUS_BUSY = false ->
  pInput <> [] ->
  CLI_Input cfg pInput (with_line cfg st w)
  = let W := w ++ filter IS_CHAR_VALID pInput in
    if (List.length W <? CLI_COMMAND_LENGTH cfg)%nat then
      r <- strstr (W ++ zeros (CLI_COMMAND_LENGTH cfg - List.length W))
                  (String_Newline cfg) ;;
      match r with
      | None => Some (USBD_OK, with_line cfg st W)
      | Some pNL =>
          a <- poke (W ++ zeros (CLI_COMMAND_LENGTH cfg - List.length W)) pNL NUL ;;
          '(p, st2) <- InvokeCommand cfg (set_CommandBuffer (with_line cfg st W) a) ;;
          Some (USBD_OK,
                SET_STATUS (set_pResponse st2 p)
                           (Z.lor CLI_STATUS_BUSY CLI_STATUS_BREAK))
      end
    else
      Some (USBD_OK,
            SET_STATUS (with_line cfg st (firstn (CLI_COMMAND_LENGTH cfg) W))
                       (Z.lor CLI_STATUS_BUSY CLI_STATUS_CMDOVF)).
Proof.
  intros Hw HN Hb Hne. unfold CLI_Input.
  change (IS_STATUS (with_line cfg st w) CLI_STATUS_BUSY)
    with (IS_STATUS st CLI_STATUS_BUSY).
  rewrite Hb. destruct pInput as [|c rest]; [contradiction|].
  cbn [List.length Nat.eqb orb].
  rewrite BufferInput_with_line by assumption.
  cbv zeta.
  destruct (Nat.ltb_spec (List.length (w ++ filter IS_CHAR_VALID (c :: rest)))
                         (CLI_COMMAND_LENGTH cfg)) as [Hroom|Hfull];
    cbn [CLI_Result_eqb negb]; [|reflexivity].
  rewrite firstn_all2 by lia. reflexivity.
Qed.

(** ** The sequencer past the echo *)

Lemma completed_cycle_with_line cfg p :
  with_line cfg (completed_cycle cfg p) [] = completed_cycle cfg p.
Proof.
  unfold with_line, completed_cycle, set_CmdBufIdxIn, set_CommandBuffer; simpl.
  rewrite Nat.sub_0_r. reflexivity.
Qed.

Lemma string_at_status cfg a r i o s s' q p :
  string_at cfg {| CommandBuffer := a; ResponseBuffer := r; CmdBufIdxIn := i;
                   CmdBufIdxOut := o; CLI_Status := s; pResponse := q |} p
  = string_at cfg {| CommandBuffer := a; ResponseBuffer := r; CmdBufIdxIn := i;
                     CmdBufIdxOut := o; CLI_Status := s'; pResponse := q |} p.
Proof. destruct p; reflexivity. Qed.

Lemma drain_step cfg fuel st p st1 f fs st2 :
  CLI_Output cfg st = Some (p, st1) -> p <> NULL ->
  string_at cfg st1 p = Some f ->
  drain cfg fuel st1 = Some (fs, st2) ->
  drain cfg (S fuel) st = Some (f :: fs, st2).
Proof.
  intros E Hp Hf Hd. cbn [drain]. rewrite E.
  destruct p; try contradiction; rewrite Hf, Hd; reflexivity.
Qed.

Lemma drain_stop cfg fuel st st1 :
  CLI_Output cfg st = Some (NULL, st1) -> drain cfg (S fuel) st = Some ([], st1).
Proof. intros E. cbn [drain]. rewrite E. reflexivity. Qed.

(** With the response and newline flags pending (and the busy flag), the
    polls return the newline, the response, the newline and the prompt,
    then nothing, and leave the state of a completed cycle. *)
Lemma drain_response cfg a r i o p nl pr resp :
  cstr (String_Newline cfg) = Some nl ->
  cstr (String_Prompt cfg) = Some pr ->
  p <> NULL ->
  string_at cfg {| CommandBuffer := a; ResponseBuffer := r; CmdBufIdxIn := i;
                   CmdBufIdxOut := o; CLI_Status := 0x2A; pResponse := p |} p
  = Some resp ->
  drain cfg 5 {| CommandBuffer := a; ResponseBuffer := r; CmdBufIdxIn := i;
                 CmdBufIdxOut := o; CLI_Status := 0x2A; pResponse := p |}
  = Some ([nl; resp; nl; pr], completed_cycle cfg p).
Proof.
  intros Hnl Hpr Hp Hresp.
  eapply drain_step; [reflexivity | discriminate | exact Hnl |].
  eapply drain_step; [reflexivity | exact Hp | |].
  { rewrite <- Hresp. apply string_at_status. }
  eapply drain_step; [reflexivity | discriminate | exact Hnl |].
  eapply drain_step; [reflexivity | discriminate | exact Hpr |].
  apply drain_stop. reflexivity.
Qed.

(** With the prompt and newline flags pending (and the busy flag), the
    polls return the newline and the prompt, then nothing. *)
Lemma drain_prompt cfg a r i o p nl pr :
  cstr (String_Newline cfg) = Some nl ->
  cstr (String_Prompt cfg) = Some pr ->
  drain cfg 3 {| CommandBuffer := a; ResponseBuffer := r; CmdBufIdxIn := i;
                 CmdBufIdxOut := o; CLI_Status := 0x26; pResponse := p |}
  = Some ([nl; pr], completed_cycle cfg p).
Proof.
  intros Hnl Hpr.
  eapply drain_step; [reflexivity | discriminate | exact Hnl |].
  eapply drain_step; [reflexivity | discriminate | exact Hpr |].
  apply drain_stop. reflexivity.
Qed.

(** ** The scenarios *)

Lemma alphabet_chars : Forall (fun c => c <> NUL) (lit alphabet).
Proof.
  apply Forall_forall; intros c Hc ->; vm_compute in Hc;
    repeat (destruct Hc as [Hc|Hc]; [discriminate|]); exact Hc.
Qed.

Lemma find_sub_CRLF_single c : find_sub [CR; LF] [c] = None.
Proof.
  cbn [find_sub is_prefix]. rewrite andb_false_r. reflexivity.
Qed.

Lemma happy_path_sizes k m prompt p0 :
  let cfg := repo_config (10 + k) (27 + m) CRLF prompt in
  Z.of_nat (10 + k) <= 65535 ->
  exists st1 pr,
    CLI_Input cfg (lit "GET_LOG" ++ [CR; LF]) (completed_cycle cfg p0)
    = Some (USBD_OK, st1)
    /\ cstr (String_Prompt cfg) = Some pr
    /\ drain cfg 6 st1
       = Some ([lit "GET_LOG"; lit CRLF; lit alphabet; lit CRLF; pr],
               completed_cycle cfg ResponseBuffer_ptr).
Proof.
  intros cfg HN.
  destruct (cstr_lit0_defined prompt) as [pr Hpr].
  destruct (poke_defined (lit alphabet ++ NUL :: zeros m) (26 + m) NUL) as [r2 E2].
  { rewrite length_app; simpl. rewrite zeros_length. lia. }
  pose proof (cstr_poke_after _ _ _ _ alphabet_chars
                (Nat.le_add_r 26 m) E2) as Hr2.
  exists {| CommandBuffer := lit "GET_LOG" ++ NUL :: LF :: zeros (S k);
            ResponseBuffer := r2; CmdBufIdxIn := 9; CmdBufIdxOut := 0;
            CLI_Status := 0x31; pResponse := ResponseBuffer_ptr |}, pr.
  split; [|split; [exact Hpr|]].
  - change (completed_cycle cfg p0) with (with_line cfg (completed_cycle cfg p0) []).
    rewrite CLI_Input_accepting; [| simpl; lia | assumption | reflexivity | discriminate].
    cbv zeta.
    change ([] ++ filter IS_CHAR_VALID (lit "GET_LOG" ++ [CR; LF]))
      with (lit "GET_LOG" ++ [CR; LF]).
    change (List.length (lit "GET_LOG" ++ [CR; LF]) <? CLI_COMMAND_LENGTH cfg)%nat
      with true.
    cbv iota.
    change (CLI_COMMAND_LENGTH cfg - List.length (lit "GET_LOG" ++ [CR; LF]))%nat
      with (S k).
    change (strstr ((lit "GET_LOG" ++ [CR; LF]) ++ zeros (S k)) (String_Newline cfg))
      with (Some (Some 7%nat)).
    cbv iota.
    change (poke ((lit "GET_LOG" ++ [CR; LF]) ++ zeros (S k)) 7 NUL)
      with (Some (lit "GET_LOG" ++ NUL :: LF :: zeros (S k))).
    cbv iota.
    unfold InvokeCommand.
    change (InvokeCommand_split (CommandBuffer _))
      with (Some (lit "GET_LOG" ++ NUL :: LF :: zeros (S k), 0%nat, Some (@None nat))).
    cbv iota beta.
    change (seek _ (CommandSet cfg) ResponseError_CmdNotFound) with (Some TEST).
    cbv iota.
    change (arg_string _ None) with (Some (@None bytes)).
    cbv iota.
    change (TEST None (ResponseBuffer _))
      with (Some (CLI_RESULT_OK, lit alphabet ++ NUL :: zeros m)).
    cbv iota beta. cbn [CLI_Result_eqb].
    change (CLI_RESPONSE_LENGTH cfg - 1)%nat with (26 + m)%nat.
    rewrite E2. reflexivity.
  - eapply drain_step; [reflexivity | discriminate | reflexivity |].
    apply drain_response; [reflexivity | exact Hpr | discriminate | exact Hr2].
Qed.

(** C1.  From a completed cycle, with the repository's table and the
    terminator CR LF, the bytes of GET_LOG and the terminator fed in one
    call, followed by polls until nothing is pending, yield the name, the
    newline, the 26 letters, the newline and the prompt; the state is then
    that of a completed cycle again, a further poll returns nothing, and a
    following call appends the byte it is given. *)
Theorem happy_path ncmd nresp prompt p0 :
  let cfg := repo_config ncmd nresp CRLF prompt in
  (10 <= ncmd)%nat -> Z.of_nat ncmd <= 65535 -> (27 <= nresp)%nat ->
  exists st1 pr,
    CLI_Input cfg (lit "GET_LOG" ++ [CR; LF]) (completed_cycle cfg p0)
    = Some (USBD_OK, st1)
    /\ string_at cfg st1 String_Prompt_ptr = Some pr
    /\ (forall fuel, (6 <= fuel)%nat ->
        drain cfg fuel st1
        = Some ([lit "GET_LOG"; lit CRLF; lit alphabet; lit CRLF; pr],
                completed_cycle cfg ResponseBuffer_ptr))
    /\ CLI_Output cfg (completed_cycle cfg ResponseBuffer_ptr)
       = Some (NULL, completed_cycle cfg ResponseBuffer_ptr)
    /\ (forall c, IS_CHAR_VALID c = true ->
        CLI_Input cfg [c] (completed_cycle cfg ResponseBuffer_ptr)
        = Some (USBD_OK, with_line cfg (completed_cycle cfg ResponseBuffer_ptr) [c])).
Proof.
  intros cfg H1 H2 H3.
  pose proof (happy_path_sizes (ncmd - 10) (nresp - 27) prompt p0) as H.
  replace (10 + (ncmd - 10))%nat with ncmd in H by lia.
  replace (27 + (nresp - 27))%nat with nresp in H by lia.
  destruct (H H2) as (st1 & pr & E1 & Hpr & Hd).
  exists st1, pr. split; [exact E1|]. split; [exact Hpr|]. split; [|split].
  - intros fuel Hf. replace fuel with (6 + (fuel - 6))%nat by lia.
    apply drain_more. exact Hd.
  - reflexivity.
  - intros c Hc.
    rewrite <- (completed_cycle_with_line cfg ResponseBuffer_ptr) at 1.
    rewrite CLI_Input_accepting; [| simpl; lia | assumption | reflexivity | discriminate].
    cbv zeta. cbn [filter app]. rewrite Hc. cbn [List.length].
    destruct (Nat.ltb_spec 1 (CLI_COMMAND_LENGTH cfg)) as [_|Hle]; [|simpl in Hle; lia].
    replace (CLI_COMMAND_LENGTH cfg - 1)%nat with (S (ncmd - 2)) by (simpl; lia).
    change (String_Newline cfg) with (lit0 CRLF).
    rewrite (strstr_line [c] _ [CR; LF]);
      [| repeat constructor; apply IS_CHAR_VALID_not_NUL; assumption | reflexivity].
    rewrite find_sub_CRLF_single. reflexivity.
Qed.

Lemma happy_path_witness :
  exists st1 pr,
    CLI_Input demo (lit "GET_LOG" ++ [CR; LF]) (completed_cycle demo NULL)
    = Some (USBD_OK, st1)
    /\ string_at demo st1 String_Prompt_ptr = Some pr
    /\ (forall fuel, (6 <= fuel)%nat ->
        drain demo fuel st1
        = Some ([lit "GET_LOG"; lit CRLF; lit alphabet; lit CRLF; pr],
                completed_cycle demo ResponseBuffer_ptr))
    /\ CLI_Output demo (completed_cycle demo ResponseBuffer_ptr)
       = Some (NULL, completed_cycle demo ResponseBuffer_ptr)
    /\ (forall c, IS_CHAR_VALID c = true ->
        CLI_Input demo [c] (completed_cycle demo ResponseBuffer_ptr)
        = Some (USBD_OK, with_line demo (completed_cycle demo ResponseBuffer_ptr) [c])).
Proof.
  refine (happy_path 64 64 "> " NULL _ _ _); simpl; lia.
Defined.

(** C2, as the code has it.  After a [CLI_Input] call whose accepted bytes
    fill the command array, the first poll returns nothing: it only points
    the response at the overflow message and arms the response and newline
    flags.  The polls that follow return the newline, the overflow message,
    the newline and the prompt, then nothing; both arrays are then reset,
    the busy flag is clear and the buffer routine appends what the next call
    brings. *)
Theorem overflow_drain cfg pInput p0 :
  0 < Z.of_nat (CLI_COMMAND_LENGTH cfg) <= 65535 ->
  (CLI_COMMAND_LENGTH cfg <= List.length (filter IS_CHAR_VALID pInput))%nat ->
  exists st1 st2 nl pr,
    CLI_Input cfg pInput (completed_cycle cfg p0) = Some (USBD_OK, st1)
    /\ CLI_Output cfg st1 = Some (NULL, st2)
    /\ string_at cfg st2 String_Newline_ptr = Some nl
    /\ string_at cfg st2 String_Prompt_ptr = Some pr
    /\ (forall fuel, (5 <= fuel)%nat ->
        drain cfg fuel st2
        = Some ([nl; lit STRING_CMD_OVERFLOW; nl; pr],
                completed_cycle cfg ErrorMessage_CmdOvf_ptr))
    /\ IS_STATUS (completed_cycle cfg ErrorMessage_CmdOvf_ptr) CLI_STATUS_BUSY = false
    /\ (forall pNext,
        BufferInput cfg pNext (completed_cycle cfg ErrorMessage_CmdOvf_ptr)
        = Some (if (List.length (filter IS_CHAR_VALID pNext) <? CLI_COMMAND_LENGTH cfg)%nat
                then CLI_RESULT_OK else CLI_RESULT_FAIL,
                with_line cfg (completed_cycle cfg ErrorMessage_CmdOvf_ptr)
                  (firstn (CLI_COMMAND_LENGTH cfg) (filter IS_CHAR_VALID pNext)))).
Proof.
  intros HN Hfull.
  destruct (cstr_lit0_defined (CLI_STRING_NEWLINE cfg)) as [nl Hnl].
  destruct (cstr_lit0_defined (CLI_STRING_PROMPT cfg)) as [pr Hpr].
  set (W := firstn (CLI_COMMAND_LENGTH cfg) (filter IS_CHAR_VALID pInput)).
  exists (SET_STATUS (with_line cfg (completed_cycle cfg p0) W)
                     (Z.lor CLI_STATUS_BUSY CLI_STATUS_CMDOVF)).
  exists {| CommandBuffer := W ++ zeros (CLI_COMMAND_LENGTH cfg - List.length W);
            ResponseBuffer := zeros (CLI_RESPONSE_LENGTH cfg);
            CmdBufIdxIn := Z.of_nat (List.length W); CmdBufIdxOut := 0;
            CLI_Status := 0x2A; pResponse := ErrorMessage_CmdOvf_ptr |}.
  exists nl, pr.
  split; [|split; [reflexivity|split; [exact Hnl|split; [exact Hpr|split; [|split]]]]].
  - rewrite <- (completed_cycle_with_line cfg p0) at 1.
    rewrite CLI_Input_accepting; [| simpl; lia | lia | reflexivity |].
    + cbv zeta. cbn [app].
      destruct (Nat.ltb_spec (List.length (filter IS_CHAR_VALID pInput))
                             (CLI_COMMAND_LENGTH cfg)); [lia | reflexivity].
    + intros ->. simpl in Hfull. lia.
  - intros fuel Hf. replace fuel with (5 + (fuel - 5))%nat by lia.
    apply drain_more.
    apply drain_response; [exact Hnl | exact Hpr | discriminate | reflexivity].
  - reflexivity.
  - intros pNext.
    rewrite <- (completed_cycle_with_line cfg ErrorMessage_CmdOvf_ptr) at 1.
    rewrite BufferInput_with_line by (simpl; lia).
    reflexivity.
Qed.

Lemma overflow_drain_witness :
  exists st1 st2 nl pr,
    CLI_Input demo (repeat "a"%char 70) (completed_cycle demo NULL) = Some (USBD_OK, st1)
    /\ CLI_Output demo st1 = Some (NULL, st2)
    /\ string_at demo st2 String_Newline_ptr = Some nl
    /\ string_at demo st2 String_Prompt_ptr = Some pr
    /\ (forall fuel, (5 <= fuel)%nat ->
        drain demo fuel st2
        = Some ([nl; lit STRING_CMD_OVERFLOW; nl; pr],
                completed_cycle demo ErrorMessage_CmdOvf_ptr))
    /\ IS_STATUS (completed_cycle demo ErrorMessage_CmdOvf_ptr) CLI_STATUS_BUSY = false
    /\ (forall pNext,
        BufferInput demo pNext (completed_cycle demo ErrorMessage_CmdOvf_ptr)
        = Some (if (List.length (filter IS_CHAR_VALID pNext) <? CLI_COMMAND_LENGTH demo)%nat
                then CLI_RESULT_OK else CLI_RESULT_FAIL,
                with_line demo (completed_cycle demo ErrorMessage_CmdOvf_ptr)
                  (firstn (CLI_COMMAND_LENGTH demo) (filter IS_CHAR_VALID pNext)))).
Proof.
  refine (overflow_drain demo (repeat "a"%char 70) NULL _ _).
  - simpl; lia.
  - vm_compute; lia.
Defined.

(** Against C2 as the specification states it: after the overflowing call
    the first poll already returns nothing, so polling until nothing is pending yields no
    fragment at all and leaves the command array full; and the fragments of
    the polls after it start with a newline, not with the message. *)
Lemma overflow_drain_counterexample :
  exists st1 frags st2 later st3,
    CLI_Input demo (repeat "a"%char 70) (completed_cycle demo NULL) = Some (USBD_OK, st1)
    /\ drain demo 10 st1 = Some (frags, st2)
    /\ frags = []
    /\ frags <> [lit STRING_CMD_OVERFLOW; lit CRLF; lit "> "]
    /\ CommandBuffer st2 = repeat "a"%char 64
    /\ CommandBuffer st2 <> zeros 64
    /\ drain demo 10 st2 = Some (later, st3)
    /\ later = [lit CRLF; lit STRING_CMD_OVERFLOW; lit CRLF; lit "> "]
    /\ later <> [lit STRING_CMD_OVERFLOW; lit CRLF; lit "> "].
Proof.
  eexists _, _, _, _, _.
  split; [vm_compute; reflexivity|].
  split; [vm_compute; reflexivity|].
  split; [reflexivity|].
  split; [discriminate|].
  split; [reflexivity|].
  split; [discriminate|].
  split; [vm_compute; reflexivity|].
  split; [reflexivity|].
  discriminate.
Qed.

(** ** Blank lines *)

Lemma filter_valid_spaces k :
  filter IS_CHAR_VALID (repeat SP k ++ [CR; LF]) = repeat SP k ++ [CR; LF].
Proof. induction k as [|k IH]; simpl; [reflexivity|]. rewrite IH; reflexivity. Qed.

Lemma spaces_chars k : Forall (fun c => c <> NUL) (repeat SP k ++ [CR; LF]).
Proof.
  apply Forall_app; split.
  - apply Forall_forall; intros c Hc. apply repeat_spec in Hc. subst; discriminate.
  - repeat constructor; discriminate.
Qed.

Lemma find_sub_spaces k : find_sub [CR; LF] (repeat SP k ++ [CR; LF]) = Some k.
Proof. induction k as [|k IH]; [reflexivity|]. simpl in *. rewrite IH; reflexivity. Qed.

Lemma StrTrim_spaces k rest : StrTrim (repeat SP k ++ NUL :: rest) = Some k.
Proof. induction k as [|k IH]; [reflexivity|]. simpl. rewrite IH; reflexivity. Qed.

Lemma skipn_spaces k (x : bytes) : skipn k (repeat SP k ++ x) = x.
Proof. induction k as [|k IH]; [reflexivity | exact IH]. Qed.

Lemma strlen_spaces k rest : strlen (repeat SP k ++ NUL :: rest) = Some k.
Proof. induction k as [|k IH]; [reflexivity|]. simpl. rewrite IH; reflexivity. Qed.

Lemma InvokeCommand_split_blank k rest :
  InvokeCommand_split (repeat SP k ++ NUL :: rest)
  = Some (repeat SP k ++ NUL :: rest, k, None).
Proof.
  unfold InvokeCommand_split, StrTrimR.
  rewrite StrTrim_spaces, skipn_spaces.
  cbn [strlen Ascii.eqb NUL Ascii.zero Bool.eqb StrTrimR_loop].
  rewrite skipn_spaces. reflexivity.
Qed.

(** C4, as the code has it.  A line of [k] spaces and the terminator CR
    LF, delivered in one call from a completed cycle, is dispatched with an
    empty response.  The first poll returns the echo fragment, the [k]
    spaces.  For the empty line that fragment is empty and the sequencer
    goes to the newline and the prompt, with no response fragment; for
    [k > 0] it is not, and the sequencer goes through the response step:
    newline, the empty response, newline, prompt. *)
Theorem blank_line cfg k p0 :
  CLI_STRING_NEWLINE cfg = CRLF ->
  (k + 2 < CLI_COMMAND_LENGTH cfg)%nat ->
  Z.of_nat (CLI_COMMAND_LENGTH cfg) <= 65535 ->
  (0 < CLI_RESPONSE_LENGTH cfg)%nat ->
  exists st1 st2 pr,
    CLI_Input cfg (repeat SP k ++ [CR; LF]) (completed_cycle cfg p0)
    = Some (USBD_OK, st1)
    /\ pResponse st1 = ResponseBuffer_ptr
    /\ string_at cfg st1 ResponseBuffer_ptr = Some []
    /\ CLI_Output cfg st1 = Some (CommandBuffer_at 0, st2)
    /\ string_at cfg st2 (CommandBuffer_at 0) = Some (repeat SP k)
    /\ string_at cfg st2 String_Prompt_ptr = Some pr
    /\ (k = 0%nat ->
        drain cfg 3 st2 = Some ([lit CRLF; pr], completed_cycle cfg ResponseBuffer_ptr))
    /\ ((0 < k)%nat ->
        drain cfg 5 st2
        = Some ([lit CRLF; []; lit CRLF; pr], completed_cycle cfg ResponseBuffer_ptr)).
Proof.
  intros Hcrlf Hk HN HR.
  destruct (cstr_lit0_defined (CLI_STRING_PROMPT cfg)) as [pr Hpr].
  assert (Hnl : cstr (String_Newline cfg) = Some (lit CRLF))
    by (unfold String_Newline; rewrite Hcrlf; reflexivity).
  set (n := (CLI_COMMAND_LENGTH cfg - (k + 2))%nat).
  set (a := repeat SP k ++ NUL :: LF :: zeros n).
  assert (Hrb : exists m, CLI_RESPONSE_LENGTH cfg = S m)
    by (exists (CLI_RESPONSE_LENGTH cfg - 1)%nat; lia).
  destruct Hrb as [m Hm].
  assert (Hlen : strlen a = Some k) by apply strlen_spaces.
  exists {| CommandBuffer := a; ResponseBuffer := zeros (CLI_RESPONSE_LENGTH cfg);
            CmdBufIdxIn := Z.of_nat (k + 2); CmdBufIdxOut := 0;
            CLI_Status := 0x31; pResponse := ResponseBuffer_ptr |}.
  exists {| CommandBuffer := a; ResponseBuffer := zeros (CLI_RESPONSE_LENGTH cfg);
            CmdBufIdxIn := Z.of_nat (k + 2); CmdBufIdxOut := Z.of_nat k;
            CLI_Status := if (0 <? k)%nat then 0x2A else 0x26;
            pResponse := ResponseBuffer_ptr |}.
  exists pr.
  assert (Hresp : cstr (zeros (CLI_RESPONSE_LENGTH cfg)) = Some [])
    by (rewrite Hm; reflexivity).
  split; [|split; [reflexivity|split; [exact Hresp|split; [|split; [|split; [exact Hpr|split]]]]]].
  - rewrite <- (completed_cycle_with_line cfg p0) at 1.
    rewrite CLI_Input_accepting; [| simpl; lia | lia | reflexivity |].
    2:{ destruct k; discriminate. }
    cbv zeta. cbn [app]. rewrite filter_valid_spaces.
    assert (LW : List.length (repeat SP k ++ [CR; LF]) = (k + 2)%nat)
      by (rewrite length_app, repeat_length; reflexivity).
    rewrite LW.
    destruct (Nat.ltb_spec (k + 2) (CLI_COMMAND_LENGTH cfg)) as [_|Hle]; [|lia].
    fold n. replace n with (S (n - 1)) by (unfold n; lia).
    unfold String_Newline. rewrite Hcrlf.
    rewrite (strstr_line _ _ [CR; LF] CRLF (spaces_chars k) eq_refl).
    rewrite find_sub_spaces.
    rewrite <- app_assoc. cbn [app].
    rewrite <- (repeat_length SP k) at 2. rewrite poke_middle.
    unfold InvokeCommand. cbn [CommandBuffer set_CommandBuffer].
    rewrite InvokeCommand_split_blank.
    cbn [ResponseBuffer set_CommandBuffer with_line set_CmdBufIdxIn completed_cycle].
    rewrite Hm. cbn [poke zeros repeat].
    cbv [SET_STATUS set_pResponse set_ResponseBuffer set_CommandBuffer set_CmdBufIdxIn
         set_CLI_Status with_line completed_cycle CommandBuffer ResponseBuffer
         CmdBufIdxIn CmdBufIdxOut CLI_Status pResponse].
    rewrite LW. unfold a.
    change (NUL :: repeat NUL (n - 1)) with (zeros (S (n - 1))).
    replace (S (n - 1)) with n by (unfold n; lia).
    reflexivity.
  - unfold CLI_Output.
    change (IS_ANY_STATUS _ CLI_STATUS_ERROR_MASK) with false.
    change (IS_STATUS _ CLI_STATUS_ECHO) with true.
    cbn [CmdBufIdxOut CmdBufIdxIn CommandBuffer set_CmdBufIdxOut Z.to_nat skipn].
    destruct (Z.ltb_spec 0 (Z.of_nat (k + 2))) as [_|Hle]; [|lia].
    rewrite Hlen.
    change (IS_STATUS _ CLI_STATUS_BREAK) with true.
    rewrite (u16_small (Z.of_nat k)) by lia.
    rewrite u16_small by lia. cbn [Z.add].
    destruct k as [|k']; reflexivity.
  - unfold string_at, cstr. cbn [CommandBuffer Z.ltb Z.compare Z.to_nat skipn].
    rewrite Hlen. unfold a.
    rewrite firstn_app, repeat_length, Nat.sub_diag, firstn_all2
      by (rewrite repeat_length; lia).
    cbn [firstn]. rewrite app_nil_r. reflexivity.
  - intros ->. apply drain_prompt; assumption.
  - intros Hpos. destruct (Nat.ltb_spec 0 k) as [_|Hle]; [|lia].
    apply drain_response; [assumption | assumption | discriminate | exact Hresp].
Qed.

Lemma blank_line_witness :
  exists st1 st2 pr,
    CLI_Input demo (repeat SP 3 ++ [CR; LF]) (completed_cycle demo NULL)
    = Some (USBD_OK, st1)
    /\ pResponse st1 = ResponseBuffer_ptr
    /\ string_at demo st1 ResponseBuffer_ptr = Some []
    /\ CLI_Output demo st1 = Some (CommandBuffer_at 0, st2)
    /\ string_at demo st2 (CommandBuffer_at 0) = Some (repeat SP 3)
    /\ string_at demo st2 String_Prompt_ptr = Some pr
    /\ (3%nat = 0%nat ->
        drain demo 3 st2 = Some ([lit CRLF; pr], completed_cycle demo ResponseBuffer_ptr))
    /\ ((0 < 3)%nat ->
        drain demo 5 st2
        = Some ([lit CRLF; []; lit CRLF; pr], completed_cycle demo ResponseBuffer_ptr)).
Proof.
  refine (blank_line demo 3 NULL _ _ _ _).
  - reflexivity.
  - simpl; lia.
  - simpl; lia.
  - simpl; lia.
Defined.

(** Against C4 as the specification states it, on a line of three spaces
    delivered in one call: the echo fragment is the three spaces, and the sequencer emits the
    newline, the empty response and its newline before the prompt. *)
Lemma blank_line_counterexample :
  exists st1 frags st2,
    CLI_Input demo (repeat SP 3 ++ [CR; LF]) (completed_cycle demo NULL)
    = Some (USBD_OK, st1)
    /\ string_at demo st1 ResponseBuffer_ptr = Some []
    /\ drain demo 10 st1 = Some (frags, st2)
    /\ frags = [repeat SP 3; lit CRLF; []; lit CRLF; lit "> "]
    /\ frags <> [repeat SP 3; lit CRLF; lit "> "].
Proof.
  eexists _, _, _.
  split; [vm_compute; reflexivity|].
  split; [vm_compute; reflexivity|].
  split; [vm_compute; reflexivity|].
  split; [reflexivity | discriminate].
Qed.

(** ** Chunking *)

Lemma is_prefix_length n s : is_prefix n s = true -> (List.length n <= List.length s)%nat.
Proof.
  revert s; induction n as [|x n IH]; intros [|y s] H; simpl in *; try lia; try discriminate.
  apply andb_prop in H. destruct H as [_ H]. apply IH in H. lia.
Qed.

Lemma is_prefix_app n s b : is_prefix n s = true -> is_prefix n (s ++ b) = true.
Proof.
  revert s; induction n as [|x n IH]; intros [|y s] H; simpl in *; try reflexivity; try discriminate.
  apply andb_prop in H. destruct H as [H1 H2]. rewrite H1, (IH _ H2). reflexivity.
Qed.

Lemma is_prefix_app_false n s b :
  is_prefix n s = false -> (List.length n <= List.length s)%nat ->
  is_prefix n (s ++ b) = false.
Proof.
  revert s; induction n as [|x n IH]; intros [|y s] H L; simpl in *; try discriminate; try lia.
  destruct (Ascii.eqb x y); simpl in *; [|reflexivity].
  apply IH; [assumption | lia].
Qed.

Lemma find_sub_length n s p :
  find_sub n s = Some p -> (p + List.length n <= List.length s)%nat.
Proof.
  revert p; induction s as [|c s IH]; intros p H; simpl in H.
  - destruct (is_prefix n []) eqn:E; [|discriminate].
    injection H as <-. apply is_prefix_length in E. simpl in *; lia.
  - destruct (is_prefix n (c :: s)) eqn:E.
    + injection H as <-. apply is_prefix_length in E. simpl in *; lia.
    + destruct (find_sub n s) as [q|]; simpl in H; [|discriminate].
      injection H as <-. specialize (IH q eq_refl). simpl; lia.
Qed.

(** The first occurrence in a sequence is the first occurrence in every
    extension of it. *)
Lemma find_sub_app n s b p : find_sub n s = Some p -> find_sub n (s ++ b) = Some p.
Proof.
  revert p; induction s as [|c s IH]; intros p H; simpl in H.
  - destruct (is_prefix n []) eqn:E; [|discriminate]. injection H as <-.
    destruct n; [|discriminate]. destruct b; reflexivity.
  - destruct (is_prefix n (c :: s)) eqn:E.
    + injection H as <-. change ((c :: s) ++ b) with (c :: (s ++ b)).
      pose proof (is_prefix_app _ _ b E) as E'. simpl in E'. simpl. rewrite E'. reflexivity.
    + destruct (find_sub n s) as [q|] eqn:Eq; simpl in H; [|discriminate].
      injection H as <-. pose proof (find_sub_length _ _ _ Eq) as L.
      pose proof (is_prefix_app_false _ _ b E) as E'.
      simpl in E'. simpl. rewrite E' by (simpl; lia).
      rewrite (IH q eq_refl). reflexivity.
Qed.

Lemma poke_split a i c :
  (i < List.length a)%nat -> poke a i c = Some (firstn i a ++ c :: skipn (S i) a).
Proof.
  intros H. rewrite <- (firstn_skipn i a) at 1.
  destruct (skipn i a) as [|x r] eqn:E.
  - apply (f_equal (@List.length _)) in E. rewrite length_skipn in E. simpl in E; lia.
  - assert (L : List.length (firstn i a) = i) by (rewrite length_firstn; lia).
    rewrite <- L at 2. rewrite poke_middle. do 2 f_equal.
    replace (S i) with (1 + i)%nat by lia. rewrite <- skipn_skipn, E. reflexivity.
Qed.

(** [InvokeCommand] reads the two arrays only, and nothing of the command
    array beyond the part it is defined on. *)
Lemma InvokeCommand_frame cfg st p st' st2 r :
  InvokeCommand cfg st = Some (p, st') ->
  CommandBuffer st2 = CommandBuffer st ++ r ->
  ResponseBuffer st2 = ResponseBuffer st ->
  InvokeCommand cfg st2
  = Some (p, set_ResponseBuffer (set_CommandBuffer st2 (CommandBuffer st' ++ r))
                                (ResponseBuffer st')).
Proof.
  unfold InvokeCommand. intros H Ec Er. rewrite Ec.
  destruct (InvokeCommand_split (CommandBuffer st)) as [[[a pCmd] args]|] eqn:Es;
    [|discriminate].
  rewrite (InvokeCommand_split_app _ _ _ _ r Es).
  destruct (InvokeCommand_split_inside _ _ _ _ Es) as (La & Lp & Li).
  cbn [ResponseBuffer set_CommandBuffer] in *. rewrite Er.
  destruct args as [pArg|].
  - rewrite skipn_app_defined by lia.
    destruct (seek (skipn pCmd a) (CommandSet cfg) ResponseError_CmdNotFound)
      as [C|] eqn:EC; [|discriminate].
    rewrite (seek_app _ _ _ _ r EC).
    destruct (arg_string a pArg) as [arg|] eqn:Ea; [|discriminate].
    assert (Ea' : arg_string (a ++ r) pArg = Some arg).
    { unfold arg_string in *. destruct pArg as [i|]; [|assumption].
      destruct (cstr (skipn i a)) as [x|] eqn:Ex; [|discriminate].
      rewrite (cstr_skipn_app _ _ _ r Ex). assumption. }
    rewrite Ea'.
    destruct (C arg (ResponseBuffer st)) as [[res r0]|]; [|discriminate].
    destruct (if CLI_Result_eqb res CLI_RESULT_INVALID
              then ResponseError r0 ERRNO_ARG_INVALID else Some r0) as [r1|];
      [|discriminate].
    destruct (poke r1 (CLI_RESPONSE_LENGTH cfg - 1) NUL) as [r2|]; [|discriminate].
    injection H as <- <-. reflexivity.
  - destruct (poke (ResponseBuffer st) 0 NUL) as [r0|]; [|discriminate].
    injection H as <- <-. reflexivity.
Qed.

Lemma CLI_Input_busy cfg pInput st :
  IS_STATUS st CLI_STATUS_BUSY = true -> CLI_Input cfg pInput st = Some (USBD_OK, st).
Proof. intros H; unfold CLI_Input; rewrite H; reflexivity. Qed.

Lemma feed_busy cfg chunks st :
  IS_STATUS st CLI_STATUS_BUSY = true -> feed cfg chunks st = Some st.
Proof.
  intros H. induction chunks as [|c rest IH]; simpl; [reflexivity|].
  rewrite (CLI_Input_busy _ _ _ H). assumption.
Qed.

(** In an accepting state a call either appends and waits, or finds the
    terminator and dispatches. *)
Lemma CLI_Input_append cfg c st w nl :
  Z.of_nat (CLI_COMMAND_LENGTH cfg) <= 65535 ->
  IS_STATUS st CLI_STATUS_BUSY = false ->
  Forall (fun x => x <> NUL) w ->
  cstr (String_Newline cfg) = Some nl ->
  (List.length (w ++ filter IS_CHAR_VALID c) < CLI_COMMAND_LENGTH cfg)%nat ->
  c <> [] ->
  CLI_Input cfg c (with_line cfg st w)
  = match find_sub nl (w ++ filter IS_CHAR_VALID c) with
    | None => Some (USBD_OK, with_line cfg st (w ++ filter IS_CHAR_VALID c))
    | Some pNL => dispatch_line cfg st (w ++ filter IS_CHAR_VALID c) pNL
    end.
Proof.
  intros HN Hb Hw Hnl HW Hc.
  assert (Lw : (List.length w < CLI_COMMAND_LENGTH cfg)%nat)
    by (rewrite length_app in HW; lia).
  rewrite CLI_Input_accepting by assumption. cbv zeta.
  destruct (Nat.ltb_spec (List.length (w ++ filter IS_CHAR_VALID c))
                         (CLI_COMMAND_LENGTH cfg)) as [_|Hle]; [|lia].
  assert (HWn : Forall (fun x => x <> NUL) (w ++ filter IS_CHAR_VALID c))
    by (apply Forall_app; split; [assumption | apply filter_valid_not_NUL]).
  assert (Es : strstr ((w ++ filter IS_CHAR_VALID c)
                       ++ zeros (CLI_COMMAND_LENGTH cfg
                                 - List.length (w ++ filter IS_CHAR_VALID c)))
                      (String_Newline cfg)
               = Some (find_sub nl (w ++ filter IS_CHAR_VALID c))).
  { replace (CLI_COMMAND_LENGTH cfg - List.length (w ++ filter IS_CHAR_VALID c))%nat
      with (S (CLI_COMMAND_LENGTH cfg - List.length (w ++ filter IS_CHAR_VALID c) - 1))
      by lia.
    apply strstr_line; assumption. }
  rewrite Es.
  destruct (find_sub nl (w ++ filter IS_CHAR_VALID c)); reflexivity.
Qed.

(** The dispatch of the characters [W] with the terminator at [p] is that
    of their first [p] characters alone, with the rest of the array carried
    along untouched. *)
Lemma dispatch_line_result cfg st W p a' r' :
  (List.length W < CLI_COMMAND_LENGTH cfg)%nat -> (p <= List.length W)%nat ->
  InvokeCommand cfg (set_CommandBuffer st (firstn p W ++ [NUL]))
  = Some (ResponseBuffer_ptr,
          set_ResponseBuffer
            (set_CommandBuffer (set_CommandBuffer st (firstn p W ++ [NUL])) a') r') ->
  dispatch_line cfg st W p
  = Some (USBD_OK,
          {| CommandBuffer :=
               a' ++ skipn (S p) (W ++ zeros (CLI_COMMAND_LENGTH cfg - List.length W));
             ResponseBuffer := r';
             CmdBufIdxIn := Z.of_nat (List.length W);
             CmdBufIdxOut := CmdBufIdxOut st;
             CLI_Status := u16 (Z.lor (CLI_Status st)
                                      (Z.lor CLI_STATUS_BUSY CLI_STATUS_BREAK));
             pResponse := ResponseBuffer_ptr |}).
Proof.
  intros HW Hp HI. unfold dispatch_line.
  set (B := W ++ zeros (CLI_COMMAND_LENGTH cfg - List.length W)).
  assert (LB : List.length B = CLI_COMMAND_LENGTH cfg)
    by (unfold B; rewrite length_app, zeros_length; lia).
  rewrite poke_split by lia.
  assert (EB : firstn p B = firstn p W).
  { unfold B. rewrite firstn_app.
    replace (p - List.length W)%nat with 0%nat by lia.
    rewrite firstn_0, app_nil_r. reflexivity. }
  rewrite EB.
  replace (firstn p W ++ NUL :: skipn (S p) B)
    with ((firstn p W ++ [NUL]) ++ skipn (S p) B)
    by (rewrite <- app_assoc; reflexivity).
  rewrite (InvokeCommand_frame cfg _ _ _
             (set_CommandBuffer (with_line cfg st W)
                ((firstn p W ++ [NUL]) ++ skipn (S p) B))
             (skipn (S p) B) HI eq_refl eq_refl).
  reflexivity.
Qed.

Lemma feed_dispatch cfg st nl p :
  handlers_ok cfg -> sizes_ok cfg ->
  IS_STATUS st CLI_STATUS_BUSY = false ->
  List.length (ResponseBuffer st) = CLI_RESPONSE_LENGTH cfg ->
  cstr (String_Newline cfg) = Some nl ->
  forall chunks w,
    Forall (fun x => x <> NUL) w ->
    find_sub nl w = None ->
    (List.length (w ++ filter IS_CHAR_VALID (List.concat chunks)) < CLI_COMMAND_LENGTH cfg)%nat ->
    find_sub nl (w ++ filter IS_CHAR_VALID (List.concat chunks)) = Some p ->
    exists W1 more X,
      w ++ filter IS_CHAR_VALID (List.concat chunks) = W1 ++ more
      /\ find_sub nl W1 = Some p
      /\ dispatch_line cfg st W1 p = Some (USBD_OK, X)
      /\ feed cfg chunks (with_line cfg st w) = Some X.
Proof.
  intros Hh Hs Hb Lr Hnl. pose proof Hs as [HN _].
  induction chunks as [|c rest IH]; intros w Hw Hnone HW Hp.
  - simpl in Hp. rewrite app_nil_r in Hp. congruence.
  - cbn [List.concat] in HW, Hp. rewrite filter_app, app_assoc in HW, Hp.
    set (w' := w ++ filter IS_CHAR_VALID c) in *.
    assert (Lw' : (List.length w' < CLI_COMMAND_LENGTH cfg)%nat)
      by (rewrite length_app in HW; lia).
    assert (Hw' : Forall (fun x => x <> NUL) w')
      by (apply Forall_app; split; [assumption | apply filter_valid_not_NUL]).
    assert (Estep : CLI_Input cfg c (with_line cfg st w)
                    = match find_sub nl w' with
                      | None => Some (USBD_OK, with_line cfg st w')
                      | Some pNL => dispatch_line cfg st w' pNL
                      end).
    { destruct c as [|x c'].
      - unfold w'. simpl. rewrite app_nil_r, Hnone.
        unfold CLI_Input. rewrite orb_true_r. reflexivity.
      - apply CLI_Input_append; try assumption; [lia | discriminate]. }
    cbn [feed List.concat]. rewrite filter_app, app_assoc. fold w'. rewrite Estep.
    destruct (find_sub nl w') as [q|] eqn:Eq.
    + pose proof (find_sub_app _ _ (filter IS_CHAR_VALID (List.concat rest)) _ Eq) as Eq'.
      rewrite Hp in Eq'. injection Eq' as ->.
      pose proof (find_sub_bound _ _ _ Eq) as Hq.
      destruct (InvokeCommand_defined cfg (set_CommandBuffer st (firstn q w' ++ [NUL]))
                  (List.length (firstn q w')) Hh Hs) as (a' & r' & EI & _ & _).
      { exact Lr. }
      { cbn [CommandBuffer set_CommandBuffer]. rewrite length_app; simpl; lia. }
      { cbn [CommandBuffer set_CommandBuffer].
        rewrite app_nth2, Nat.sub_diag by lia. reflexivity. }
      pose proof (dispatch_line_result cfg st w' q a' r' Lw' Hq EI) as ED.
      eexists w', _, _.
      split; [reflexivity|]. split; [exact Eq|]. split; [exact ED|].
      rewrite ED. apply feed_busy.
      rewrite IS_BUSY. cbn [CLI_Status].
      rewrite testbit_u16, Z.lor_spec by lia. apply orb_true_r.
    + destruct (IH w' Hw' Eq HW Hp) as (W1 & more & X & E1 & E2 & E3 & E4).
      exists W1, more, X. repeat split; assumption.
Qed.

(** C7.  In a state that accepts input and holds characters [w] with no
    terminator among them, a byte sequence that stays within the capacity
    and brings a terminator gives the same dispatch whether it is delivered
    chunk by chunk or in one call: the command array agrees up to and
    including the position of the terminator (the split line), and the
    response array, the response pointer, the status and the read index are
    the same.  The statement is for every command table, hence for handlers
    that copy what they receive into the response. *)
Theorem chunking_invariance cfg st w chunks nl p :
  handlers_ok cfg -> sizes_ok cfg ->
  IS_STATUS st CLI_STATUS_BUSY = false ->
  List.length (ResponseBuffer st) = CLI_RESPONSE_LENGTH cfg ->
  Forall (fun x => x <> NUL) w ->
  cstr (String_Newline cfg) = Some nl ->
  find_sub nl w = None ->
  (List.length (w ++ filter IS_CHAR_VALID (List.concat chunks))
   < CLI_COMMAND_LENGTH cfg)%nat ->
  find_sub nl (w ++ filter IS_CHAR_VALID (List.concat chunks)) = Some p ->
  exists stc st1,
    feed cfg chunks (with_line cfg st w) = Some stc
    /\ CLI_Input cfg (List.concat chunks) (with_line cfg st w) = Some (USBD_OK, st1)
    /\ firstn (S p) (CommandBuffer stc) = firstn (S p) (CommandBuffer st1)
    /\ ResponseBuffer stc = ResponseBuffer st1
    /\ pResponse stc = pResponse st1
    /\ CLI_Status stc = CLI_Status st1
    /\ CmdBufIdxOut stc = CmdBufIdxOut st1
    /\ IS_STATUS stc CLI_STATUS_BREAK = true.
Proof.
  intros Hh Hs Hb Lr Hw Hnl Hnone HW Hp. pose proof Hs as [HN _].
  destruct (feed_dispatch cfg st nl p Hh Hs Hb Lr Hnl chunks w Hw Hnone HW Hp)
    as (W1 & more & X & EW & E1 & ED & EF).
  set (W := w ++ filter IS_CHAR_VALID (List.concat chunks)) in *.
  pose proof (find_sub_bound _ _ _ E1) as Hp1.
  assert (LW1 : (List.length W1 <= List.length W)%nat)
    by (rewrite EW, length_app; lia).
  assert (Ef : firstn p W = firstn p W1).
  { rewrite EW, firstn_app. replace (p - List.length W1)%nat with 0%nat by lia.
    rewrite firstn_0, app_nil_r. reflexivity. }
  assert (Lf : List.length (firstn p W1) = p) by (rewrite length_firstn; lia).
  destruct (InvokeCommand_defined cfg (set_CommandBuffer st (firstn p W1 ++ [NUL]))
              p Hh Hs) as (a' & r' & EI & Hz & _).
  { exact Lr. }
  { cbn [CommandBuffer set_CommandBuffer]. rewrite length_app; simpl; lia. }
  { cbn [CommandBuffer set_CommandBuffer].
    rewrite app_nth2, Lf, Nat.sub_diag by lia. reflexivity. }
  assert (La : List.length a' = S p).
  { destruct Hz as [-> _]. cbn [CommandBuffer set_CommandBuffer].
    rewrite length_app, Lf; simpl; lia. }
  rewrite (dispatch_line_result cfg st W1 p a' r') in ED by (assumption || lia).
  injection ED as <-.
  assert (Hne : List.concat chunks <> []).
  { intros E. unfold W in Hp. rewrite E in Hp. simpl in Hp.
    rewrite app_nil_r in Hp. congruence. }
  pose proof (CLI_Input_append cfg (List.concat chunks) st w nl
                (proj2 HN) Hb Hw Hnl HW Hne) as E2.
  fold W in E2. rewrite Hp in E2.
  rewrite (dispatch_line_result cfg st W p a' r') in E2;
    [| assumption | lia | rewrite Ef; exact EI].
  eexists _, _. split; [exact EF|]. split; [exact E2|].
  cbn [CommandBuffer ResponseBuffer pResponse CLI_Status CmdBufIdxOut].
  repeat split.
  - rewrite !firstn_app, La, Nat.sub_diag, !firstn_0. reflexivity.
  - rewrite IS_BREAK. cbn [CLI_Status].
    rewrite testbit_u16, Z.lor_spec by lia. apply orb_true_r.
Qed.

Lemma chunking_invariance_witness :
  exists stc st1,
    feed demo [lit "GET"; lit "_LOG" ++ [CR]; [LF]]
         (with_line demo (completed_cycle demo NULL) []) = Some stc
    /\ CLI_Input demo (List.concat [lit "GET"; lit "_LOG" ++ [CR]; [LF]])
                 (with_line demo (completed_cycle demo NULL) [])
       = Some (USBD_OK, st1)
    /\ firstn 8 (CommandBuffer stc) = firstn 8 (CommandBuffer st1)
    /\ ResponseBuffer stc = ResponseBuffer st1
    /\ pResponse stc = pResponse st1
    /\ CLI_Status stc = CLI_Status st1
    /\ CmdBufIdxOut stc = CmdBufIdxOut st1
    /\ IS_STATUS stc CLI_STATUS_BREAK = true.
Proof.
  refine (chunking_invariance demo (completed_cycle demo NULL) []
            [lit "GET"; lit "_LOG" ++ [CR]; [LF]] [CR; LF] 7
            demo_handlers_ok demo_sizes_ok _ _ _ _ _ _ _).
  - reflexivity.
  - reflexivity.
  - constructor.
  - reflexivity.
  - reflexivity.
  - vm_compute; lia.
  - reflexivity.
Defined.

(** * Further properties of the code *)

(** ** The buffer routine and the trimming functions *)

(** X1.  [BufferInput] drops the bytes outside the accepted set and
    nothing else of them is seen: in every state its result is the one it
    gives on the accepted bytes of the input alone. *)
Theorem BufferInput_ignores_rejected cfg pInput st :
  BufferInput cfg pInput st = BufferInput cfg (filter IS_CHAR_VALID pInput) st.
Proof.
  revert st; induction pInput as [|c rest IH]; intros st; [reflexivity|].
  cbn [BufferInput filter]. destruct (IS_CHAR_VALID c) eqn:Hc.
  - cbn [BufferInput]. rewrite Hc.
    destruct (poke (CommandBuffer st) (Z.to_nat (CmdBufIdxIn st)) c) as [b|];
      [|reflexivity].
    destruct (Z.of_nat (CLI_COMMAND_LENGTH cfg) <=? _); [reflexivity | apply IH].
  - apply IH.
Qed.

Lemma StrTrim_leading t c r : c <> SP -> StrTrim (repeat SP t ++ c :: r) = Some t.
Proof.
  intros Hc. induction t as [|t IH]; simpl.
  - destruct (Ascii.eqb_spec c SP); [contradiction | reflexivity].
  - rewrite IH; reflexivity.
Qed.

(** X2.  [StrTrim] advances the pointer over the leading spaces and over
    nothing else: it returns [t] exactly when the bytes at the pointer are
    [t] spaces followed by a byte that is not a space (a tab, the
    terminator and every other byte stop it). *)
Theorem StrTrim_spec s t :
  StrTrim s = Some t <-> exists c r, c <> SP /\ s = repeat SP t ++ c :: r.
Proof.
  split.
  - revert t; induction s as [|x s IH]; intros t H; simpl in H; [discriminate|].
    destruct (Ascii.eqb_spec x SP) as [->|Hx].
    + destruct (StrTrim s) as [u|]; simpl in H; [|discriminate].
      injection H as <-. destruct (IH u eq_refl) as (c & r & Hc & ->).
      exists c, r; split; [assumption | reflexivity].
    + injection H as <-. exists x, s; split; [assumption | reflexivity].
  - intros (c & r & Hc & ->). apply StrTrim_leading; assumption.
Qed.

Lemma peek_middle (l : bytes) x r : peek (l ++ x :: r) (List.length l) = Some x.
Proof.
  unfold peek. rewrite nth_error_app2, Nat.sub_diag by lia. reflexivity.
Qed.

Lemma skipn_exact (l r : bytes) : skipn (List.length l) (l ++ r) = r.
Proof. induction l as [|x l IH]; [reflexivity | exact IH]. Qed.

Lemma spaces_not_NUL k : Forall (fun c => c <> NUL) (repeat SP k).
Proof.
  apply Forall_forall; intros c Hc. apply repeat_spec in Hc. subst; discriminate.
Qed.

Lemma StrTrimR_loop_stop pre body tail :
  last body NUL <> SP ->
  StrTrimR_loop (pre ++ body ++ tail) (List.length pre) (List.length body)
  = Some (pre ++ body ++ tail).
Proof.
  intros Hl. destruct body as [|x body0]; [reflexivity|].
  destruct (@exists_last _ (x :: body0)) as (b & c & E); [discriminate|].
  rewrite E in *. clear E x body0.
  - rewrite last_last in Hl.
    rewrite length_app, Nat.add_comm. cbn [List.length Nat.add StrTrimR_loop].
    replace (pre ++ (b ++ [c]) ++ tail) with ((pre ++ b) ++ c :: tail)
      by (rewrite <- !app_assoc; reflexivity).
    rewrite <- length_app, peek_middle.
    destruct (Ascii.eqb_spec c SP); [contradiction | reflexivity].
Qed.

Lemma StrTrimR_loop_spaces pre body k : forall tail,
  last body NUL <> SP ->
  StrTrimR_loop (pre ++ body ++ repeat SP k ++ tail)
                (List.length pre) (List.length body + k)
  = Some (pre ++ body ++ zeros k ++ tail).
Proof.
  induction k as [|k IH]; intros tail Hl.
  - rewrite Nat.add_0_r. apply StrTrimR_loop_stop; assumption.
  - rewrite Nat.add_succ_r. cbn [StrTrimR_loop].
    assert (E : forall (x : ascii) t,
               pre ++ body ++ repeat x (S k) ++ t
               = (pre ++ body ++ repeat x k) ++ x :: t).
    { intros x t. cbn [repeat]. rewrite (repeat_cons k x).
      rewrite <- !app_assoc. reflexivity. }
    rewrite (E SP tail).
    assert (L : (List.length pre + (List.length body + k))%nat
                = List.length (pre ++ body ++ repeat SP k))
      by (rewrite !length_app, repeat_length; reflexivity).
    rewrite L, peek_middle. cbn [Ascii.eqb SP Bool.eqb andb].
    rewrite poke_middle.
    replace ((pre ++ body ++ repeat SP k) ++ NUL :: tail)
      with (pre ++ body ++ repeat SP k ++ NUL :: tail)
      by (rewrite <- !app_assoc; reflexivity).
    rewrite (IH (NUL :: tail) Hl).
    unfold zeros. rewrite (E NUL tail), <- !app_assoc. reflexivity.
Qed.

Lemma StrTrimR_trailing pre body k rest :
  Forall (fun c => c <> NUL) body -> last body NUL <> SP ->
  StrTrimR (pre ++ body ++ repeat SP k ++ NUL :: rest) (List.length pre)
  = Some (pre ++ body ++ zeros k ++ NUL :: rest).
Proof.
  intros Hb Hl. unfold StrTrimR. rewrite skipn_exact.
  replace (body ++ repeat SP k ++ NUL :: rest)
    with ((body ++ repeat SP k) ++ NUL :: rest)
    by (rewrite <- app_assoc; reflexivity).
  rewrite strlen_chars by (apply Forall_app; split; [assumption | apply spaces_not_NUL]).
  rewrite length_app, repeat_length.
  replace ((body ++ repeat SP k) ++ NUL :: rest)
    with (body ++ repeat SP k ++ NUL :: rest)
    by (rewrite <- app_assoc; reflexivity).
  apply StrTrimR_loop_spaces; assumption.
Qed.

Lemma cstr_body pre body (tail : bytes) :
  Forall (fun c => c <> NUL) body ->
  cstr (skipn (List.length pre) (pre ++ body ++ NUL :: tail)) = Some body.
Proof. intros Hb. rewrite skipn_exact. apply cstr_chars; assumption. Qed.

(** X3.  [StrTrimR] replaces the trailing spaces of the string at
    [pStr], and only those, by terminators: on a string made of [body]
    (empty, or ending in a byte that is not a space) followed by [k]
    spaces, the array keeps every other byte and the string at [pStr]
    becomes [body]. *)
Theorem StrTrimR_spec pre body k rest :
  Forall (fun c => c <> NUL) body -> last body NUL <> SP ->
  StrTrimR (pre ++ body ++ repeat SP k ++ NUL :: rest) (List.length pre)
  = Some (pre ++ body ++ zeros k ++ NUL :: rest)
  /\ cstr (skipn (List.length pre) (pre ++ body ++ zeros k ++ NUL :: rest))
     = Some body.
Proof.
  intros Hb Hl. split; [apply StrTrimR_trailing; assumption|].
  rewrite skipn_exact.
  destruct k; [apply cstr_chars; assumption|].
  rewrite zeros_S. apply cstr_chars; assumption.
Qed.

Lemma StrTrimR_spec_witness :
  StrTrimR (lit "  " ++ lit "ab c" ++ repeat SP 3 ++ NUL :: lit "xy") 2
  = Some (lit "  " ++ lit "ab c" ++ zeros 3 ++ NUL :: lit "xy")
  /\ cstr (skipn 2 (lit "  " ++ lit "ab c" ++ zeros 3 ++ NUL :: lit "xy"))
     = Some (lit "ab c").
Proof.
  refine (StrTrimR_spec (lit "  ") (lit "ab c") 3 (lit "xy") _ _).
  - repeat constructor; discriminate.
  - discriminate.
Defined.

(** ** The split of a line into name and argument *)

Lemma strchr_first name r :
  Forall (fun c => c <> SP /\ c <> NUL) name ->
  strchr (name ++ SP :: r) SP = Some (Some (List.length name)).
Proof.
  induction 1 as [|c name [Hs Hn] _ IH]; [reflexivity|].
  cbn [app strchr List.length].
  destruct (Ascii.eqb_spec c SP); [contradiction|].
  destruct (Ascii.eqb_spec c NUL); [contradiction|].
  rewrite IH. reflexivity.
Qed.

Lemma strchr_none name r :
  Forall (fun c => c <> SP /\ c <> NUL) name ->
  strchr (name ++ NUL :: r) SP = Some None.
Proof.
  induction 1 as [|c name [Hs Hn] _ IH]; [reflexivity|].
  cbn [app strchr].
  destruct (Ascii.eqb_spec c SP); [contradiction|].
  destruct (Ascii.eqb_spec c NUL); [contradiction|].
  rewrite IH. reflexivity.
Qed.

Lemma last_app_nonempty (l l' : bytes) d : l' <> [] -> last (l ++ l') d = last l' d.
Proof.
  intros H. induction l as [|x l IH]; [reflexivity|].
  cbn [app last]. destruct (l ++ l') eqn:E; [|exact IH].
  destruct l; [contradiction | discriminate].
Qed.

Lemma name_chars name :
  Forall (fun c => c <> SP /\ c <> NUL) name ->
  Forall (fun c => c <> NUL) name /\ last name NUL <> SP.
Proof.
  intros H; split.
  - eapply Forall_impl; [|exact H]. intros c [_ Hc]; exact Hc.
  - destruct name as [|x name0]; [discriminate|].
    destruct (@exists_last _ (x :: name0)) as (b & c & E); [discriminate|].
    rewrite E in *. rewrite last_last.
    apply Forall_app in H. destruct H as [_ H]. inversion H as [|? ? [Hc _] _]. exact Hc.
Qed.

Lemma zeros_then_NUL k rest : exists tail, zeros k ++ NUL :: rest = NUL :: tail.
Proof. destruct k; [exists rest | exists (zeros k ++ NUL :: rest)]; reflexivity. Qed.

(** X4.  A line made of leading spaces, a name without spaces, one or
    more spaces, an argument that starts and ends with a byte other than a
    space, and trailing spaces is split in place: [pCmd] points at the
    name, the first space after the name becomes its terminator, [pArg]
    points at the first byte of the argument, the trailing spaces become
    terminators, and the spaces inside the argument are kept. *)
Theorem InvokeCommand_split_name_arg i name j arg k rest :
  name <> [] -> Forall (fun c => c <> SP /\ c <> NUL) name ->
  arg <> [] -> Forall (fun c => c <> NUL) arg ->
  hd NUL arg <> SP -> last arg NUL <> SP ->
  Z.of_nat (List.length name + S j + List.length arg) < 65536 ->
  let a' := repeat SP i ++ name ++ NUL :: repeat SP j ++ arg ++ zeros k ++ NUL :: rest in
  InvokeCommand_split
    (repeat SP i ++ name ++ repeat SP (S j) ++ arg ++ repeat SP k ++ NUL :: rest)
  = Some (a', i, Some (Some (i + List.length name + 1 + j)%nat))
  /\ cstr (skipn i a') = Some name
  /\ arg_string a' (Some (i + List.length name + 1 + j)%nat) = Some (Some arg).
Proof.
  intros Hne Hname Hae Harg Hhd Hlast Hlen a'.
  destruct (name_chars name Hname) as [HnN _].
  destruct (zeros_then_NUL k rest) as [t3 E3].
  assert (Li : List.length (repeat SP i) = i) by apply repeat_length.
  split; [|split].
  - unfold InvokeCommand_split.
    (* the leading spaces *)
    assert (Et : StrTrim (repeat SP i ++ name ++ repeat SP (S j) ++ arg
                          ++ repeat SP k ++ NUL :: rest) = Some i).
    { destruct name as [|c name0]; [contradiction|].
      inversion Hname as [|? ? [Hc _] _]. cbn [app].
      apply StrTrim_leading; assumption. }
    rewrite Et.
    (* the trailing spaces *)
    pose proof (StrTrimR_trailing (repeat SP i) (name ++ repeat SP (S j) ++ arg)
                  k rest) as ER.
    rewrite Li in ER. rewrite <- !app_assoc in ER. rewrite ER; clear ER.
    2:{ apply Forall_app; split; [assumption|].
        apply Forall_app; split; [apply spaces_not_NUL | assumption]. }
    2:{ rewrite last_app_nonempty by (cbn [repeat app]; discriminate).
        rewrite last_app_nonempty by assumption. assumption. }
    (* the length of the trimmed line *)
    assert (El : strlen (skipn i (repeat SP i ++ name ++ repeat SP (S j) ++ arg
                                  ++ zeros k ++ NUL :: rest))
                 = Some (List.length name + S j + List.length arg)%nat).
    { rewrite <- Li at 1. rewrite skipn_exact, E3.
      replace (name ++ repeat SP (S j) ++ arg ++ NUL :: t3)
        with ((name ++ repeat SP (S j) ++ arg) ++ NUL :: t3)
        by (rewrite <- !app_assoc; reflexivity).
      rewrite strlen_chars.
      - rewrite !length_app, repeat_length. f_equal; lia.
      - apply Forall_app; split; [assumption|].
        apply Forall_app; split; [apply spaces_not_NUL | assumption]. }
    rewrite El.
    destruct (Z.eqb_spec (u16 (Z.of_nat (List.length name + S j + List.length arg))) 0)
      as [E0|_].
    { rewrite u16_small in E0 by lia. lia. }
    (* the first space *)
    assert (Ec : strchr (skipn i (repeat SP i ++ name ++ repeat SP (S j) ++ arg
                                  ++ zeros k ++ NUL :: rest)) SP
                 = Some (Some (List.length name))).
    { rewrite <- Li at 1. rewrite skipn_exact. cbn [repeat app].
      apply strchr_first; assumption. }
    rewrite Ec.
    assert (Ep : poke (repeat SP i ++ name ++ repeat SP (S j) ++ arg
                       ++ zeros k ++ NUL :: rest) (i + List.length name) NUL
                 = Some a').
    { replace (repeat SP i ++ name ++ repeat SP (S j) ++ arg ++ zeros k ++ NUL :: rest)
        with ((repeat SP i ++ name) ++ SP :: repeat SP j ++ arg ++ zeros k ++ NUL :: rest)
        by (rewrite <- !app_assoc; reflexivity).
      replace (i + List.length name)%nat with (List.length (repeat SP i ++ name))
        by (rewrite length_app, Li; reflexivity).
      rewrite poke_middle. unfold a'. rewrite <- !app_assoc. reflexivity. }
    rewrite Ep.
    (* the spaces before the argument *)
    assert (Ea : StrTrim (skipn (i + List.length name + 1) a') = Some j).
    { unfold a'.
      replace (repeat SP i ++ name ++ NUL :: repeat SP j ++ arg ++ zeros k ++ NUL :: rest)
        with ((repeat SP i ++ name ++ [NUL]) ++ repeat SP j ++ arg ++ zeros k ++ NUL :: rest)
        by (rewrite <- !app_assoc; reflexivity).
      replace (i + List.length name + 1)%nat
        with (List.length (repeat SP i ++ name ++ [NUL]))
        by (rewrite !length_app, Li; cbn [List.length]; lia).
      rewrite skipn_exact.
      destruct arg as [|x arg0]; [contradiction|].
      cbn [app]. apply StrTrim_leading. exact Hhd. }
    rewrite Ea. reflexivity.
  - unfold a'. rewrite <- Li at 1. rewrite skipn_exact. apply cstr_chars; assumption.
  - unfold arg_string, a'.
    replace (repeat SP i ++ name ++ NUL :: repeat SP j ++ arg ++ zeros k ++ NUL :: rest)
      with ((repeat SP i ++ name ++ NUL :: repeat SP j) ++ arg ++ zeros k ++ NUL :: rest)
      by (rewrite <- !app_assoc; reflexivity).
    replace (i + List.length name + 1 + j)%nat
      with (List.length (repeat SP i ++ name ++ NUL :: repeat SP j))
      by (rewrite !length_app, Li; cbn [List.length]; rewrite repeat_length; lia).
    rewrite skipn_exact, E3, cstr_chars by assumption. reflexivity.
Qed.

Lemma InvokeCommand_split_name_arg_witness :
  let a' := repeat SP 2 ++ lit "GET_LOG" ++ NUL :: repeat SP 1 ++ lit "a  b"
            ++ zeros 3 ++ NUL :: [LF] in
  InvokeCommand_split
    (repeat SP 2 ++ lit "GET_LOG" ++ repeat SP 2 ++ lit "a  b" ++ repeat SP 3
     ++ NUL :: [LF])
  = Some (a', 2%nat, Some (Some (2 + List.length (lit "GET_LOG") + 1 + 1)%nat))
  /\ cstr (skipn 2 a') = Some (lit "GET_LOG")
  /\ arg_string a' (Some (2 + List.length (lit "GET_LOG") + 1 + 1)%nat)
     = Some (Some (lit "a  b")).
Proof.
  refine (InvokeCommand_split_name_arg 2 (lit "GET_LOG") 1 (lit "a  b") 3 [LF]
            _ _ _ _ _ _ _).
  - discriminate.
  - repeat constructor; discriminate.
  - discriminate.
  - repeat constructor; discriminate.
  - discriminate.
  - discriminate.
  - simpl; lia.
Defined.

(** X5.  A line made of leading spaces, a name without spaces and
    trailing spaces is split with a null argument pointer: [pCmd] points at
    the name and the trailing spaces become terminators. *)
Theorem InvokeCommand_split_name_only i name k rest :
  name <> [] -> Forall (fun c => c <> SP /\ c <> NUL) name ->
  Z.of_nat (List.length name) < 65536 ->
  let a' := repeat SP i ++ name ++ zeros k ++ NUL :: rest in
  InvokeCommand_split (repeat SP i ++ name ++ repeat SP k ++ NUL :: rest)
  = Some (a', i, Some None)
  /\ cstr (skipn i a') = Some name.
Proof.
  intros Hne Hname Hlen a'.
  destruct (name_chars name Hname) as [HnN Hnl].
  destruct (zeros_then_NUL k rest) as [t3 E3].
  assert (Li : List.length (repeat SP i) = i) by apply repeat_length.
  assert (Es : skipn i a' = name ++ NUL :: t3).
  { unfold a'. rewrite <- Li at 1. rewrite skipn_exact, E3. reflexivity. }
  split.
  - unfold InvokeCommand_split.
    assert (Et : StrTrim (repeat SP i ++ name ++ repeat SP k ++ NUL :: rest) = Some i).
    { destruct name as [|c name0]; [contradiction|].
      inversion Hname as [|? ? [Hc _] _]. cbn [app].
      apply StrTrim_leading; assumption. }
    rewrite Et.
    pose proof (StrTrimR_trailing (repeat SP i) name k rest HnN Hnl) as ER.
    rewrite Li in ER. rewrite ER; clear ER. fold a'. rewrite Es.
    rewrite strlen_chars by assumption.
    destruct (Z.eqb_spec (u16 (Z.of_nat (List.length name))) 0) as [E0|_].
    { rewrite u16_small in E0 by lia. destruct name; [contradiction | simpl in E0; lia]. }
    rewrite strchr_none by assumption. reflexivity.
  - rewrite Es. apply cstr_chars; assumption.
Qed.

Lemma InvokeCommand_split_name_only_witness :
  let a' := repeat SP 1 ++ lit "GET_LOG" ++ zeros 2 ++ NUL :: [LF] in
  InvokeCommand_split (repeat SP 1 ++ lit "GET_LOG" ++ repeat SP 2 ++ NUL :: [LF])
  = Some (a', 1%nat, Some None)
  /\ cstr (skipn 1 a') = Some (lit "GET_LOG").
Proof.
  refine (InvokeCommand_split_name_only 1 (lit "GET_LOG") 2 [LF] _ _ _).
  - discriminate.
  - repeat constructor; discriminate.
  - simpl; lia.
Defined.

(** ** The table scan, the response array and the handlers *)

Lemma seek_app_set s pre l C :
  seek s (pre ++ l) C
  = match seek s pre C with Some C1 => seek s l C1 | None => None end.
Proof.
  revert C; induction pre as [|u pre IH]; intros C; [reflexivity|].
  cbn [app seek]. destruct (strcmp_eq s (lit0 (name u))); [apply IH | reflexivity].
Qed.

(** X6.  The table scan does not stop at the first match: when several
    entries carry the name of the line, the handler of the last of them is
    the one selected, whatever the entries before it are. *)
Theorem seek_last_match s pre u post C :
  strcmp_eq s (lit0 (name u)) = Some true ->
  (forall v, In v post -> strcmp_eq s (lit0 (name v)) = Some false) ->
  seek s (pre ++ u :: post) C = Some (command u).
Proof.
  intros Hu Hpost.
  assert (Hx : exists x, cstr s = Some x).
  { unfold strcmp_eq in Hu. destruct (cstr s) as [x|]; [eauto | discriminate]. }
  destruct Hx as [x Hx].
  destruct (seek_defined s x pre C Hx) as (C1 & E1 & _).
  rewrite seek_app_set, E1. cbn [seek]. rewrite Hu.
  apply seek_no_match; assumption.
Qed.

Lemma seek_last_match_witness :
  seek (lit0 "GET_LOG")
       ([ {| name := "GET_LOG"; command := ResponseError_CmdNotFound |} ]
        ++ {| name := "GET_LOG"; command := TEST |}
        :: [ {| name := "FOO"; command := ResponseError_CmdNotFound |} ])
       ResponseError_CmdNotFound
  = Some TEST.
Proof.
  refine (seek_last_match (lit0 "GET_LOG")
            [ {| name := "GET_LOG"; command := ResponseError_CmdNotFound |} ]
            {| name := "GET_LOG"; command := TEST |}
            [ {| name := "FOO"; command := ResponseError_CmdNotFound |} ]
            ResponseError_CmdNotFound _ _).
  - reflexivity.
  - intros v [<-|[]]. reflexivity.
Defined.

Lemma poke_terminates r i r2 :
  poke r i NUL = Some r2 ->
  exists x, cstr r2 = Some x /\ (List.length x <= i)%nat
            /\ (i < List.length r2)%nat.
Proof.
  intros E. pose proof (poke_length _ _ _ _ E) as L.
  pose proof (poke_inside _ _ _ _ E) as Hi.
  destruct (strlen_found r2 i) as (n & En & Hn); [lia | |].
  { rewrite (poke_nth _ _ _ _ i NUL E), Nat.eqb_refl. reflexivity. }
  exists (firstn n r2). unfold cstr. rewrite En.
  repeat split; [rewrite length_firstn; lia | lia].
Qed.

Lemma InvokeCommand_response_string cfg st p st' :
  InvokeCommand cfg st = Some (p, st') ->
  p = ResponseBuffer_ptr
  /\ exists x, string_at cfg st' p = Some x
               /\ (List.length x < List.length (ResponseBuffer st'))%nat.
Proof.
  unfold InvokeCommand. intros H.
  destruct (InvokeCommand_split (CommandBuffer st)) as [[[a pCmd] args]|]; [|discriminate].
  destruct args as [pArg|].
  - destruct (seek _ _ _) as [C|]; [|discriminate].
    destruct (arg_string a pArg) as [arg|]; [|discriminate].
    destruct (C arg _) as [[res r]|]; [|discriminate].
    destruct (if CLI_Result_eqb res CLI_RESULT_INVALID
              then ResponseError r ERRNO_ARG_INVALID else Some r) as [r1|];
      [|discriminate].
    destruct (poke r1 (CLI_RESPONSE_LENGTH cfg - 1) NUL) as [r2|] eqn:E2; [|discriminate].
    injection H as <- <-. split; [reflexivity|].
    destruct (poke_terminates _ _ _ E2) as (x & Ex & L1 & L2).
    exists x. cbn [string_at ResponseBuffer set_ResponseBuffer]. split; [exact Ex | lia].
  - destruct (poke _ 0 NUL) as [r|] eqn:E; [|discriminate].
    injection H as <- <-. split; [reflexivity|].
    destruct (poke_terminates _ _ _ E) as (x & Ex & L1 & L2).
    exists x. cbn [string_at ResponseBuffer set_ResponseBuffer]. split; [exact Ex | lia].
Qed.

(** X7.  Whatever the handler wrote and whatever it returned, when
    [InvokeCommand] returns, it returns the response array, and that array
    holds a terminated string shorter than the array: the forced last byte
    (or the first byte, for a blank line) bounds it. *)
Theorem InvokeCommand_response_terminated cfg st p st' :
  InvokeCommand cfg st = Some (p, st') ->
  p = ResponseBuffer_ptr
  /\ exists x, string_at cfg st' p = Some x
               /\ (List.length x < List.length (ResponseBuffer st'))%nat.
Proof. apply InvokeCommand_response_string. Qed.

Lemma InvokeCommand_response_terminated_witness :
  ResponseBuffer_ptr = ResponseBuffer_ptr
  /\ exists x,
       string_at demo invalid_invoked ResponseBuffer_ptr = Some x
       /\ (List.length x < List.length (ResponseBuffer invalid_invoked))%nat.
Proof.
  refine (InvokeCommand_response_terminated demo invalid_line ResponseBuffer_ptr
            invalid_invoked _).
  vm_compute. reflexivity.
Defined.

(** X8.  The sample command rejects every non-null argument without
    touching the response array; with a null argument it writes the 26
    letters over the first 26 bytes and leaves the rest, and it has no
    check of the array's size: on an array shorter than 26 bytes it writes
    outside it. *)
Theorem TEST_spec pRes :
  (forall s, TEST (Some s) pRes = Some (CLI_RESULT_INVALID, pRes))
  /\ TEST None pRes
     = if (26 <=? List.length pRes)%nat
       then Some (CLI_RESULT_OK, lit alphabet ++ skipn 26 pRes)
       else None.
Proof.
  split; [reflexivity|].
  destruct (Nat.leb_spec 26 (List.length pRes)) as [H|H].
  - do 26 (destruct pRes as [|? pRes]; [simpl in H; lia|]). reflexivity.
  - do 26 (destruct pRes as [|? pRes]; [reflexivity|]). simpl in H; lia.
Qed.

Lemma poke_outside a i c : (List.length a <= i)%nat -> poke a i c = None.
Proof.
  revert i; induction a as [|x a IH]; intros i H; [reflexivity|].
  destruct i as [|i]; [simpl in H; lia|].
  cbn [poke]. rewrite IH by (simpl in H; lia). reflexivity.
Qed.

Lemma copy_bytes_short pMsg : forall i pRes,
  (i <= List.length pRes)%nat -> (List.length pRes < i + List.length pMsg)%nat ->
  copy_bytes pMsg i pRes = None.
Proof.
  induction pMsg as [|c m IH]; intros i pRes H1 H2; [simpl in H2; lia|].
  cbn [copy_bytes]. destruct (poke pRes i c) as [r|] eqn:E; [|reflexivity].
  pose proof (poke_length _ _ _ _ E) as L. pose proof (poke_inside _ _ _ _ E) as Hi.
  apply IH; simpl in H2; lia.
Qed.

(** X9.  [ResponseError] copies the message with its terminator over the
    start of the array and leaves the bytes after it; for an error number
    other than the two it knows it writes nothing; and it has no check of
    the array's size: on an array shorter than the message it writes
    outside it. *)
Theorem ResponseError_spec pRes ErrNo :
  ResponseError pRes ErrNo
  = if ErrNo =? ERRNO_CMD_NOTFOUND then
      if (List.length ErrorMessage_CmdNotFound <=? List.length pRes)%nat
      then Some (ErrorMessage_CmdNotFound
                 ++ skipn (List.length ErrorMessage_CmdNotFound) pRes)
      else None
    else if ErrNo =? ERRNO_ARG_INVALID then
      if (List.length ErrorMessage_ArgInvalid <=? List.length pRes)%nat
      then Some (ErrorMessage_ArgInvalid
                 ++ skipn (List.length ErrorMessage_ArgInvalid) pRes)
      else None
    else Some pRes.
Proof.
  unfold ResponseError.
  destruct (ErrNo =? ERRNO_CMD_NOTFOUND).
  - destruct (Nat.leb_spec (List.length ErrorMessage_CmdNotFound) (List.length pRes)).
    + apply copy_bytes_start; assumption.
    + apply copy_bytes_short; lia.
  - destruct (ErrNo =? ERRNO_ARG_INVALID); [|reflexivity].
    destruct (Nat.leb_spec (List.length ErrorMessage_ArgInvalid) (List.length pRes)).
    + apply copy_bytes_start; assumption.
    + apply copy_bytes_short; lia.
Qed.

(** ** The sequencer *)

(** X10.  A poll never writes into the command or response array, never
    moves the write index and never clears the busy flag, with one
    exception: the poll that takes the prompt step returns the prompt,
    zeroes both arrays and both indices, clears the busy flag and sets the
    echo flag.  Input is therefore re-opened by the prompt only, and only
    together with the reset. *)
Theorem CLI_Output_frame cfg st p st' :
  CLI_Output cfg st = Some (p, st') ->
  (CommandBuffer st' = CommandBuffer st
   /\ ResponseBuffer st' = ResponseBuffer st
   /\ CmdBufIdxIn st' = CmdBufIdxIn st
   /\ (IS_STATUS st CLI_STATUS_BUSY = true -> IS_STATUS st' CLI_STATUS_BUSY = true))
  \/ (p = String_Prompt_ptr
      /\ CommandBuffer st' = zeros (CLI_COMMAND_LENGTH cfg)
      /\ ResponseBuffer st' = zeros (CLI_RESPONSE_LENGTH cfg)
      /\ CmdBufIdxIn st' = 0 /\ CmdBufIdxOut st' = 0
      /\ IS_STATUS st' CLI_STATUS_BUSY = false
      /\ IS_STATUS st' CLI_STATUS_ECHO = true).
Proof.
  unfold CLI_Output. intros H.
  destruct (IS_ANY_STATUS st CLI_STATUS_ERROR_MASK).
  { destruct (IS_STATUS st CLI_STATUS_CMDOVF); [|discriminate].
    injection H as <- <-. left. repeat split. intros Hb. bits. exact Hb. }
  destruct (IS_STATUS st CLI_STATUS_ECHO).
  { destruct (CmdBufIdxOut st <? CmdBufIdxIn st).
    - destruct (strlen _) as [n|]; [|discriminate].
      destruct (IS_STATUS _ CLI_STATUS_BREAK).
      + cbn [CommandBuffer set_CmdBufIdxOut] in H.
        destruct (strlen _) as [m|]; [|discriminate].
        injection H as <- <-. left. repeat split. intros Hb.
        destruct (0 <? u16 (Z.of_nat m)); bits; exact Hb.
      + injection H as <- <-. left. repeat split. intros Hb. exact Hb.
    - injection H as <- <-. left. repeat split. intros Hb; exact Hb. }
  destruct (IS_STATUS st CLI_STATUS_NEWLINE).
  { injection H as <- <-. left. repeat split. intros Hb. bits. exact Hb. }
  destruct (IS_STATUS st CLI_STATUS_RESPONSE).
  { injection H as <- <-. left. repeat split. intros Hb. bits. exact Hb. }
  destruct (IS_STATUS st CLI_STATUS_PROMPT).
  { injection H as <- <-. right. repeat split; bits; reflexivity. }
  injection H as <- <-. left. repeat split. intros Hb. bits. reflexivity.
Qed.

Lemma CLI_Output_frame_witness :
  (CommandBuffer (completed_cycle demo ResponseBuffer_ptr)
   = CommandBuffer (set_CLI_Status name_arg_dispatched 0x24)
   /\ ResponseBuffer (completed_cycle demo ResponseBuffer_ptr)
      = ResponseBuffer (set_CLI_Status name_arg_dispatched 0x24)
   /\ CmdBufIdxIn (completed_cycle demo ResponseBuffer_ptr)
      = CmdBufIdxIn (set_CLI_Status name_arg_dispatched 0x24)
   /\ (IS_STATUS (set_CLI_Status name_arg_dispatched 0x24) CLI_STATUS_BUSY = true ->
       IS_STATUS (completed_cycle demo ResponseBuffer_ptr) CLI_STATUS_BUSY = true))
  \/ (String_Prompt_ptr = String_Prompt_ptr
      /\ CommandBuffer (completed_cycle demo ResponseBuffer_ptr) = zeros (CLI_COMMAND_LENGTH demo)
      /\ ResponseBuffer (completed_cycle demo ResponseBuffer_ptr) = zeros (CLI_RESPONSE_LENGTH demo)
      /\ CmdBufIdxIn (completed_cycle demo ResponseBuffer_ptr) = 0
      /\ CmdBufIdxOut (completed_cycle demo ResponseBuffer_ptr) = 0
      /\ IS_STATUS (completed_cycle demo ResponseBuffer_ptr) CLI_STATUS_BUSY = false
      /\ IS_STATUS (completed_cycle demo ResponseBuffer_ptr) CLI_STATUS_ECHO = true).
Proof.
  refine (CLI_Output_frame demo (set_CLI_Status name_arg_dispatched 0x24)
            String_Prompt_ptr (completed_cycle demo ResponseBuffer_ptr) _).
  vm_compute. reflexivity.
Defined.

(** X11.  Before any input, the status word is zero and the first poll
    takes the unexpected-state branch: it returns nothing; the polls after
    it return the newline, the unexpected-problem message, the newline and
    the prompt, then nothing, and leave the state of a completed cycle.
    The interpreter thus opens with that message. *)
Theorem startup_sequence cfg :
  exists st1 nl pr,
    CLI_Output cfg (initial_state cfg) = Some (NULL, st1)
    /\ string_at cfg st1 String_Newline_ptr = Some nl
    /\ string_at cfg st1 String_Prompt_ptr = Some pr
    /\ drain cfg 5 st1
       = Some ([nl; lit STRING_OTHER; nl; pr],
               completed_cycle cfg ErrorMessage_Other_ptr).
Proof.
  destruct (cstr_lit0_defined (CLI_STRING_NEWLINE cfg)) as [nl Hnl].
  destruct (cstr_lit0_defined (CLI_STRING_PROMPT cfg)) as [pr Hpr].
  exists {| CommandBuffer := zeros (CLI_COMMAND_LENGTH cfg);
            ResponseBuffer := zeros (CLI_RESPONSE_LENGTH cfg);
            CmdBufIdxIn := 0; CmdBufIdxOut := 0;
            CLI_Status := 0x2A; pResponse := ErrorMessage_Other_ptr |}, nl, pr.
  split; [reflexivity|]. split; [exact Hnl|]. split; [exact Hpr|].
  apply drain_response; [exact Hnl | exact Hpr | discriminate | reflexivity].
Qed.

Lemma Forall_skipn_bytes (P : ascii -> Prop) n (l : bytes) :
  Forall P l -> Forall P (skipn n l).
Proof.
  revert l; induction n as [|n IH]; intros l H; [exact H|].
  destruct l as [|x l]; [exact H|]. inversion H; subst. apply IH; assumption.
Qed.

(** X12.  While a line is being typed (echo flag set, break flag clear),
    a poll returns in one fragment every byte appended since the last poll
    and moves the read index to the write index; the poll after it returns
    nothing and changes nothing. *)
Theorem echo_pending cfg st w :
  IS_ANY_STATUS st CLI_STATUS_ERROR_MASK = false ->
  IS_STATUS st CLI_STATUS_ECHO = true ->
  IS_STATUS st CLI_STATUS_BREAK = false ->
  Forall (fun c => c <> NUL) w ->
  (List.length w < CLI_COMMAND_LENGTH cfg)%nat ->
  Z.of_nat (CLI_COMMAND_LENGTH cfg) <= 65535 ->
  0 <= CmdBufIdxOut st < Z.of_nat (List.length w) ->
  let st1 := set_CmdBufIdxOut (with_line cfg st w) (Z.of_nat (List.length w)) in
  CLI_Output cfg (with_line cfg st w) = Some (CommandBuffer_at (CmdBufIdxOut st), st1)
  /\ string_at cfg st1 (CommandBuffer_at (CmdBufIdxOut st))
     = Some (skipn (Z.to_nat (CmdBufIdxOut st)) w)
  /\ CLI_Output cfg st1 = Some (NULL, st1).
Proof.
  intros Herr Hecho Hbreak Hw Lw HN Ho st1.
  set (o := Z.to_nat (CmdBufIdxOut st)).
  assert (Es : skipn o (w ++ zeros (CLI_COMMAND_LENGTH cfg - List.length w))
               = skipn o w ++ NUL :: zeros (CLI_COMMAND_LENGTH cfg - List.length w - 1)).
  { rewrite skipn_app_defined by (unfold o; lia).
    replace (CLI_COMMAND_LENGTH cfg - List.length w)%nat
      with (S (CLI_COMMAND_LENGTH cfg - List.length w - 1)) at 1 by lia.
    reflexivity. }
  assert (Hs : Forall (fun c => c <> NUL) (skipn o w)) by (apply Forall_skipn_bytes; assumption).
  assert (Ls : List.length (skipn o w) = (List.length w - o)%nat) by apply length_skipn.
  split; [|split].
  - unfold CLI_Output.
    change (IS_ANY_STATUS (with_line cfg st w) CLI_STATUS_ERROR_MASK)
      with (IS_ANY_STATUS st CLI_STATUS_ERROR_MASK).
    change (IS_STATUS (with_line cfg st w) CLI_STATUS_ECHO)
      with (IS_STATUS st CLI_STATUS_ECHO).
    rewrite Herr, Hecho.
    cbn [CmdBufIdxOut CmdBufIdxIn CommandBuffer with_line set_CmdBufIdxIn set_CommandBuffer].
    destruct (Z.ltb_spec (CmdBufIdxOut st) (Z.of_nat (List.length w))) as [_|Hge]; [|lia].
    fold o. rewrite Es, (strlen_chars _ _ Hs), Ls.
    change (IS_STATUS _ CLI_STATUS_BREAK) with (IS_STATUS st CLI_STATUS_BREAK).
    rewrite Hbreak.
    rewrite (u16_small (Z.of_nat (List.length w - o))) by lia.
    rewrite u16_small by (unfold o; lia).
    replace (CmdBufIdxOut st + Z.of_nat (List.length w - o)) with (Z.of_nat (List.length w))
      by (unfold o; lia).
    reflexivity.
  - unfold string_at, cstr.
    destruct (Z.ltb_spec (CmdBufIdxOut st) 0); [lia|].
    cbn [CommandBuffer st1 set_CmdBufIdxOut with_line set_CmdBufIdxIn set_CommandBuffer].
    fold o. rewrite Es, (strlen_chars _ _ Hs).
    rewrite firstn_app, firstn_all, Nat.sub_diag. cbn [firstn]. rewrite app_nil_r. reflexivity.
  - unfold CLI_Output.
    change (IS_ANY_STATUS st1 CLI_STATUS_ERROR_MASK)
      with (IS_ANY_STATUS st CLI_STATUS_ERROR_MASK).
    change (IS_STATUS st1 CLI_STATUS_ECHO) with (IS_STATUS st CLI_STATUS_ECHO).
    rewrite Herr, Hecho.
    cbn [CmdBufIdxOut CmdBufIdxIn st1 set_CmdBufIdxOut with_line set_CmdBufIdxIn set_CommandBuffer].
    rewrite Z.ltb_irrefl. reflexivity.
Qed.

Lemma echo_pending_witness :
  let st1 := set_CmdBufIdxOut (with_line demo (completed_cycle demo NULL) (lit "GET"))
                              (Z.of_nat (List.length (lit "GET"))) in
  CLI_Output demo (with_line demo (completed_cycle demo NULL) (lit "GET"))
  = Some (CommandBuffer_at (CmdBufIdxOut (completed_cycle demo NULL)), st1)
  /\ string_at demo st1 (CommandBuffer_at (CmdBufIdxOut (completed_cycle demo NULL)))
     = Some (skipn (Z.to_nat (CmdBufIdxOut (completed_cycle demo NULL))) (lit "GET"))
  /\ CLI_Output demo st1 = Some (NULL, st1).
Proof.
  refine (echo_pending demo (completed_cycle demo NULL) (lit "GET") _ _ _ _ _ _ _).
  - reflexivity.
  - reflexivity.
  - reflexivity.
  - repeat constructor; discriminate.
  - simpl; lia.
  - simpl; lia.
  - simpl; lia.
Defined.

Lemma find_sub_CRLF_end w :
  Forall (fun c => c <> CR) w -> find_sub [CR; LF] (w ++ [CR; LF]) = Some (List.length w).
Proof.
  induction 1 as [|c w Hc _ IH]; [reflexivity|].
  cbn [app find_sub is_prefix].
  destruct (Ascii.eqb_spec CR c) as [E|_]; [symmetry in E; contradiction|].
  cbn [andb]. cbn [find_sub is_prefix] in IH. rewrite IH. reflexivity.
Qed.

Lemma skipn_last_NUL (a : bytes) p (tail : bytes) :
  List.length a = S p -> nth p a NUL = NUL -> skipn p (a ++ tail) = NUL :: tail.
Proof.
  intros L Hn. rewrite skipn_app_defined by lia.
  assert (E : skipn p a = [NUL]).
  { apply (nth_ext _ _ NUL NUL).
    - rewrite length_skipn; simpl; lia.
    - intros j Hj. rewrite length_skipn in Hj.
      replace j with 0%nat by lia. rewrite nth_skipn, Nat.add_0_r. exact Hn. }
  rewrite E. reflexivity.
Qed.

(** X13.  When a line has been echoed to its last byte and the terminator
    CR LF then arrives in a call of its own, the line is dispatched and its
    response stored, but the echo fragment of the next poll is empty, so
    the sequencer takes the prompt step instead of the response step: the
    polls return the empty fragment, the newline and the prompt, the
    response is never returned, and the prompt step zeroes it. *)
Theorem response_skipped_after_echo cfg st w :
  handlers_ok cfg -> sizes_ok cfg ->
  CLI_STRING_NEWLINE cfg = CRLF ->
  CLI_Status st = CLI_STATUS_ECHO ->
  CmdBufIdxOut st = Z.of_nat (List.length w) ->
  List.length (ResponseBuffer st) = CLI_RESPONSE_LENGTH cfg ->
  Forall (fun c => c <> NUL) w -> Forall (fun c => c <> CR) w ->
  (List.length w + 2 < CLI_COMMAND_LENGTH cfg)%nat ->
  exists st1 resp pr p stI,
    CLI_Input cfg [CR; LF] (with_line cfg st w) = Some (USBD_OK, st1)
    /\ InvokeCommand cfg (set_CommandBuffer st (w ++ [NUL])) = Some (p, stI)
    /\ ResponseBuffer st1 = ResponseBuffer stI
    /\ pResponse st1 = ResponseBuffer_ptr
    /\ string_at cfg st1 ResponseBuffer_ptr = Some resp
    /\ string_at cfg st1 String_Prompt_ptr = Some pr
    /\ drain cfg 4 st1
       = Some ([[]; lit CRLF; pr], completed_cycle cfg ResponseBuffer_ptr).
Proof.
  intros Hh Hs Hcrlf Hst Hout Lr HwN HwC HW. pose proof Hs as [HN _].
  destruct (cstr_lit0_defined (CLI_STRING_PROMPT cfg)) as [pr Hpr].
  assert (Hnl : cstr (String_Newline cfg) = Some [CR; LF])
    by (unfold String_Newline; rewrite Hcrlf; reflexivity).
  assert (Hb : IS_STATUS st CLI_STATUS_BUSY = false)
    by (unfold IS_STATUS; rewrite Hst; reflexivity).
  set (W := w ++ [CR; LF]).
  assert (LW : List.length W = (List.length w + 2)%nat)
    by (unfold W; rewrite length_app; reflexivity).
  pose proof (CLI_Input_append cfg [CR; LF] st w [CR; LF]) as E1.
  change (filter IS_CHAR_VALID [CR; LF]) with [CR; LF] in E1.
  rewrite (find_sub_CRLF_end w HwC) in E1. fold W in E1.
  specialize (E1 (proj2 HN) Hb HwN Hnl).
  rewrite E1 by (lia || discriminate). clear E1.
  assert (Ef : firstn (List.length w) W = w).
  { unfold W. rewrite firstn_app, firstn_all, Nat.sub_diag. cbn [firstn].
    apply app_nil_r. }
  destruct (InvokeCommand_defined cfg (set_CommandBuffer st (w ++ [NUL]))
              (List.length w) Hh Hs) as (a' & r' & EI & Hz & Lr').
  { exact Lr. }
  { cbn [CommandBuffer set_CommandBuffer]. rewrite length_app; simpl; lia. }
  { cbn [CommandBuffer set_CommandBuffer].
    rewrite app_nth2, Nat.sub_diag by lia. reflexivity. }
  cbn [CommandBuffer set_CommandBuffer] in Hz.
  assert (La : List.length a' = S (List.length w))
    by (destruct Hz as [-> _]; rewrite length_app; simpl; lia).
  assert (Na : nth (List.length w) a' NUL = NUL).
  { eapply zeroing_keeps_NUL; [exact Hz|].
    rewrite app_nth2, Nat.sub_diag by lia. reflexivity. }
  rewrite (dispatch_line_result cfg st W (List.length w) a' r');
    [| lia | lia | rewrite Ef; exact EI].
  rewrite Hst, Hout, LW.
  change (u16 (Z.lor CLI_STATUS_ECHO (Z.lor CLI_STATUS_BUSY CLI_STATUS_BREAK))) with 0x31.
  set (tail := skipn (S (List.length w)) (W ++ zeros (CLI_COMMAND_LENGTH cfg - (List.length w + 2)))).
  destruct (InvokeCommand_response_string _ _ _ _ EI) as (_ & resp & Hresp & _).
  cbn [string_at ResponseBuffer set_ResponseBuffer] in Hresp.
  eexists _, resp, pr, _, _.
  split; [reflexivity|]. split; [exact EI|].
  split; [reflexivity|]. split; [reflexivity|].
  split; [exact Hresp|]. split; [exact Hpr|].
  assert (Elen : strlen (skipn (Z.to_nat (Z.of_nat (List.length w))) (a' ++ tail)) = Some 0%nat).
  { rewrite Nat2Z.id, (skipn_last_NUL a' _ tail La Na). reflexivity. }
  eapply drain_step with (p := CommandBuffer_at (Z.of_nat (List.length w)))
                         (st1 := {| CommandBuffer := a' ++ tail; ResponseBuffer := r';
                                    CmdBufIdxIn := Z.of_nat (List.length w + 2);
                                    CmdBufIdxOut := Z.of_nat (List.length w);
                                    CLI_Status := 0x26;
                                    pResponse := ResponseBuffer_ptr |}).
  - unfold CLI_Output.
    change (IS_ANY_STATUS _ CLI_STATUS_ERROR_MASK) with false.
    change (IS_STATUS _ CLI_STATUS_ECHO) with true.
    cbn [CmdBufIdxOut CmdBufIdxIn CommandBuffer set_CmdBufIdxOut].
    destruct (Z.ltb_spec (Z.of_nat (List.length w)) (Z.of_nat (List.length w + 2)))
      as [_|Hge]; [|lia].
    rewrite Elen.
    change (IS_STATUS _ CLI_STATUS_BREAK) with true.
    change (u16 (Z.of_nat 0)) with 0. rewrite Z.add_0_r, u16_small by lia.
    reflexivity.
  - discriminate.
  - unfold string_at, cstr. cbn [CommandBuffer].
    destruct (Z.ltb_spec (Z.of_nat (List.length w)) 0); [lia|].
    rewrite Elen. reflexivity.
  - apply drain_prompt; [rewrite Hnl; reflexivity | exact Hpr].
Qed.

Lemma response_skipped_after_echo_witness :
  exists st1 resp pr p stI,
    CLI_Input demo [CR; LF]
      (with_line demo (set_CmdBufIdxOut (completed_cycle demo NULL) 7) (lit "GET_LOG"))
    = Some (USBD_OK, st1)
    /\ InvokeCommand demo
         (set_CommandBuffer (set_CmdBufIdxOut (completed_cycle demo NULL) 7)
            (lit "GET_LOG" ++ [NUL]))
       = Some (p, stI)
    /\ ResponseBuffer st1 = ResponseBuffer stI
    /\ pResponse st1 = ResponseBuffer_ptr
    /\ string_at demo st1 ResponseBuffer_ptr = Some resp
    /\ string_at demo st1 String_Prompt_ptr = Some pr
    /\ drain demo 4 st1
       = Some ([[]; lit CRLF; pr], completed_cycle demo ResponseBuffer_ptr).
Proof.
  refine (response_skipped_after_echo demo
            (set_CmdBufIdxOut (completed_cycle demo NULL) 7) (lit "GET_LOG")
            demo_handlers_ok demo_sizes_ok _ _ _ _ _ _ _).
  - reflexivity.
  - reflexivity.
  - reflexivity.
  - reflexivity.
  - repeat constructor; discriminate.
  - repeat constructor; discriminate.
  - simpl; lia.
Defined.

(** ** What the reachable states keep for the caller *)

Lemma Inv2_initial cfg : sizes_ok cfg -> Inv2 cfg (initial_state cfg).
Proof.
  intros Hs. pose proof Hs as [_ HR].
  change (List.length ErrorMessage_CmdNotFound) with 27%nat in HR.
  constructor.
  - apply Inv_initial; assumption.
  - exists 0%nat. cbn [ResponseBuffer initial_state]. rewrite zeros_length.
    split; [lia | apply nth_zeros].
  - discriminate.
  - discriminate.
Qed.

Lemma string_defined_NUL (r : bytes) x :
  cstr r = Some x ->
  exists j, (j < List.length r)%nat /\ nth j r NUL = NUL.
Proof.
  unfold cstr. intros H. destruct (strlen r) as [n|] eqn:E; [|discriminate].
  destruct (strlen_spec _ _ E) as (A & B & _). eauto.
Qed.

Lemma Inv2_CLI_Input cfg pInput st r st' :
  handlers_ok cfg -> sizes_ok cfg -> Inv2 cfg st ->
  CLI_Input cfg pInput st = Some (r, st') -> Inv2 cfg st'.
Proof.
  intros Hh Hs [I Hr Hp Hpend] E. pose proof Hs as [HN HR].
  destruct (Inv_CLI_Input cfg pInput st Hh Hs I) as (st2 & E2 & I2).
  assert (st2 = st') by congruence. subst st2. clear E2.
  pose proof I as [Lc Lr Ho Hi Hz He Ha Hf].
  destruct (IS_STATUS st CLI_STATUS_BUSY) eqn:Hb.
  { rewrite (CLI_Input_busy _ _ _ Hb) in E. injection E as _ <-.
    constructor; assumption. }
  destruct pInput as [|c rest].
  { unfold CLI_Input in E. rewrite orb_true_r in E. injection E as _ <-.
    constructor; assumption. }
  specialize (Ha eq_refl).
  set (w := firstn (Z.to_nat (CmdBufIdxIn st)) (CommandBuffer st)) in *.
  assert (Lw : List.length w = Z.to_nat (CmdBufIdxIn st))
    by (unfold w; rewrite length_firstn; lia).
  pose proof (CLI_Input_accepting cfg (c :: rest) st w) as EA.
  unfold w in EA at 2. rewrite with_line_self in EA by (assumption || lia).
  rewrite EA in E by (lia || assumption || discriminate). clear EA.
  cbv zeta in E.
  set (W := w ++ filter IS_CHAR_VALID (c :: rest)) in *.
  destruct (List.length W <? CLI_COMMAND_LENGTH cfg)%nat eqn:Hroom.
  - destruct (strstr _ _) as [[pNL|]|]; [| |discriminate].
    + destruct (poke _ pNL NUL) as [a|]; [|discriminate].
      destruct (InvokeCommand cfg _) as [[p st2]|] eqn:EI; [|discriminate].
      injection E as _ <-.
      destruct (InvokeCommand_response_string _ _ _ _ EI) as (-> & x & Hx & _).
      constructor; [assumption | | | ].
      * fields. apply (string_defined_NUL _ x). exact Hx.
      * fields. discriminate.
      * intros _ Hbr. exfalso. revert Hbr. bits. discriminate.
    + injection E as _ <-.
      constructor; [assumption | exact Hr | exact Hp |].
      intros H1 H2 H3 j Hj.
      change (IS_STATUS (with_line cfg st W) CLI_STATUS_ECHO)
        with (IS_STATUS st CLI_STATUS_ECHO) in H1.
      change (IS_STATUS (with_line cfg st W) CLI_STATUS_BREAK)
        with (IS_STATUS st CLI_STATUS_BREAK) in H2.
      change (IS_STATUS (with_line cfg st W) CLI_STATUS_CMDOVF)
        with (IS_STATUS st CLI_STATUS_CMDOVF) in H3.
      cbn [CmdBufIdxOut CmdBufIdxIn CommandBuffer with_line set_CmdBufIdxIn
           set_CommandBuffer] in Hj |- *.
      rewrite Nat2Z.id in Hj.
      rewrite app_nth1 by lia. unfold W.
      destruct (Nat.lt_ge_cases j (List.length w)) as [Hlt|Hge].
      * rewrite app_nth1 by lia. unfold w. rewrite nth_firstn.
        destruct (Nat.ltb_spec j (Z.to_nat (CmdBufIdxIn st))); [|lia].
        apply (Hpend H1 H2 H3). lia.
      * rewrite app_nth2 by lia.
        pose proof (filter_valid_not_NUL (c :: rest)) as Hf'.
        rewrite Forall_forall in Hf'. apply Hf', nth_In.
        unfold W in Hj. rewrite length_app in Hj. lia.
  - injection E as _ <-.
    constructor; [assumption | exact Hr | exact Hp |].
    intros _ _ Hovf. exfalso. revert Hovf. bits. discriminate.
Qed.

Lemma literal_string_defined cfg st p :
  p = String_Newline_ptr \/ p = String_Prompt_ptr
  \/ p = ErrorMessage_CmdOvf_ptr \/ p = ErrorMessage_Other_ptr ->
  exists x, string_at cfg st p = Some x.
Proof.
  intros [ -> | [ -> | [ -> | -> ] ] ]; cbn [string_at];
    first [apply cstr_lit0_defined | eexists; reflexivity].
Qed.

Lemma response_string_defined cfg st :
  (exists j, (j < List.length (ResponseBuffer st))%nat
             /\ nth j (ResponseBuffer st) NUL = NUL) ->
  (forall i, pResponse st <> CommandBuffer_at i) ->
  pResponse st = NULL \/ exists x, string_at cfg st (pResponse st) = Some x.
Proof.
  intros (j & Hj & Hn) Hp. destruct (pResponse st) eqn:E.
  - left; reflexivity.
  - exfalso; apply (Hp i); reflexivity.
  - right. cbn [string_at]. destruct (strlen_found _ _ Hj Hn) as (n & En & _).
    unfold cstr. rewrite En. eauto.
  - right. apply literal_string_defined; auto.
  - right. apply literal_string_defined; auto.
  - right. apply literal_string_defined; auto.
  - right. apply literal_string_defined; auto.
Qed.

(** One poll from a state that satisfies the invariants: it is defined,
    keeps the invariants, and either returns nothing or returns a pointer
    to a terminated string and lowers the bound on the fragments left. *)
Lemma CLI_Output_step cfg st :
  sizes_ok cfg -> Inv2 cfg st ->
  exists p st',
    CLI_Output cfg st = Some (p, st') /\ Inv2 cfg st'
    /\ (p = NULL
        \/ ((exists x, string_at cfg st' p = Some x)
            /\ (polls_left st' < polls_left st)%nat)).
Proof.
  intros Hs I2. pose proof I2 as [I Hr Hp Hpend]. pose proof Hs as [HN HR].
  change (List.length ErrorMessage_CmdNotFound) with 27%nat in HR.
  destruct (Inv_CLI_Output cfg st Hs I) as (p & st' & E & I').
  exists p, st'. split; [exact E|].
  pose proof I as [Lc Lr Ho Hi Hz He Ha Hf].
  assert (He' : Z.land (CLI_Status st') 0xE00 = 0) by apply I'.
  unfold polls_left. rewrite (IS_ANY_error st He), (IS_ANY_error st' He').
  clear He'.
  unfold CLI_Output in E. rewrite (IS_ANY_error st He) in E. flags.
  destruct (Z.testbit (CLI_Status st) 8) eqn:B8.
  { injection E as <- <-. split; [|left; reflexivity].
    constructor; [assumption | exact Hr | fields; discriminate |].
    intros H. exfalso. revert H. bits. discriminate. }
  destruct (Z.testbit (CLI_Status st) 0) eqn:B0.
  { destruct (Z.ltb_spec (CmdBufIdxOut st) (CmdBufIdxIn st)) as [Hlt|Hge].
    2:{ injection E as <- <-. split; [exact I2 | left; reflexivity]. }
    assert (HinN : CmdBufIdxIn st < Z.of_nat (CLI_COMMAND_LENGTH cfg)).
    { destruct (Z.eq_dec (CmdBufIdxIn st) (Z.of_nat (CLI_COMMAND_LENGTH cfg))) as [E1|E1]; [|lia].
      destruct (Hf E1); discriminate. }
    destruct (strlen_at (CommandBuffer st) (Z.to_nat (CmdBufIdxOut st))
                (Z.to_nat (CmdBufIdxIn st))) as (n & En & Hn); [lia | lia | apply Hz; lia |].
    rewrite En in E. cbn [CommandBuffer set_CmdBufIdxOut] in E. rewrite En in E.
    assert (Eout : u16 (CmdBufIdxOut st + u16 (Z.of_nat n)) = CmdBufIdxOut st + Z.of_nat n).
    { rewrite (u16_small (Z.of_nat n)) by lia. apply u16_small; lia. }
    rewrite Eout in E.
    assert (Hstr : forall s, CommandBuffer s = CommandBuffer st ->
                     exists x, string_at cfg s (CommandBuffer_at (CmdBufIdxOut st)) = Some x).
    { intros s Es. unfold string_at, cstr.
      destruct (Z.ltb_spec (CmdBufIdxOut st) 0); [lia|]. rewrite Es, En. eauto. }
    rewrite IS_BREAK in E. cbn [CLI_Status set_CmdBufIdxOut] in E.
    destruct (Z.testbit (CLI_Status st) 4) eqn:B4.
    - injection E as <- <-. split.
      + constructor; [assumption | exact Hr | fields; exact Hp |].
        intros H. exfalso. revert H.
        destruct (0 <? u16 (Z.of_nat n)); bits; discriminate.
      + right. split; [apply Hstr; reflexivity|].
        destruct (0 <? u16 (Z.of_nat n)); bits; rewrite ?B8;
          repeat match goal with |- context [if ?b then _ else _] => destruct b end;
          lia.
    - assert (En' : (Z.to_nat (CmdBufIdxOut st) + n = Z.to_nat (CmdBufIdxIn st))%nat).
      { destruct (strlen_at_spec _ _ _ En) as (_ & B & _).
        destruct (Nat.eq_dec (Z.to_nat (CmdBufIdxOut st) + n) (Z.to_nat (CmdBufIdxIn st)))
          as [Eq|Ne]; [exact Eq|].
        exfalso. apply (Hpend eq_refl eq_refl eq_refl (Z.to_nat (CmdBufIdxOut st) + n)%nat);
          [lia | exact B]. }
      injection E as <- <-. split.
      + constructor; [assumption | exact Hr | exact Hp |].
        flags. fields. intros H1 H2 H3 j Hj. lia.
      + right. split; [apply Hstr; reflexivity|].
        flags. fields. rewrite B8, B0, B4.
        destruct (Z.ltb_spec (CmdBufIdxOut st + Z.of_nat n) (CmdBufIdxIn st)); lia. }
  destruct (Z.testbit (CLI_Status st) 1) eqn:B1.
  { injection E as <- <-. split.
    - constructor; [assumption | exact Hr | exact Hp |].
      intros H. exfalso. revert H. bits. congruence.
    - right. split; [apply literal_string_defined; auto|].
      bits. rewrite ?B8, ?B0, ?B1.
      repeat match goal with |- context [if ?b then _ else _] => destruct b end; lia. }
  destruct (Z.testbit (CLI_Status st) 3) eqn:B3.
  { injection E as <- <-. split.
    - constructor; [assumption | exact Hr | exact Hp |].
      intros H. exfalso. revert H. bits. congruence.
    - destruct (response_string_defined cfg st Hr Hp) as [ -> | [x Hx] ]; [left; reflexivity|].
      right. split.
      + exists x. rewrite <- Hx. destruct st; apply string_at_status.
      + bits. rewrite ?B8, ?B0, ?B1, ?B3. cbn. lia. }
  destruct (Z.testbit (CLI_Status st) 2) eqn:B2.
  { injection E as <- <-. split.
    - constructor; [assumption | | fields; exact Hp |].
      + exists 0%nat. fields. rewrite zeros_length. split; [lia | apply nth_zeros].
      + intros _ _ _ j Hj. fields. simpl in Hj. lia.
    - right. split; [apply literal_string_defined; auto|].
      bits. rewrite ?B8, ?B0, ?B1, ?B3, ?B2. cbn. lia. }
  injection E as <- <-. split; [|left; reflexivity].
  constructor; [assumption | exact Hr | fields; discriminate |].
  intros H. exfalso. revert H. bits. congruence.
Qed.

Lemma reachable_Inv2 cfg st :
  handlers_ok cfg -> sizes_ok cfg -> reachable cfg st -> Inv2 cfg st.
Proof.
  intros Hh Hs R. induction R as [|st pInput r st' R IH E|st p st' R IH E].
  - apply Inv2_initial; assumption.
  - eapply Inv2_CLI_Input; eassumption.
  - destruct (CLI_Output_step cfg st Hs IH) as (p2 & st2 & E2 & I2 & _).
    rewrite E2 in E. injection E as _ <-. assumption.
Qed.

Lemma polls_left_bound st : (polls_left st <= 5)%nat.
Proof.
  unfold polls_left.
  repeat match goal with |- context [if ?b then _ else _] => destruct b end; lia.
Qed.

Lemma pointer_eq_NULL (p : pointer) : p = NULL \/ p <> NULL.
Proof. destruct p; [left; reflexivity | right; discriminate ..]. Qed.

Lemma drain_bounded cfg :
  sizes_ok cfg ->
  forall n st, Inv2 cfg st -> (polls_left st < n)%nat ->
  exists frags st',
    drain cfg n st = Some (frags, st')
    /\ (List.length frags <= polls_left st)%nat /\ Inv2 cfg st'.
Proof.
  intros Hs. induction n as [|n IH]; intros st I Hn; [lia|].
  destruct (CLI_Output_step cfg st Hs I) as (p & st1 & E & I1 & [->|[[x Hx] Hlt]]).
  - exists [], st1. split; [apply drain_stop; exact E|]. split; [simpl; lia | exact I1].
  - destruct (IH st1 I1) as (fs & st2 & Ed & Lf & I3); [lia|].
    destruct (pointer_eq_NULL p) as [->|Hp].
    + exists [], st1. split; [apply drain_stop; exact E|]. split; [simpl; lia | exact I1].
    + exists (x :: fs), st2.
      split; [eapply drain_step; eassumption|]. split; [simpl; lia | exact I3].
Qed.

(** X14.  In every state reached from the initial one a poll is defined
    and what it returns is either the null pointer or a pointer to a
    terminated string: the caller can always take the length of a
    fragment. *)
Theorem fragments_terminated cfg st :
  handlers_ok cfg -> sizes_ok cfg -> reachable cfg st ->
  exists p st',
    CLI_Output cfg st = Some (p, st')
    /\ (p = NULL \/ exists x, string_at cfg st' p = Some x).
Proof.
  intros Hh Hs R.
  destruct (CLI_Output_step cfg st Hs (reachable_Inv2 cfg st Hh Hs R))
    as (p & st' & E & _ & [Hp|[Hx _]]).
  - exists p, st'. split; [exact E | left; exact Hp].
  - exists p, st'. split; [exact E | right; exact Hx].
Qed.

Lemma fragments_terminated_witness :
  exists p st',
    CLI_Output demo (initial_state demo) = Some (p, st')
    /\ (p = NULL \/ exists x, string_at demo st' p = Some x).
Proof.
  exact (fragments_terminated demo (initial_state demo)
           demo_handlers_ok demo_sizes_ok (reach_init demo)).
Defined.

(** X15.  In every state reached from the initial one, polling comes to
    a poll that returns nothing within six polls, after at most five
    fragments: an undrained sequencer never keeps the caller polling
    forever. *)
Theorem drain_terminates cfg st :
  handlers_ok cfg -> sizes_ok cfg -> reachable cfg st ->
  exists frags st',
    drain cfg 6 st = Some (frags, st') /\ (List.length frags <= 5)%nat.
Proof.
  intros Hh Hs R. pose proof (polls_left_bound st) as Hb.
  destruct (drain_bounded cfg Hs 6 st (reachable_Inv2 cfg st Hh Hs R))
    as (frags & st' & E & L & _); [lia|].
  exists frags, st'. split; [exact E | lia].
Qed.

Lemma drain_terminates_witness :
  exists frags st',
    drain demo 6 (initial_state demo) = Some (frags, st')
    /\ (List.length frags <= 5)%nat.
Proof.
  exact (drain_terminates demo (initial_state demo)
           demo_handlers_ok demo_sizes_ok (reach_init demo)).
Defined.

Lemma BufferInput_frame cfg pInput : forall st res st',
  BufferInput cfg pInput st = Some (res, st') ->
  CmdBufIdxOut st' = CmdBufIdxOut st /\ CLI_Status st' = CLI_Status st
  /\ ResponseBuffer st' = ResponseBuffer st /\ pResponse st' = pResponse st.
Proof.
  induction pInput as [|c rest IH]; intros st res st' H; cbn [BufferInput] in H.
  - injection H as _ <-. repeat split.
  - destruct (IS_CHAR_VALID c); [|apply IH with (1 := H)].
    destruct (poke _ _ c) as [b|]; [|discriminate].
    destruct (Z.of_nat (CLI_COMMAND_LENGTH cfg) <=? _).
    + injection H as _ <-. repeat split.
    + apply IH in H. exact H.
Qed.

Lemma InvokeCommand_frame_fields cfg st p st' :
  InvokeCommand cfg st = Some (p, st') ->
  CmdBufIdxOut st' = CmdBufIdxOut st /\ CmdBufIdxIn st' = CmdBufIdxIn st
  /\ CLI_Status st' = CLI_Status st.
Proof.
  unfold InvokeCommand. intros H.
  destruct (InvokeCommand_split (CommandBuffer st)) as [[[a pCmd] args]|]; [|discriminate].
  destruct args as [pArg|].
  - destruct (seek _ _ _) as [C|]; [|discriminate].
    destruct (arg_string a pArg) as [arg|]; [|discriminate].
    destruct (C arg _) as [[res r]|]; [|discriminate].
    destruct (if CLI_Result_eqb res CLI_RESULT_INVALID
              then ResponseError r ERRNO_ARG_INVALID else Some r) as [r1|];
      [|discriminate].
    destruct (poke r1 _ NUL) as [r2|]; [|discriminate].
    injection H as _ <-. repeat split.
  - destruct (poke _ 0 NUL) as [r|]; [|discriminate].
    injection H as _ <-. repeat split.
Qed.

(** X16.  Whenever it returns, [CLI_Input] returns [USBD_OK]; it never
    moves the read index and never clears a flag of the status word, and
    the only flags it can add are break (bit 4), busy (bit 5) and overflow
    (bit 8).  The caller learns of an overflow or of a completed line from
    the polls alone. *)
Theorem CLI_Input_frame cfg pInput st r st' :
  CLI_Input cfg pInput st = Some (r, st') ->
  r = USBD_OK
  /\ CmdBufIdxOut st' = CmdBufIdxOut st
  /\ (forall k, 0 <= k < 16 ->
        Z.testbit (CLI_Status st) k = true ->
        Z.testbit (CLI_Status st') k = true)
  /\ (forall k, 0 <= k < 16 -> k <> 4 -> k <> 5 -> k <> 8 ->
        Z.testbit (CLI_Status st') k = Z.testbit (CLI_Status st) k).
Proof.
  unfold CLI_Input. intros H.
  destruct (IS_STATUS st CLI_STATUS_BUSY || _).
  { injection H as <- <-. repeat split; auto. }
  destruct (BufferInput cfg pInput st) as [[res st1]|] eqn:EB; [|discriminate].
  cbn beta iota in H.
  destruct (BufferInput_frame _ _ _ _ _ EB) as (Eo & Es & _ & _).
  assert (Hset : forall s f,
             CmdBufIdxOut s = CmdBufIdxOut st -> CLI_Status s = CLI_Status st ->
             (forall k, 0 <= k < 16 -> k <> 4 -> k <> 5 -> k <> 8 ->
                        Z.testbit f k = false) ->
             USBD_OK = USBD_OK
             /\ CmdBufIdxOut (SET_STATUS s f) = CmdBufIdxOut st
             /\ (forall k, 0 <= k < 16 ->
                   Z.testbit (CLI_Status st) k = true ->
                   Z.testbit (CLI_Status (SET_STATUS s f)) k = true)
             /\ (forall k, 0 <= k < 16 -> k <> 4 -> k <> 5 -> k <> 8 ->
                   Z.testbit (CLI_Status (SET_STATUS s f)) k
                   = Z.testbit (CLI_Status st) k)).
  { intros s f E1 E2 Hf. split; [reflexivity|]. split; [exact E1|]. split.
    - intros k Hk Hb. rewrite bit_SET, E2, Hb by assumption. reflexivity.
    - intros k Hk k4 k5 k8. rewrite bit_SET, E2, Hf by assumption.
      apply orb_false_r. }
  assert (Hbits : forall f, (f = 288 \/ f = 48) ->
             forall k, 0 <= k < 16 -> k <> 4 -> k <> 5 -> k <> 8 ->
                       Z.testbit f k = false).
  { intros f Hf k Hk k4 k5 k8.
    assert (Hc : k = 0 \/ k = 1 \/ k = 2 \/ k = 3 \/ k = 6 \/ k = 7 \/ k = 9
                 \/ k = 10 \/ k = 11 \/ k = 12 \/ k = 13 \/ k = 14 \/ k = 15)
      by lia.
    destruct Hf as [-> | ->];
      repeat (destruct Hc as [-> | Hc]; [reflexivity|]); subst k; reflexivity. }
  destruct (negb (CLI_Result_eqb res CLI_RESULT_OK)).
  { injection H as <- <-. apply Hset; [assumption..|]. apply Hbits. left. reflexivity. }
  destruct (strstr (CommandBuffer st1) (String_Newline cfg)) as [[pNL|]|];
    [| |discriminate]; cbn beta iota in H.
  - destruct (poke (CommandBuffer st1) pNL NUL) as [a|]; [|discriminate].
    cbn beta iota in H.
    destruct (InvokeCommand cfg (set_CommandBuffer st1 a)) as [[p st2]|] eqn:EI;
      [|discriminate].
    cbn beta iota in H. injection H as <- <-.
    destruct (InvokeCommand_frame_fields _ _ _ _ EI) as (Eo2 & _ & Es2).
    apply Hset.
    + cbn. rewrite Eo2. exact Eo.
    + cbn. rewrite Es2. exact Es.
    + apply Hbits. right. reflexivity.
  - injection H as <- <-. rewrite Eo, Es. repeat split; auto.
Qed.

Lemma CLI_Input_frame_witness :
  USBD_OK = USBD_OK
  /\ CmdBufIdxOut name_arg_dispatched = CmdBufIdxOut (completed_cycle demo NULL)
  /\ (forall k, 0 <= k < 16 ->
        Z.testbit (CLI_Status (completed_cycle demo NULL)) k = true ->
        Z.testbit (CLI_Status name_arg_dispatched) k = true)
  /\ (forall k, 0 <= k < 16 -> k <> 4 -> k <> 5 -> k <> 8 ->
        Z.testbit (CLI_Status name_arg_dispatched) k
        = Z.testbit (CLI_Status (completed_cycle demo NULL)) k).
Proof.
  refine (CLI_Input_frame demo (lit "GET_LOG 1" ++ [CR; LF])
            (completed_cycle demo NULL) USBD_OK name_arg_dispatched _).
  vm_compute. reflexivity.
Defined.
